(** * netbox_sd: address selection, label generation, target assembly and
      the group worker, embedded from the Go sources.

    Go values are modelled as the code has them: strings as [string], a
    [map[string]T] as [gmap string T], a slice as a [list], a pointer that
    the code tests against [nil] as an [option].  A Go run-time panic
    (a failed type assertion, [netip.MustParseAddr], a nil dereference,
    [log.Panicf]) is the [Panicked] outcome; a returned [error] is an
    ordinary value. *)

From Stdlib Require Import ZArith String Ascii List Bool Lia.
From Stdlib Require Import SpecFloat DecimalString.
From stdpp Require Import gmap strings list fin_maps.

Local Open Scope string_scope.
Local Open Scope list_scope.

(** ** Outcomes of Go calls *)

Inductive outcome (A : Type) : Type :=
| Done (a : A)
| Panicked (msg : string).
Arguments Done {A} a.
Arguments Panicked {A} msg.

#[global] Instance outcome_ret : MRet outcome := fun A a => Done a.
#[global] Instance outcome_bind : MBind outcome := fun A B k m =>
  match m with
  | Done a => k a
  | Panicked msg => Panicked msg
  end.

(** Go's [error] interface: only nil-ness and identity of the sentinel
    values matter here, so an error is its message. *)
Definition error := string.

(** ** Package netbox: constants (constants.go) *)

Definition StatusDeviceActive : string := "active".
Definition StatusIPActive : string := "active".
Definition StatusIPReserved : string := "reserved".
Definition StatusIPDeprecated : string := "deprecated".
Definition StatusIPDHCP : string := "dhcp".
Definition StatusIPSLAAC : string := "slaac".

(** ** Package netbox: IP (ip.go) *)

Record VRF := { VRF_ID : N; VRF_IDString : string; VRF_Name : string }.

Record IP := {
  IP_ID : N;
  IP_IDString : string;
  Address : string;
  IP_Status : string;
  IP_VRF : option VRF
}.

Definition isDigit (c : ascii) : bool :=
  let n := nat_of_ascii c in (48 <=? n)%nat && (n <=? 57)%nat.

Fixpoint allDigits (s : string) : bool :=
  match s with
  | EmptyString => true
  | String c r => isDigit c && allDigits r
  end.

(** [cidrRegexp.ReplaceAllString] with the empty replacement, for the expression
    [(/\d{0,128})$]: the leftmost slash that is followed, up to the end of
    the text, by at most 128 digits is cut off together with them. *)
Fixpoint cidrRegexp_strip (s : string) : string :=
  match s with
  | EmptyString => EmptyString
  | String c r =>
      if Ascii.eqb c "/" && allDigits r && (String.length r <=? 128)%nat
      then EmptyString
      else String c (cidrRegexp_strip r)
  end.

Definition ToAddr (ip : IP) : string := cidrRegexp_strip (Address ip).

(** ** Package config: Group, Flags, Filter (config.go) *)

Definition LabelSet := gmap string string.

(** [model.LabelSet.Merge]: the entries of [other] override those of [l]. *)
Definition Merge (l other : gmap string string) : gmap string string := other ∪ l.

Definition GroupTypeDeviceTag : string := "device_tag".
Definition GroupTypeInterfaceTag : string := "interface_tag".
Definition GroupTypeService : string := "service".
Definition InetFamilyAny : string := "any".
Definition InetFamilyInet : string := "inet".
Definition InetFamilyInet6 : string := "inet6".

(** The three flags are pointers that [validateGroup] fills with defaults
    before any worker starts; they are modelled by their targets. *)
Record Flags := {
  IncludeVMs : bool;
  InetFamily : string;
  AllAddresses : bool
}.

(** [regex] is the compiled expression, modelled by its [MatchString]. *)
Record Filter := {
  Filter_Label : string;
  Filter_Match : string;
  Negate : bool;
  regex : string -> bool
}.

Record Group := {
  File : string;
  Group_Type : string;
  Group_Match : string;
  ScanInterval : Z;
  Group_Labels : gmap string string;
  Port : option Z;
  Group_Flags : Flags;
  Filters : list Filter
}.

(** Modelled from the spec: [Group.FiltersMatch] (internal/config/config.go,
    and its older form [filtersMatch] in config.go) is called by the three
    assemblers and exercised by [TestFiltersMatch], but its body is not among
    the sources.  The spec's words: for every filter look up the named label;
    if absent the filter fails regardless of negate; if present the filter's
    result is [regex.isMatch(value) XOR negate]; filters are evaluated in
    order and evaluation stops at the first failure. *)
Fixpoint FiltersMatch_loop (filters : list Filter) (labels : gmap string string) : bool :=
  match filters with
  | [] => true
  | f :: rest =>
      match labels !! Filter_Label f with
      | None => false
      | Some value =>
          if xorb (regex f value) (Negate f) then FiltersMatch_loop rest labels else false
      end
  end.

(** ** Package netbox: custom fields (custom_field.go) *)

Definition CustomFieldText : string := "text".
Definition CustomFieldNumber : string := "integer".
Definition CustomFieldBool : string := "boolean".

Definition ErrCFCantConvertValue : error :=
  "custom field value cannot be converted to destination type".

(** The dynamic values an [interface{}] holds after [json.Unmarshal]. *)
Inductive any :=
| AnyString (s : string)
| AnyFloat64 (f : spec_float)
| AnyBool (b : bool)
| AnyNil.

Record CustomField := { Datatype : string; Value : any }.

(** [AsString], [AsFloat], [AsBool]: an error when the declared data type is
    another one; otherwise the single-value type assertion [cf.Value.(T)],
    which panics when the dynamic type of the value is not [T]. *)
Definition AsString (cf : CustomField) : outcome (string * option error) :=
  if negb (String.eqb (Datatype cf) CustomFieldText) then Done (EmptyString, Some ErrCFCantConvertValue)
  else match Value cf with
       | AnyString s => Done (s, None)
       | _ => Panicked "interface conversion: interface {} is not string"
       end.

Definition AsFloat (cf : CustomField) : outcome (spec_float * option error) :=
  if negb (String.eqb (Datatype cf) CustomFieldNumber) then Done (S754_zero false, Some ErrCFCantConvertValue)
  else match Value cf with
       | AnyFloat64 f => Done (f, None)
       | _ => Panicked "interface conversion: interface {} is not float64"
       end.

Definition AsBool (cf : CustomField) : outcome (bool * option error) :=
  if negb (String.eqb (Datatype cf) CustomFieldBool) then Done (false, Some ErrCFCantConvertValue)
  else match Value cf with
       | AnyBool b => Done (b, None)
       | _ => Panicked "interface conversion: interface {} is not bool"
       end.

(** ** Formatting ([fmt.Sprintf]) and numeric conversion *)

(** [%d] *)
Definition fmt_d (z : Z) : string := NilZero.string_of_int (Z.to_int z).

(** [%t] *)
Definition fmt_t (b : bool) : string := if b then "true" else "false".

(** [int64(f)] for a [float64]: truncation towards zero.  Go leaves the
    result open when the value does not fit; the amd64 result (the least
    [int64]) is taken then. *)
Definition int64_of_float64 (f : spec_float) : Z :=
  let minInt64 := (- 2 ^ 63)%Z in
  match f with
  | S754_zero _ => 0%Z
  | S754_finite sign m e =>
      let mag := if (0 <=? e)%Z then (Z.pos m * 2 ^ e)%Z else Z.shiftr (Z.pos m) (- e) in
      let v := if sign then (- mag)%Z else mag in
      if ((minInt64 <=? v) && (v <? 2 ^ 63))%Z then v else minInt64
  | _ => minInt64
  end.

(** ** Package netbox: Device, Interface, Service *)

(** [Rack], [Site], [Role], [Tenant] and [Platform] are [Name] structs in
    the source; the fields below hold their [Name]. *)
Record Device := {
  Device_ID : N;
  Device_IDString : string;
  Device_Name : string;
  PrimaryIP4 : option IP;
  PrimaryIP6 : option IP;
  Device_CustomFields : gmap string CustomField;
  Rack : string;
  Site : string;
  Role : string;
  Tenant : string;
  Platform : string;
  SerialNumber : string;
  AssetTag : string;
  Device_Status : string;
  Device_Tags : list string;
  isVirtual : bool
}.

Definition IsVirtual (d : Device) : bool := isVirtual d.

Record Interface := {
  Interface_ID : N;
  Interface_IDString : string;
  Interface_Name : string;
  Enabled : bool;
  Interface_CustomFields : gmap string CustomField;
  Interface_Device : option Device;
  Interface_Tags : list string
}.

Record Service := {
  Service_ID : N;
  Service_IDString : string;
  Service_Name : string;
  Service_Device : option Device;
  VM : option Device;
  Ports : list Z;
  IPAddresses : list (option IP);
  Protocol : string;
  Service_CustomFields : gmap string CustomField
}.

(** The part of [ClientIface] the assemblers call.  A call returns its
    value or an error. *)
Record ClientIface := {
  GetDevicesByTag : string -> list Device + error;
  GetVMsByTag : string -> list Device + error;
  GetInterfacesByTag : string -> list Interface + error;
  GetVirtualInterfacesByTag : string -> list Interface + error;
  GetInterfaceIPs : N -> list (option IP) + error;
  GetVirtualInterfaceIPs : N -> list (option IP) + error;
  GetServicesByName : string -> list Service + error
}.

(** ** Prometheus types and metrics (metrics.go) *)

(** [targetgroup.Group] *)
Record TargetGroup := {
  Targets : list (gmap string string);
  Labels : gmap string string;
  Source : string
}.

Definition AddressLabel : string := "__address__".

Inductive TargetState :=
| TargetActive
| TargetSkippedOther
| TargetSkippedBadStatus
| TargetSkippedBadCustomField
| TargetSkippedNoValidIP
| TargetSkippedNotMatchingFilters.

Definition TargetState_value (s : TargetState) : Z :=
  match s with
  | TargetActive => 1
  | TargetSkippedOther => 0
  | TargetSkippedBadStatus => -1
  | TargetSkippedBadCustomField => -2
  | TargetSkippedNoValidIP => -3
  | TargetSkippedNotMatchingFilters => -4
  end.

(** One [Set] on the gauge vector [promTargetState]: its eight label values
    and the state. *)
Record TargetStateSample := {
  ts_group : string;
  ts_netbox_name : string;
  ts_netbox_rack : string;
  ts_netbox_site : string;
  ts_netbox_tenant : string;
  ts_netbox_role : string;
  ts_netbox_serial_number : string;
  ts_netbox_asset_tag : string;
  ts_state : TargetState
}.

(** The process-wide metrics.  [promTargetState] is kept as the sequence of
    its [Set] calls, oldest first; the per-group vectors are maps from the
    group's file name. *)
Record Metrics := {
  promTargetState : list TargetStateSample;
  promIPSkipped : gmap (string * string) Z;
  promUpdateError : gmap string nat;
  promTargetCount : gmap string Z;
  promUpdateDuration : gmap string Z;
  promUpdateTime : gmap string Z
}.

Definition SetTargetStatusMetric (group : string) (dev : Device) (state : TargetState)
    (m : Metrics) : Metrics :=
  {| promTargetState := promTargetState m ++
       [{| ts_group := group;
           ts_netbox_name := Device_Name dev;
           ts_netbox_rack := Rack dev;
           ts_netbox_site := Site dev;
           ts_netbox_tenant := Tenant dev;
           ts_netbox_role := Role dev;
           ts_netbox_serial_number := SerialNumber dev;
           ts_netbox_asset_tag := AssetTag dev;
           ts_state := state |}];
     promIPSkipped := promIPSkipped m;
     promUpdateError := promUpdateError m;
     promTargetCount := promTargetCount m;
     promUpdateDuration := promUpdateDuration m;
     promUpdateTime := promUpdateTime m |}.

Definition SetIPSkipped (group name : string) (v : Z) (m : Metrics) : Metrics :=
  {| promTargetState := promTargetState m;
     promIPSkipped := <[(group, name) := v]> (promIPSkipped m);
     promUpdateError := promUpdateError m;
     promTargetCount := promTargetCount m;
     promUpdateDuration := promUpdateDuration m;
     promUpdateTime := promUpdateTime m |}.

(** A loop over a slice whose body may panic. *)
Fixpoint foldM {A S : Type} (f : S -> A -> outcome S) (l : list A) (s : S) : outcome S :=
  match l with
  | [] => Done s
  | x :: rest => s' ← f s x; foldM f rest s'
  end.

(** ** util.go: generateCustomFieldLabels *)

(** The callback handed to [GetAllEntries]; its state is the pair of the
    captured variables [allLabels] and [gotError]. *)
Definition cfCallback (st : gmap string string * option error) (entry : string * CustomField)
    : outcome (gmap string string * option error) :=
  let '(allLabels, gotError) := st in
  let '(key, val) := entry in
  if String.eqb (Datatype val) CustomFieldText then
    '(tmpStr, err) ← AsString val;
    let gotError := match err with Some e => Some e | None => gotError end in
    let label : gmap string string := {[ "netbox_" +:+ key := tmpStr ]} in
    Done (Merge allLabels label, gotError)
  else if String.eqb (Datatype val) CustomFieldNumber then
    '(tmpNum, err) ← AsFloat val;
    let gotError := match err with Some e => Some e | None => gotError end in
    let label : gmap string string := {[ "netbox_" +:+ key := fmt_d (int64_of_float64 tmpNum) ]} in
    Done (Merge allLabels label, gotError)
  else if String.eqb (Datatype val) CustomFieldBool then
    '(tmpBool, err) ← AsBool val;
    let gotError := match err with Some e => Some e | None => gotError end in
    let label : gmap string string := {[ "netbox_" +:+ key := fmt_t tmpBool ]} in
    Done (Merge allLabels label, gotError)
  else
    Done (Merge allLabels ∅, gotError).

(** [GetAllEntries] ranges over the entries of the map; the order Go picks
    is not fixed, the one of [map_to_list] stands for it. *)
Definition generateCustomFieldLabels (cfm : gmap string CustomField)
    : outcome (gmap string string * option error) :=
  foldM cfCallback (map_to_list cfm) (∅, None).

(** Specification side: the text an entry converts to, if its value is of
    the type it is declared with (text as it is, a number cut to its
    integer part, a boolean as true or false). *)
Definition spec_cfLabel (cf : CustomField) : option string :=
  if String.eqb (Datatype cf) CustomFieldText then
    match Value cf with AnyString s => Some s | _ => None end
  else if String.eqb (Datatype cf) CustomFieldNumber then
    match Value cf with AnyFloat64 f => Some (fmt_d (int64_of_float64 f)) | _ => None end
  else if String.eqb (Datatype cf) CustomFieldBool then
    match Value cf with AnyBool b => Some (fmt_t b) | _ => None end
  else None.

(** Modelled from the spec: [FiltersMatch] is the filter evaluation of a
    group against the label set of a target (the body of the method is not
    among the sources, see [FiltersMatch_loop]). *)
Definition FiltersMatch (group : Group) (target : TargetGroup) : bool :=
  FiltersMatch_loop (Filters group) (Labels target).

(** The variables the loop of an assembler carries from one candidate to
    the next: [data], [dynLabels] (declared outside the loop and never
    reset), and the metrics. *)
Record loopState := {
  data : list TargetGroup;
  dynLabels : gmap string string;
  metrics : Metrics
}.

Definition recordState (group : Group) (dev : Device) (state : TargetState)
    (st : loopState) : loopState :=
  {| data := data st;
     dynLabels := dynLabels st;
     metrics := SetTargetStatusMetric (File group) dev state (metrics st) |}.

Definition withDynLabels (dyn : gmap string string) (st : loopState) : loopState :=
  {| data := data st; dynLabels := dyn; metrics := metrics st |}.

(** The first half of a loop body, up to the assembled label set: either the
    candidate has been skipped, or its node and labels are at hand. *)
Inductive assembled :=
| Skipped (st : loopState)
| Assembled (dev : Device) (labels : gmap string string) (st : loopState).

Definition deref {A : Type} (p : option A) : outcome A :=
  match p with
  | Some a => Done a
  | None => Panicked "invalid memory address or nil pointer dereference"
  end.

Section NetboxSD.

(** [net/netip]: [ParseAddrIs6 s] is [None] when [netip.ParseAddr s] fails
    (where [MustParseAddr] panics), and otherwise tells whether the parsed
    address answers [Is6]. *)
Variable ParseAddrIs6 : string -> option bool.

(** [Family]: 6 or 4, by parsing; [MustParseAddr] panics on a literal that
    does not parse. *)
Definition Family (ip : IP) : outcome Z :=
  match ParseAddrIs6 (ToAddr ip) with
  | None => Panicked "netip.ParseAddr: unable to parse IP"
  | Some true => Done 6%Z
  | Some false => Done 4%Z
  end.

(** ** util.go: selectAddr *)

(** [addrExists]: is there an entry of [haystack] with the literal of
    [needle]? *)
Fixpoint addrExists (needle : IP) (haystack : list IP) : bool :=
  match haystack with
  | [] => false
  | h :: rest => if String.eqb (Address h) (Address needle) then true else addrExists needle rest
  end.

(** How the [for] loop of [selectAddr] is left: by running off the end of
    [addrs], or through the [return] of the [default] case. *)
Inductive loopExit :=
| Completed (firstInet6 firstInet : option IP) (result : list IP)
| Returned (result : list IP).

(** The status test of the loop: [true] when the address is skipped. *)
Definition statusSkipped (addr : IP) : bool :=
  negb (String.eqb (IP_Status addr) StatusIPActive) &&
  negb (String.eqb (IP_Status addr) StatusIPDHCP) &&
  negb (String.eqb (IP_Status addr) StatusIPSLAAC).

(** The loop body and the loop.  The [break] of case 6 leaves the
    [switch], not the [for]: iteration goes on with the next address. *)
Fixpoint selectAddr_loop (group : Group) (addrs : list (option IP))
    (firstInet6 firstInet : option IP) (result : list IP) : outcome loopExit :=
  match addrs with
  | [] => Done (Completed firstInet6 firstInet result)
  | None :: rest => selectAddr_loop group rest firstInet6 firstInet result
  | Some addr :: rest =>
      if statusSkipped addr then selectAddr_loop group rest firstInet6 firstInet result
      else
        fam ← Family addr;
        if (fam =? 6)%Z then
          if String.eqb (InetFamily (Group_Flags group)) InetFamilyInet6 ||
             String.eqb (InetFamily (Group_Flags group)) InetFamilyAny
          then
            let firstInet6 := match firstInet6 with None => Some addr | Some _ => firstInet6 end in
            if AllAddresses (Group_Flags group) then
              let result := if negb (addrExists addr result) then result ++ [addr] else result in
              selectAddr_loop group rest firstInet6 firstInet result
            else
              selectAddr_loop group rest firstInet6 firstInet result
          else selectAddr_loop group rest firstInet6 firstInet result
        else if (fam =? 4)%Z then
          if String.eqb (InetFamily (Group_Flags group)) InetFamilyInet ||
             String.eqb (InetFamily (Group_Flags group)) InetFamilyAny
          then
            let firstInet := match firstInet with None => Some addr | Some _ => firstInet end in
            if AllAddresses (Group_Flags group) then
              let result := if negb (addrExists addr result) then result ++ [addr] else result in
              selectAddr_loop group rest firstInet6 firstInet result
            else
              selectAddr_loop group rest firstInet6 firstInet result
          else selectAddr_loop group rest firstInet6 firstInet result
        else Done (Returned [])
  end.

Definition selectAddr (addrs : list (option IP)) (group : Group) : outcome (list IP) :=
  exit ← selectAddr_loop group addrs None None [];
  match exit with
  | Returned r => Done r
  | Completed firstInet6 firstInet result =>
      if (length result =? 0)%nat then
        match firstInet6, firstInet with
        | Some a, _ => Done (result ++ [a])
        | None, Some a => Done (result ++ [a])
        | None, None => Done result
        end
      else Done result
  end.

(** ** util.go: convertToTargets *)

Definition convertToTargets_body (port : option Z) (targets : list (gmap string string)) (ip : IP)
    : outcome (list (gmap string string)) :=
  match port with
  | Some p =>
      fam ← Family ip;
      if (fam =? 4)%Z then
        Done (targets ++ [ {[ AddressLabel := ToAddr ip +:+ ":" +:+ fmt_d p ]} ])
      else
        Done (targets ++ [ {[ AddressLabel := "[" +:+ ToAddr ip +:+ "]:" +:+ fmt_d p ]} ])
  | None => Done (targets ++ [ {[ AddressLabel := ToAddr ip ]} ])
  end.

Definition convertToTargets (ips : list IP) (port : option Z) : outcome (list (gmap string string)) :=
  foldM (convertToTargets_body port) ips [].

(** ** service.go: getTargetsByService *)

(** Lines 132-144: the port override of the group, then the cut to the
    first port when [AllAddresses] is off. *)
Definition servicePorts (group : Group) (serv : Service) : list Z :=
  let ports := match Port group with Some p => [p] | None => Ports serv end in
  if negb (AllAddresses (Group_Flags group)) && (1 <? length ports)%nat
  then match ports with j :: _ => [j] | [] => ports end
  else ports.

(** Lines 148-161: the two nested loops. *)
Definition serviceEndpoint (ip : IP) (targets : list (gmap string string)) (port : Z)
    : outcome (list (gmap string string)) :=
  fam ← Family ip;
  if (fam =? 4)%Z then
    Done (targets ++ [ {[ AddressLabel := ToAddr ip +:+ ":" +:+ fmt_d port ]} ])
  else
    Done (targets ++ [ {[ AddressLabel := "[" +:+ ToAddr ip +:+ "]:" +:+ fmt_d port ]} ]).

Definition serviceEndpoints (selectedIPs : list IP) (ports : list Z)
    : outcome (list (gmap string string)) :=
  foldM (fun targets ip => foldM (serviceEndpoint ip) ports targets) selectedIPs [].

Definition isVMLabel : gmap string string := {[ "is_vm" := "true" ]}.

(** The body of the loop over [servList], lines 53-116: checks and label
    assembly. *)
Definition getTargetsByService_labels (group : Group) (st : loopState) (serv : Service)
    : outcome assembled :=
  if bool_decide (is_Some (VM serv)) && negb (IncludeVMs (Group_Flags group)) then Done (Skipped st)
  else
    dev ← deref (match VM serv with Some vm => Some vm | None => Service_Device serv end);
    if negb (String.eqb (Device_Status dev) StatusDeviceActive) then
      Done (Skipped (recordState group dev TargetSkippedBadStatus st))
    else
      let labels : gmap string string :=
        list_to_map [("netbox_service", Service_Name serv);
                     ("netbox_name", Device_Name dev);
                     ("netbox_rack", Rack dev);
                     ("netbox_site", Site dev);
                     ("netbox_tenant", Tenant dev);
                     ("netbox_role", Role dev);
                     ("netbox_platform", Platform dev);
                     ("netbox_serial_number", SerialNumber dev);
                     ("netbox_asset_tag", AssetTag dev)] in
      '(cfLabels, err) ← generateCustomFieldLabels (Device_CustomFields dev);
      if bool_decide (is_Some err) then
        Done (Skipped (recordState group dev TargetSkippedBadCustomField st))
      else
        let labels := Merge labels cfLabels in
        '(cfLabels, err) ← generateCustomFieldLabels (Service_CustomFields serv);
        if bool_decide (is_Some err) then
          Done (Skipped (recordState group dev TargetSkippedBadCustomField st))
        else
          let labels := Merge labels cfLabels in
          let st := if IsVirtual dev then withDynLabels isVMLabel st else st in
          let labels := Merge labels (dynLabels st) in
          let labels := Merge labels (Group_Labels group) in
          Done (Assembled dev labels st).

(** Lines 118-164: filters, address selection, ports, endpoints. *)
Definition getTargetsByService_body (group : Group) (st : loopState) (serv : Service)
    : outcome loopState :=
  r ← getTargetsByService_labels group st serv;
  match r with
  | Skipped st => Done st
  | Assembled dev labels st =>
      let target := {| Targets := []; Labels := labels; Source := "netbox_sd" |} in
      if negb (FiltersMatch group target) then
        Done (recordState group dev TargetSkippedNotMatchingFilters st)
      else
        selectedIPs ← selectAddr (IPAddresses serv) group;
        if (length selectedIPs =? 0)%nat then
          Done (recordState group dev TargetSkippedNoValidIP st)
        else
          let st := recordState group dev TargetActive st in
          targets ← serviceEndpoints selectedIPs (servicePorts group serv);
          Done {| data := data st ++ [ {| Targets := targets; Labels := labels; Source := "netbox_sd" |} ];
                  dynLabels := dynLabels st;
                  metrics := metrics st |}
  end.

Definition getTargetsByService (api : ClientIface) (group : Group) (m : Metrics)
    : outcome ((list TargetGroup + error) * Metrics) :=
  match GetServicesByName api (Group_Match group) with
  | inr err => Done (inr err, m)
  | inl servList =>
      st ← foldM (getTargetsByService_body group) servList
             {| data := []; dynLabels := ∅; metrics := m |};
      Done (inl (data st), metrics st)
  end.

(** ** interface.go: getTargetsByInterfaceTag *)

(** Lines 64-115: checks and label assembly. *)
Definition getTargetsByInterfaceTag_labels (group : Group) (st : loopState) (iface : Interface)
    : outcome assembled :=
  dev ← deref (Interface_Device iface);
  if negb (String.eqb (Device_Status dev) StatusDeviceActive) || negb (Enabled iface) then
    Done (Skipped (recordState group dev TargetSkippedBadStatus st))
  else
    let labels : gmap string string :=
      list_to_map [("netbox_name", Device_Name dev);
                   ("netbox_rack", Rack dev);
                   ("netbox_site", Site dev);
                   ("netbox_tenant", Tenant dev);
                   ("netbox_role", Role dev);
                   ("netbox_platform", Platform dev);
                   ("netbox_serial_number", SerialNumber dev);
                   ("netbox_asset_tag", AssetTag dev)] in
    '(cfLabels, err) ← generateCustomFieldLabels (Device_CustomFields dev);
    if bool_decide (is_Some err) then
      Done (Skipped (recordState group dev TargetSkippedBadCustomField st))
    else
      let labels := Merge labels cfLabels in
      '(cfLabels, err) ← generateCustomFieldLabels (Interface_CustomFields iface);
      if bool_decide (is_Some err) then
        Done (Skipped (recordState group dev TargetSkippedBadCustomField st))
      else
        let labels := Merge labels cfLabels in
        let st := if IsVirtual dev then withDynLabels isVMLabel st else st in
        let labels := Merge labels (dynLabels st) in
        let labels := Merge labels (Group_Labels group) in
        Done (Assembled dev labels st).

(** Lines 117-155: filters, the address query, address selection, targets. *)
Definition getTargetsByInterfaceTag_body (api : ClientIface) (group : Group) (st : loopState)
    (iface : Interface) : outcome loopState :=
  r ← getTargetsByInterfaceTag_labels group st iface;
  match r with
  | Skipped st => Done st
  | Assembled dev labels st =>
      let target := {| Targets := []; Labels := labels; Source := "netbox_sd" |} in
      if negb (FiltersMatch group target) then
        Done st
      else
        match (if IsVirtual dev then GetVirtualInterfaceIPs api (Interface_ID iface)
               else GetInterfaceIPs api (Interface_ID iface)) with
        | inr _ => Done (recordState group dev TargetSkippedNoValidIP st)
        | inl addrs =>
            selectedIPs ← selectAddr addrs group;
            if (length selectedIPs =? 0)%nat then
              Done (recordState group dev TargetSkippedNoValidIP st)
            else
              targets ← convertToTargets selectedIPs (Port group);
              let st := recordState group dev TargetActive st in
              Done {| data := data st ++ [ {| Targets := targets; Labels := labels; Source := "netbox_sd" |} ];
                      dynLabels := dynLabels st;
                      metrics := SetIPSkipped (File group) (Device_Name dev)
                                   (Z.of_nat (length addrs) - Z.of_nat (length selectedIPs))
                                   (metrics st) |}
        end
  end.

Definition getTargetsByInterfaceTag (api : ClientIface) (group : Group) (m : Metrics)
    : outcome ((list TargetGroup + error) * Metrics) :=
  match GetInterfacesByTag api (Group_Match group) with
  | inr err => Done (inr err, m)
  | inl ifList =>
      match (if IncludeVMs (Group_Flags group)
             then match GetVirtualInterfacesByTag api (Group_Match group) with
                  | inr err => inr err
                  | inl vmList => inl (ifList ++ vmList)
                  end
             else inl ifList) with
      | inr err => Done (inr err, m)
      | inl ifList =>
          st ← foldM (getTargetsByInterfaceTag_body api group) ifList
                 {| data := []; dynLabels := ∅; metrics := m |};
          Done (inl (data st), metrics st)
      end
  end.

(** ** device.go: getTargetsByDeviceTag *)

(** Lines 245-288: checks and label assembly. *)
Definition getTargetsByDeviceTag_labels (group : Group) (st : loopState) (dev : Device)
    : outcome assembled :=
  if negb (String.eqb (Device_Status dev) StatusDeviceActive) then
    Done (Skipped (recordState group dev TargetSkippedBadStatus st))
  else
    let labels : gmap string string :=
      list_to_map [("netbox_name", Device_Name dev);
                   ("netbox_rack", Rack dev);
                   ("netbox_site", Site dev);
                   ("netbox_tenant", Tenant dev);
                   ("netbox_role", Role dev);
                   ("netbox_platform", Platform dev);
                   ("netbox_serial_number", SerialNumber dev);
                   ("netbox_asset_tag", AssetTag dev)] in
    '(cfLabels, err) ← generateCustomFieldLabels (Device_CustomFields dev);
    if bool_decide (is_Some err) then
      Done (Skipped (recordState group dev TargetSkippedBadCustomField st))
    else
      let labels := Merge labels cfLabels in
      let st := if IsVirtual dev then withDynLabels isVMLabel st else st in
      let labels := Merge labels (dynLabels st) in
      let labels := Merge labels (Group_Labels group) in
      Done (Assembled dev labels st).

(** Lines 290-317: filters, address selection, targets. *)
Definition getTargetsByDeviceTag_body (group : Group) (st : loopState) (dev : Device)
    : outcome loopState :=
  r ← getTargetsByDeviceTag_labels group st dev;
  match r with
  | Skipped st => Done st
  | Assembled dev labels st =>
      let target := {| Targets := []; Labels := labels; Source := "netbox_sd" |} in
      if negb (FiltersMatch group target) then
        Done (recordState group dev TargetSkippedNotMatchingFilters st)
      else
        selectedIPs ← selectAddr [PrimaryIP6 dev; PrimaryIP4 dev] group;
        if (length selectedIPs =? 0)%nat then
          Done (recordState group dev TargetSkippedNoValidIP st)
        else
          targets ← convertToTargets selectedIPs (Port group);
          let st := recordState group dev TargetActive st in
          Done {| data := data st ++ [ {| Targets := targets; Labels := labels; Source := "netbox_sd" |} ];
                  dynLabels := dynLabels st;
                  metrics := SetIPSkipped (File group) (Device_Name dev)
                               (2 - Z.of_nat (length selectedIPs)) (metrics st) |}
  end.

Definition getTargetsByDeviceTag (api : ClientIface) (group : Group) (m : Metrics)
    : outcome ((list TargetGroup + error) * Metrics) :=
  match GetDevicesByTag api (Group_Match group) with
  | inr err => Done (inr err, m)
  | inl devList =>
      match (if IncludeVMs (Group_Flags group)
             then match GetVMsByTag api (Group_Match group) with
                  | inr err => inr err
                  | inl vmList => inl (devList ++ vmList)
                  end
             else inl devList) with
      | inr err => Done (inr err, m)
      | inl devList =>
          st ← foldM (getTargetsByDeviceTag_body group) devList
                 {| data := []; dynLabels := ∅; metrics := m |};
          Done (inl (data st), metrics st)
      end
  end.

(** ** main.go: worker *)

(** The file system and the two library calls of the commit path:
    [os.WriteFile] (the new file system and the error, if any) and
    [yaml.Marshal]. *)
Variable FS : Type.
Variable os_WriteFile : FS -> string -> string -> FS * option error.
Variable yaml_Marshal : list TargetGroup -> string + error.

(** The variables of [worker] that live across iterations. *)
Record workerVars := {
  lastRun : Z;
  runStart : Z;
  failed : bool;
  err : option error;
  targets : list TargetGroup;
  w_data : string
}.

(** What a worker can touch outside its own variables. *)
Record World := {
  fs : FS;
  world_metrics : Metrics
}.

(** The clock readings of one iteration, in nanoseconds, in the order the
    loop body takes them: for [time.Since(lastRun)], for [runStart], for the
    new [lastRun], for [time.Since(runStart)], and for the time stamp. *)
Record Ticks := {
  now_check : Z;
  now_start : Z;
  now_done : Z;
  now_duration : Z;
  now_stamp : Z
}.

Definition scanDue (group : Group) (v : workerVars) (tk : Ticks) : bool :=
  (ScanInterval group <=? now_check tk - lastRun v)%Z.

(** The [switch] on the group type: [None] when no case matches, and then
    [targets] and [err] keep their values. *)
Definition assemble (api : ClientIface) (group : Group) (m : Metrics)
    : outcome (option (list TargetGroup + error) * Metrics) :=
  if String.eqb (Group_Type group) GroupTypeService then
    '(r, m) ← getTargetsByService api group m; Done (Some r, m)
  else if String.eqb (Group_Type group) GroupTypeDeviceTag then
    '(r, m) ← getTargetsByDeviceTag api group m; Done (Some r, m)
  else if String.eqb (Group_Type group) GroupTypeInterfaceTag then
    '(r, m) ← getTargetsByInterfaceTag api group m; Done (Some r, m)
  else Done (None, m).

Definition incUpdateError (group : string) (m : Metrics) : Metrics :=
  {| promTargetState := promTargetState m;
     promIPSkipped := promIPSkipped m;
     promUpdateError := <[group := S (default 0%nat (promUpdateError m !! group))]> (promUpdateError m);
     promTargetCount := promTargetCount m;
     promUpdateDuration := promUpdateDuration m;
     promUpdateTime := promUpdateTime m |}.

Definition setTargetCount (group : string) (n : Z) (m : Metrics) : Metrics :=
  {| promTargetState := promTargetState m;
     promIPSkipped := promIPSkipped m;
     promUpdateError := promUpdateError m;
     promTargetCount := <[group := n]> (promTargetCount m);
     promUpdateDuration := promUpdateDuration m;
     promUpdateTime := promUpdateTime m |}.

Definition setUpdateDurationAndTime (group : string) (dur stamp : Z) (m : Metrics) : Metrics :=
  {| promTargetState := promTargetState m;
     promIPSkipped := promIPSkipped m;
     promUpdateError := promUpdateError m;
     promTargetCount := promTargetCount m;
     promUpdateDuration := <[group := dur]> (promUpdateDuration m);
     promUpdateTime := <[group := stamp]> (promUpdateTime m) |}.

(** One scan: the body of [if time.Since(lastRun) >= group.ScanInterval]. *)
Definition workerCycle (api : ClientIface) (group : Group) (tk : Ticks)
    (v : workerVars) (w : World) : outcome (workerVars * World) :=
  let runStart := now_start tk in
  '(r, m) ← assemble api group (world_metrics w);
  let '(targets, err, failed) :=
    match r with
    | Some (inl t) => (t, None, false)
    | Some (inr e) => ([], Some e, true)
    | None => (targets v, err v, false)
    end in
  '(data, err, failed, fs, m) ←
    (if negb failed then
       match yaml_Marshal targets with
       | inr e => Panicked ("parsing targets to yaml failed: " +:+ e)
       | inl data =>
           let '(fs, werr) := os_WriteFile (fs w) (File group) data in
           match werr with
           | Some e => Done (data, Some e, true, fs, m)
           | None => Done (data, None, failed, fs,
                           setTargetCount (File group) (Z.of_nat (length targets)) m)
           end
       end
     else Done (w_data v, err, failed, fs w, incUpdateError (File group) m));
  let lastRun := now_done tk in
  let m := setUpdateDurationAndTime (File group) (now_duration tk - runStart)
             (now_stamp tk / 1000000000) m in
  Done ({| lastRun := lastRun; runStart := runStart; failed := failed; err := err;
           targets := targets; w_data := data |},
        {| fs := fs; world_metrics := m |}).

(** One iteration of the [for] loop (the sleep apart). *)
Definition workerIteration (api : ClientIface) (group : Group) (tk : Ticks)
    (v : workerVars) (w : World) : outcome (workerVars * World) :=
  if scanDue group v tk then workerCycle api group tk v w else Done (v, w).

(** ** Specification-side definitions for [selectAddr]

    These follow the words of the specification; the theorems below relate
    them to the code. *)

Definition nonNull (addrs : list (option IP)) : list IP := omap id addrs.

(** Does the policy of the group admit IPv6 ([six = true]) or IPv4? *)
Definition familyWanted (group : Group) (six : bool) : bool :=
  if six
  then String.eqb (InetFamily (Group_Flags group)) InetFamilyInet6 ||
       String.eqb (InetFamily (Group_Flags group)) InetFamilyAny
  else String.eqb (InetFamily (Group_Flags group)) InetFamilyInet ||
       String.eqb (InetFamily (Group_Flags group)) InetFamilyAny.

(** A candidate of family 6 ([six = true]) or 4: an address that passes the
    status check, whose literal parses to that family, and whose family the
    policy admits. *)
Definition isCandidate (group : Group) (six : bool) (a : IP) : bool :=
  negb (statusSkipped a) &&
  match ParseAddrIs6 (ToAddr a) with
  | Some b => Bool.eqb b six && familyWanted group six
  | None => false
  end.

Definition isSelectable (group : Group) (a : IP) : bool :=
  isCandidate group true a || isCandidate group false a.

(** Every non-null entry that passes the status check has a literal that
    parses. *)
Definition literalParses (a : IP) : bool :=
  statusSkipped a || bool_decide (is_Some (ParseAddrIs6 (ToAddr a))).

Definition literalsParse (addrs : list (option IP)) : bool :=
  forallb literalParses (nonNull addrs).

Definition orElse (x y : option IP) : option IP :=
  match x with Some _ => x | None => y end.

(** The one-address rule: the first IPv6 candidate, else the first IPv4
    candidate, else nothing. *)
Definition spec_firstChoice (group : Group) (addrs : list (option IP)) : list IP :=
  match List.find (isCandidate group true) (nonNull addrs) with
  | Some a => [a]
  | None =>
      match List.find (isCandidate group false) (nonNull addrs) with
      | Some a => [a]
      | None => []
      end
  end.

(** The all-addresses rule: every candidate, in input order, an address
    literal already kept being dropped. *)
Definition addNew (kept : list IP) (a : IP) : list IP :=
  if addrExists a kept then kept else kept ++ [a].

Definition spec_allChoices (group : Group) (addrs : list (option IP)) : list IP :=
  fold_left addNew (List.filter (isSelectable group) (nonNull addrs)) [].

Definition spec_selectAddr (group : Group) (addrs : list (option IP)) : list IP :=
  if AllAddresses (Group_Flags group) then spec_allChoices group addrs
  else spec_firstChoice group addrs.

Definition statusAccepted (a : IP) : Prop :=
  IP_Status a = "active" \/ IP_Status a = "dhcp" \/ IP_Status a = "slaac".

(** ** Specification-side definitions for the service endpoints *)

(** The endpoint string of an address and a port: [host:port], or
    [[v6]:port] for an address that is not of family 4. *)
Definition spec_endpoint (ip : IP) (port : Z) : string :=
  match ParseAddrIs6 (ToAddr ip) with
  | Some false => ToAddr ip +:+ ":" +:+ fmt_d port
  | _ => "[" +:+ ToAddr ip +:+ "]:" +:+ fmt_d port
  end.


End NetboxSD.

Arguments fs {FS} _.
Arguments world_metrics {FS} _.

(** ** config.go: validateFilters, validateGroup, readConfigFile *)

(** The sentinel errors of config.go, and an error built by [fmt.Errorf]
    with [%w] around another one; [errorIs] is [errors.Is]. *)
Inductive cfgSentinel :=
| ErrorBadFilterLabel
| ErrorBadFilterMatch
| ErrorBadGroupType
| ErrorBadInetFamily
| ErrorBadPort
| ErrorBadScanInterval
| ErrorBaseURLMissingTLS
| ErrorDuplicateFile
| ErrorMissingFile
| ErrorMissingRequired
| ErrorParsingFile
| ErrorReadingFile.

Inductive cfgError :=
| Sentinel (s : cfgSentinel)
| Wrapped (text : string) (inner : cfgError).

Definition cfgSentinel_eqb (a b : cfgSentinel) : bool :=
  match a, b with
  | ErrorBadFilterLabel, ErrorBadFilterLabel
  | ErrorBadFilterMatch, ErrorBadFilterMatch
  | ErrorBadGroupType, ErrorBadGroupType
  | ErrorBadInetFamily, ErrorBadInetFamily
  | ErrorBadPort, ErrorBadPort
  | ErrorBadScanInterval, ErrorBadScanInterval
  | ErrorBaseURLMissingTLS, ErrorBaseURLMissingTLS
  | ErrorDuplicateFile, ErrorDuplicateFile
  | ErrorMissingFile, ErrorMissingFile
  | ErrorMissingRequired, ErrorMissingRequired
  | ErrorParsingFile, ErrorParsingFile
  | ErrorReadingFile, ErrorReadingFile => true
  | _, _ => false
  end.

Fixpoint errorIs (e : cfgError) (target : cfgSentinel) : bool :=
  match e with
  | Sentinel s => cfgSentinel_eqb s target
  | Wrapped _ inner => errorIs inner target
  end.

Definition cfgSentinel_text (s : cfgSentinel) : string :=
  match s with
  | ErrorBadFilterLabel => "bad label for filter provided (must start with 'netbox_')"
  | ErrorBadFilterMatch => "bad filter match provided"
  | ErrorBadGroupType => "bad group type value"
  | ErrorBadInetFamily => "bad inet_family value provided"
  | ErrorBadPort => "bad port value"
  | ErrorBadScanInterval => "failed to parse scan_interval"
  | ErrorBaseURLMissingTLS => "netbox_base_url must start with https and support tls"
  | ErrorDuplicateFile => "duplicate file name in configuration"
  | ErrorMissingFile => "missing config file path"
  | ErrorMissingRequired => "missing one or more required config values"
  | ErrorParsingFile => "failed to parse config file"
  | ErrorReadingFile => "failed to read config file"
  end.

(** [err.Error()] *)
Definition cfgError_text (e : cfgError) : string :=
  match e with
  | Sentinel s => cfgSentinel_text s
  | Wrapped text _ => text
  end.

(** The structs as [yaml.Unmarshal] fills them: the flags and the port are
    pointers, [nil] when the key is absent; [regex] is [nil] until
    [validateFilters] has compiled [Match]. *)
Record FlagsConfig := {
  cfg_IncludeVMs : option bool;
  cfg_InetFamily : option string;
  cfg_AllAddresses : option bool
}.

Record FilterConfig := {
  cfg_Label : string;
  cfg_FilterMatch : string;
  cfg_Negate : bool;
  cfg_regex : option (string -> bool)
}.

Record GroupConfig := {
  cfg_File : string;
  cfg_Type : string;
  cfg_Match : string;
  cfg_GroupScanIntervalString : string;
  cfg_GroupScanInterval : Z;
  cfg_Labels : gmap string string;
  cfg_Port : option Z;
  cfg_Flags : FlagsConfig;
  cfg_Filters : list FilterConfig
}.

Record Config := {
  BaseURL : string;
  Token : string;
  AllowInsecure : bool;
  ScanIntervalString : string;
  Config_ScanInterval : Z;
  Groups : list GroupConfig
}.

Definition isEmpty (s : string) : bool := String.eqb s EmptyString.

Section Configuration.

(** [time.ParseDuration] ([None]: an error), [regexp.Compile] (the compiled
    expression by its [MatchString], or the text of the error),
    [os.ReadFile] and [yaml.Unmarshal] into a [Config]. *)
Variable time_ParseDuration : string -> option Z.
Variable regexp_Compile : string -> (string -> bool) + string.
Variable os_ReadFile : string -> string + string.
Variable yaml_Unmarshal : string -> Config + string.

(** [validateFilters]: the filters as the loop leaves them, and the error.
    A filter that fails to compile is left with a [nil] expression; the
    filters after the first bad one are not touched. *)
Fixpoint validateFilters (filters : list FilterConfig) : list FilterConfig * option cfgError :=
  match filters with
  | [] => ([], None)
  | filter :: rest =>
      if negb (String.prefix "netbox_" (cfg_Label filter)) then
        (filter :: rest, Some (Sentinel ErrorBadFilterLabel))
      else
        match regexp_Compile (cfg_FilterMatch filter) with
        | inr msg =>
            ({| cfg_Label := cfg_Label filter; cfg_FilterMatch := cfg_FilterMatch filter;
                cfg_Negate := cfg_Negate filter; cfg_regex := None |} :: rest,
             Some (Wrapped (cfgSentinel_text ErrorBadFilterMatch +:+ ": " +:+ msg)
                           (Sentinel ErrorBadFilterMatch)))
        | inl re =>
            let '(rest', err) := validateFilters rest in
            ({| cfg_Label := cfg_Label filter; cfg_FilterMatch := cfg_FilterMatch filter;
                cfg_Negate := cfg_Negate filter; cfg_regex := Some re |} :: rest', err)
        end
  end.

Definition withScanInterval (group : GroupConfig) (d : Z) : GroupConfig :=
  {| cfg_File := cfg_File group; cfg_Type := cfg_Type group; cfg_Match := cfg_Match group;
     cfg_GroupScanIntervalString := cfg_GroupScanIntervalString group;
     cfg_GroupScanInterval := d;
     cfg_Labels := cfg_Labels group; cfg_Port := cfg_Port group;
     cfg_Flags := cfg_Flags group; cfg_Filters := cfg_Filters group |}.

Definition withFlags (group : GroupConfig) (flags : FlagsConfig) : GroupConfig :=
  {| cfg_File := cfg_File group; cfg_Type := cfg_Type group; cfg_Match := cfg_Match group;
     cfg_GroupScanIntervalString := cfg_GroupScanIntervalString group;
     cfg_GroupScanInterval := cfg_GroupScanInterval group;
     cfg_Labels := cfg_Labels group; cfg_Port := cfg_Port group;
     cfg_Flags := flags; cfg_Filters := cfg_Filters group |}.

Definition withFilters (group : GroupConfig) (filters : list FilterConfig) : GroupConfig :=
  {| cfg_File := cfg_File group; cfg_Type := cfg_Type group; cfg_Match := cfg_Match group;
     cfg_GroupScanIntervalString := cfg_GroupScanIntervalString group;
     cfg_GroupScanInterval := cfg_GroupScanInterval group;
     cfg_Labels := cfg_Labels group; cfg_Port := cfg_Port group;
     cfg_Flags := cfg_Flags group; cfg_Filters := filters |}.

(** [validateGroup]: the group as the checks leave it (it is changed in
    place), and the error.  [defaultInterval] is [config.ScanInterval]. *)
Definition validateGroup (group : GroupConfig) (defaultInterval : Z)
    : GroupConfig * option cfgError :=
  if isEmpty (cfg_File group) || isEmpty (cfg_Type group) || isEmpty (cfg_Match group) then
    (group, Some (Sentinel ErrorMissingRequired))
  else if negb (String.eqb (cfg_Type group) GroupTypeService) &&
          negb (String.eqb (cfg_Type group) GroupTypeDeviceTag) &&
          negb (String.eqb (cfg_Type group) GroupTypeInterfaceTag) then
    (group, Some (Sentinel ErrorBadGroupType))
  else
    let parsed :=
      if negb (isEmpty (cfg_GroupScanIntervalString group)) then
        match time_ParseDuration (cfg_GroupScanIntervalString group) with
        | Some d => inl (withScanInterval group d)
        | None => inr (withScanInterval group 0)
        end
      else inl (withScanInterval group defaultInterval) in
    match parsed with
    | inr group => (group, Some (Sentinel ErrorBadScanInterval))
    | inl group =>
        if match cfg_Port group with
           | Some port => (port <? 0)%Z || (65535 <? port)%Z
           | None => false
           end
        then (group, Some (Sentinel ErrorBadPort))
        else
          let flags := cfg_Flags group in
          let flags :=
            match cfg_IncludeVMs flags with
            | None => {| cfg_IncludeVMs := Some true; cfg_InetFamily := cfg_InetFamily flags;
                         cfg_AllAddresses := cfg_AllAddresses flags |}
            | Some _ => flags
            end in
          match cfg_InetFamily flags with
          | Some family =>
              if negb (String.eqb family InetFamilyAny) &&
                 negb (String.eqb family InetFamilyInet) &&
                 negb (String.eqb family InetFamilyInet6)
              then (withFlags group flags, Some (Sentinel ErrorBadInetFamily))
              else
                let flags :=
                  match cfg_AllAddresses flags with
                  | None => {| cfg_IncludeVMs := cfg_IncludeVMs flags;
                               cfg_InetFamily := cfg_InetFamily flags;
                               cfg_AllAddresses := Some false |}
                  | Some _ => flags
                  end in
                let '(filters, err) := validateFilters (cfg_Filters group) in
                (withFilters (withFlags group flags) filters, err)
          | None =>
              let flags := {| cfg_IncludeVMs := cfg_IncludeVMs flags;
                              cfg_InetFamily := Some InetFamilyAny;
                              cfg_AllAddresses := cfg_AllAddresses flags |} in
              let flags :=
                match cfg_AllAddresses flags with
                | None => {| cfg_IncludeVMs := cfg_IncludeVMs flags;
                             cfg_InetFamily := cfg_InetFamily flags;
                             cfg_AllAddresses := Some false |}
                | Some _ => flags
                end in
              let '(filters, err) := validateFilters (cfg_Filters group) in
              (withFilters (withFlags group flags) filters, err)
          end
    end.

(** The loop of [readConfigFile] over the groups: [knownFiles] holds the
    file names seen, [i] is the index of the next group.  The validated
    groups, or the error. *)
Fixpoint validateGroups (groups : list GroupConfig) (defaultInterval : Z)
    (knownFiles : gmap string Z) (i : nat) : list GroupConfig + cfgError :=
  match groups with
  | [] => inl []
  | group :: rest =>
      match knownFiles !! cfg_File group with
      | Some _ => inr (Sentinel ErrorDuplicateFile)
      | None =>
          let knownFiles := <[cfg_File group := 1%Z]> knownFiles in
          match validateGroup group defaultInterval with
          | (_, Some err) =>
              inr (Wrapped ("failed to validate group config with index " +:+
                            fmt_d (Z.of_nat i) +:+ ": " +:+ cfgError_text err) err)
          | (group, None) =>
              match validateGroups rest defaultInterval knownFiles (S i) with
              | inr err => inr err
              | inl rest => inl (group :: rest)
              end
          end
      end
  end.

Definition readConfigFile (file : string) : Config + cfgError :=
  if isEmpty file then inr (Sentinel ErrorMissingFile)
  else
    match os_ReadFile file with
    | inr msg => inr (Wrapped (cfgSentinel_text ErrorReadingFile +:+ ": " +:+ msg)
                              (Sentinel ErrorReadingFile))
    | inl fileContent =>
        match yaml_Unmarshal fileContent with
        | inr msg => inr (Wrapped (cfgSentinel_text ErrorParsingFile +:+ ": " +:+ msg)
                                  (Sentinel ErrorParsingFile))
        | inl config =>
            if isEmpty (BaseURL config) || isEmpty (Token config) ||
               isEmpty (ScanIntervalString config) || (length (Groups config) =? 0)%nat
            then inr (Wrapped ("global configuration: " +:+ cfgSentinel_text ErrorMissingRequired)
                              (Sentinel ErrorMissingRequired))
            else if negb (String.prefix "https" (BaseURL config)) then
              inr (Sentinel ErrorBaseURLMissingTLS)
            else
              match time_ParseDuration (ScanIntervalString config) with
              | None => inr (Sentinel ErrorBadScanInterval)
              | Some d =>
                  match validateGroups (Groups config) d ∅ 0 with
                  | inr err => inr err
                  | inl groups =>
                      inl {| BaseURL := BaseURL config; Token := Token config;
                             AllowInsecure := AllowInsecure config;
                             ScanIntervalString := ScanIntervalString config;
                             Config_ScanInterval := d;
                             Groups := groups |}
                  end
              end
        end
    end.

End Configuration.

(** ** Specification-side definitions for the configuration *)

Definition validFamily (family : string) : Prop :=
  family = InetFamilyAny \/ family = InetFamilyInet \/ family = InetFamilyInet6.

(** A filter as [validateFilters] leaves it: on a [netbox_] label, with the
    compiled form of its expression. *)
Definition compiledFilter (regexp_Compile : string -> (string -> bool) + string)
    (f : FilterConfig) : Prop :=
  String.prefix "netbox_" (cfg_Label f) = true /\
  exists re, cfg_regex f = Some re /\ regexp_Compile (cfg_FilterMatch f) = inl re.

(** A group as the rest of the program expects it: nothing required is
    missing, the flags are all set. *)
Definition validGroup (regexp_Compile : string -> (string -> bool) + string)
    (g : GroupConfig) : Prop :=
  cfg_File g <> EmptyString /\ cfg_Match g <> EmptyString /\
  (cfg_Type g = GroupTypeService \/ cfg_Type g = GroupTypeDeviceTag \/
   cfg_Type g = GroupTypeInterfaceTag) /\
  (forall p, cfg_Port g = Some p -> (0 <= p <= 65535)%Z) /\
  (exists vms family all,
     cfg_Flags g = {| cfg_IncludeVMs := Some vms; cfg_InetFamily := Some family;
                      cfg_AllAddresses := Some all |} /\
     validFamily family) /\
  Forall (compiledFilter regexp_Compile) (cfg_Filters g).

(** ** custom_field.go: UnmarshalJSON, GetEntry *)

Definition ErrCFMUnsupportedDataType : error := "custom field data type not supported".

(** What [json.Unmarshal] puts into an [interface{}]: [nil], [float64],
    [string], [bool], a slice or a map. *)
#[warnings="-register-all"] Inductive jsonValue :=
| JSONNull
| JSONNumber (f : spec_float)
| JSONString (s : string)
| JSONBool (b : bool)
| JSONArray (items : list jsonValue)
| JSONObject (fields : list (string * jsonValue)).

(** The body of the loop of [UnmarshalJSON] for one key: [None] for the
    [continue] on a null value, else the new field or the error of the
    [default] case. *)
Definition customFieldOf (val : jsonValue) : option (CustomField + error) :=
  match val with
  | JSONNull => None
  | JSONNumber f => Some (inl {| Datatype := CustomFieldNumber; Value := AnyFloat64 f |})
  | JSONString s => Some (inl {| Datatype := CustomFieldText; Value := AnyString s |})
  | JSONBool b => Some (inl {| Datatype := CustomFieldBool; Value := AnyBool b |})
  | JSONArray _ | JSONObject _ => Some (inr ErrCFMUnsupportedDataType)
  end.

(** The loop over the decoded object: the entries as the loop leaves them
    and the error.  It returns at the first value of an unsupported type. *)
Fixpoint UnmarshalJSON_loop (tmp : list (string * jsonValue))
    (entries : gmap string CustomField) : gmap string CustomField * option error :=
  match tmp with
  | [] => (entries, None)
  | (key, val) :: rest =>
      match customFieldOf val with
      | None => UnmarshalJSON_loop rest entries
      | Some (inr err) => (entries, Some err)
      | Some (inl cf) => UnmarshalJSON_loop rest (<[key := cf]> entries)
      end
  end.

Section CustomFieldJSON.

(** [json.Unmarshal] of a text into a [map[string]interface{}]. *)
Variable json_Unmarshal : string -> gmap string jsonValue + error.

(** [UnmarshalJSON] on a [CFMap] whose entries are [entries]: the entries
    afterwards and the error.  The order in which Go ranges over the
    decoded map is not fixed; the one of [map_to_list] stands for it. *)
Definition UnmarshalJSON (entries : gmap string CustomField) (b : string)
    : gmap string CustomField * option error :=
  match json_Unmarshal b with
  | inr err => (entries, Some err)
  | inl tmp => UnmarshalJSON_loop (map_to_list tmp) ∅
  end.

End CustomFieldJSON.


(** Specification side: the custom field a decoded value stands for; none
    for null and for arrays and objects. *)
Definition spec_customField (val : jsonValue) : option CustomField :=
  match val with
  | JSONNumber f => Some {| Datatype := CustomFieldNumber; Value := AnyFloat64 f |}
  | JSONString s => Some {| Datatype := CustomFieldText; Value := AnyString s |}
  | JSONBool b => Some {| Datatype := CustomFieldBool; Value := AnyBool b |}
  | _ => None
  end.

Definition isComposite (val : jsonValue) : bool :=
  match val with
  | JSONArray _ | JSONObject _ => true
  | _ => false
  end.

(** ** main.go: the variables of [worker] before its first iteration *)

(** [lastRun] is set one scan interval before the start, [now]. *)
Definition workerInit (now : Z) (group : Group) : workerVars :=
  {| lastRun := now - ScanInterval group; runStart := 0; failed := false;
     err := None; targets := []; w_data := EmptyString |}.

(** ** Specification-side definitions for the assemblers *)

(** The target of an address, as [convertToTargets] builds it. *)
Definition spec_target (parse : string -> option bool) (port : option Z) (ip : IP)
    : gmap string string :=
  match port with
  | Some p => {[ AddressLabel := spec_endpoint parse ip p ]}
  | None => {[ AddressLabel := ToAddr ip ]}
  end.

(** The sample one call of [SetTargetStatusMetric] adds. *)
Definition sampleOf (group : Group) (dev : Device) (state : TargetState) : TargetStateSample :=
  {| ts_group := File group;
     ts_netbox_name := Device_Name dev;
     ts_netbox_rack := Rack dev;
     ts_netbox_site := Site dev;
     ts_netbox_tenant := Tenant dev;
     ts_netbox_role := Role dev;
     ts_netbox_serial_number := SerialNumber dev;
     ts_netbox_asset_tag := AssetTag dev;
     ts_state := state |}.

Definition isActive (s : TargetStateSample) : bool :=
  match ts_state s with TargetActive => true | _ => false end.

(** The four metric vectors keyed by the group alone. *)
Definition groupVectors (m : Metrics)
    : gmap string nat * gmap string Z * gmap string Z * gmap string Z :=
  (promUpdateError m, promTargetCount m, promUpdateDuration m, promUpdateTime m).

(** A target group as every variant builds it: the fixed source, and the
    static labels of the group on top of all others. *)
Definition goodTarget (group : Group) (t : TargetGroup) : Prop :=
  Source t = "netbox_sd" /\
  forall k v, Group_Labels group !! k = Some v -> Labels t !! k = Some v.

(** What a stretch of a loop of an assembler has done, from [st] to [st']:
    the target groups it has added and the target states it has set. *)
Definition stepEffect (group : Group) (st st' : loopState)
    (samples : list TargetStateSample) (new : list TargetGroup) : Prop :=
  data st' = data st ++ new /\
  promTargetState (metrics st') = promTargetState (metrics st) ++ samples /\
  groupVectors (metrics st') = groupVectors (metrics st) /\
  length new = length (List.filter isActive samples) /\
  Forall (fun s => ts_group s = File group) samples /\
  Forall (goodTarget group) new.

(** The endpoints of a target group of the two tag variants: one for each
    selected address, of at most [most] candidates. *)
Definition endpointCount (group : Group) (most : nat) (t : TargetGroup) : Prop :=
  (1 <= length (Targets t) <= most)%nat /\
  (AllAddresses (Group_Flags group) = false -> length (Targets t) = 1%nat).

(** A service of a device, not of a VM. *)
Definition onDevice (serv : Service) : bool := negb (bool_decide (is_Some (VM serv))).

(** ** Sample values for the examples *)

(** The parser on the literals of the examples: [netip.ParseAddr] looks for
    the first ['.'], [':'] or ['%'] and hands the text to the IPv4 or the
    IPv6 field parser, or fails; a text with none of the three does not
    parse.  The literals used below are well formed, so that the field
    parsers accept them. *)
Fixpoint sampleParseAddrIs6 (s : string) : option bool :=
  match s with
  | EmptyString => None
  | String c r =>
      if Ascii.eqb c "." then Some false
      else if Ascii.eqb c ":" then Some true
      else if Ascii.eqb c "%" then None
      else sampleParseAddrIs6 r
  end.

Definition mkIP (address status : string) : IP :=
  {| IP_ID := 0; IP_IDString := EmptyString; Address := address; IP_Status := status; IP_VRF := None |}.

Definition mkFlags (vms : bool) (family : string) (all : bool) : Flags :=
  {| IncludeVMs := vms; InetFamily := family; AllAddresses := all |}.

Definition mkGroup (type : string) (port : option Z) (flags : Flags) (filters : list Filter) : Group :=
  {| File := "targets.yml"; Group_Type := type; Group_Match := "exporter";
     ScanInterval := 10000000000; Group_Labels := ∅; Port := port;
     Group_Flags := flags; Filters := filters |}.

Definition mkDevice (name status : string) (cf : gmap string CustomField) (virtual : bool) : Device :=
  {| Device_ID := 1; Device_IDString := "1"; Device_Name := name;
     PrimaryIP4 := Some (mkIP "10.0.0.1/24" StatusIPActive);
     PrimaryIP6 := Some (mkIP "2001:db8::1/64" StatusIPActive);
     Device_CustomFields := cf;
     Rack := "rack1"; Site := "site1"; Role := "role1"; Tenant := "tenant1";
     Platform := "platform1"; SerialNumber := "sn1"; AssetTag := "at1";
     Device_Status := status; Device_Tags := []; isVirtual := virtual |}.


(** Stand-ins for the compiled expressions of [TestFiltersMatch]: an
    unanchored [MatchString] for [bar], [(foo|bar)] and [[0-9]+]. *)
Fixpoint containsStr (needle s : string) : bool :=
  String.prefix needle s ||
  match s with
  | EmptyString => false
  | String _ r => containsStr needle r
  end.

Fixpoint containsDigit (s : string) : bool :=
  match s with
  | EmptyString => false
  | String c r => isDigit c || containsDigit r
  end.

Definition sampleFilters : list Filter :=
  [ {| Filter_Label := "netbox_foo"; Filter_Match := "bar"; Negate := false;
       regex := containsStr "bar" |};
    {| Filter_Label := "netbox_foo2"; Filter_Match := "(foo|bar)"; Negate := false;
       regex := fun s => containsStr "foo" s || containsStr "bar" s |};
    {| Filter_Label := "netbox_foo3"; Filter_Match := "[0-9]+"; Negate := false;
       regex := containsDigit |};
    {| Filter_Label := "netbox_foo4"; Filter_Match := "bar"; Negate := true;
       regex := containsStr "bar" |} ].

Definition mkTarget (labels : list (string * string)) : TargetGroup :=
  {| Targets := []; Labels := list_to_map labels; Source := EmptyString |}.

Definition noMetrics : Metrics :=
  {| promTargetState := []; promIPSkipped := ∅; promUpdateError := ∅;
     promTargetCount := ∅; promUpdateDuration := ∅; promUpdateTime := ∅ |}.


(** A custom field declared as text whose value is a number. *)
Definition mismatchedField : CustomField :=
  {| Datatype := CustomFieldText; Value := AnyFloat64 (S754_finite false 123 0) |}.

(** A service with two ports and one address, on an active device, and a
    group that overrides the port. *)
Definition sampleService : Service :=
  {| Service_ID := 1; Service_IDString := "1"; Service_Name := "exporter";
     Service_Device := Some (mkDevice "dev1" StatusDeviceActive ∅ false); VM := None;
     Ports := [80; 443]%Z;
     IPAddresses := [Some (mkIP "10.0.0.1/24" StatusIPActive)];
     Protocol := "tcp"; Service_CustomFields := ∅ |}.


(** One filter that nothing of the sample inventory passes. *)
Definition rackFilter : Filter :=
  {| Filter_Label := "netbox_rack"; Filter_Match := "other"; Negate := false;
     regex := containsStr "other" |}.

Definition sampleInterface (enabled : bool) : Interface :=
  {| Interface_ID := 7; Interface_IDString := "7"; Interface_Name := "eth0";
     Enabled := enabled; Interface_CustomFields := ∅;
     Interface_Device := Some (mkDevice "dev1" StatusDeviceActive ∅ false);
     Interface_Tags := [] |}.

Definition sampleApi : ClientIface :=
  {| GetDevicesByTag := fun _ => inl [mkDevice "dev1" StatusDeviceActive ∅ false];
     GetVMsByTag := fun _ => inl [];
     GetInterfacesByTag := fun _ => inl [sampleInterface true];
     GetVirtualInterfacesByTag := fun _ => inl [];
     GetInterfaceIPs := fun _ => inl [Some (mkIP "2001:db8::1/64" StatusIPActive)];
     GetVirtualInterfaceIPs := fun _ => inl [];
     GetServicesByName := fun _ => inl [sampleService] |}.


(** A file system as a map from paths to contents, with a write that
    replaces the content and one that fails (and leaves the map alone). *)
Definition sampleWriteFile (files : gmap string string) (path data : string)
    : gmap string string * option error :=
  (<[path := data]> files, None).

Definition failingWriteFile (files : gmap string string) (path data : string)
    : gmap string string * option error :=
  (files, Some "permission denied").

(** A stand-in for [yaml.Marshal]: the number of target groups. *)
Definition sampleMarshal (targets : list TargetGroup) : string + error :=
  inl (fmt_d (Z.of_nat (length targets))).

Definition sampleTicks : Ticks :=
  {| now_check := 100000000000; now_start := 100000000001; now_done := 100000000005;
     now_duration := 100000000006; now_stamp := 100000000007 |}.

Definition sampleVars : workerVars :=
  {| lastRun := 0; runStart := 0; failed := false; err := None; targets := []; w_data := EmptyString |}.

Definition sampleWorld : World (gmap string string) :=
  {| fs := {[ "targets.yml" := "previous content" ]}; world_metrics := noMetrics |}.




(** Address lists, custom fields and a decoder for the further examples. *)
Definition sampleAddrs : list (option IP) :=
  [Some (mkIP "10.0.0.1/24" StatusIPActive);
   Some (mkIP "2001:db8::1/64" StatusIPActive);
   None;
   Some (mkIP "10.0.0.2/24" StatusIPReserved);
   Some (mkIP "2001:db8::1/64" StatusIPDHCP)].

Definition sampleFields : gmap string CustomField :=
  list_to_map [("foo", {| Datatype := CustomFieldText; Value := AnyString "bar" |});
               ("foo2", {| Datatype := CustomFieldNumber; Value := AnyFloat64 (S754_finite false 123 0) |});
               ("foo3", {| Datatype := CustomFieldBool; Value := AnyBool true |});
               ("foo4", {| Datatype := "select"; Value := AnyString "x" |})].

Definition sampleFieldLabels : gmap string string :=
  list_to_map [("netbox_foo", "bar"); ("netbox_foo2", "123"); ("netbox_foo3", "true")].



(** Stand-ins for [time.ParseDuration] (two texts parse), [regexp.Compile]
    (one expression does not compile), [os.ReadFile] and [yaml.Unmarshal],
    and a configuration with one group. *)
Definition sampleParseDuration (s : string) : option Z :=
  if String.eqb s "10s" then Some 10000000000%Z
  else if String.eqb s "5m" then Some 300000000000%Z
  else None.

Definition sampleCompile (pattern : string) : (string -> bool) + string :=
  if String.eqb pattern "(" then inr "error parsing regexp: missing closing )"
  else inl (containsStr pattern).

Definition sampleGroupConfig : GroupConfig :=
  {| cfg_File := "targets.yml"; cfg_Type := GroupTypeDeviceTag; cfg_Match := "exporter";
     cfg_GroupScanIntervalString := EmptyString; cfg_GroupScanInterval := 0;
     cfg_Labels := ∅; cfg_Port := Some 9100%Z;
     cfg_Flags := {| cfg_IncludeVMs := None; cfg_InetFamily := None; cfg_AllAddresses := None |};
     cfg_Filters := [ {| cfg_Label := "netbox_rack"; cfg_FilterMatch := "rack1";
                         cfg_Negate := false; cfg_regex := None |} ] |}.

Definition validatedGroupConfig : GroupConfig :=
  fst (validateGroup sampleParseDuration sampleCompile sampleGroupConfig 10000000000).

Definition badPortGroupConfig : GroupConfig :=
  {| cfg_File := "targets.yml"; cfg_Type := GroupTypeDeviceTag; cfg_Match := "exporter";
     cfg_GroupScanIntervalString := "5m"; cfg_GroupScanInterval := 0;
     cfg_Labels := ∅; cfg_Port := Some 70000%Z;
     cfg_Flags := {| cfg_IncludeVMs := None; cfg_InetFamily := Some "inet7";
                     cfg_AllAddresses := None |};
     cfg_Filters := [] |}.

Definition sampleConfig : Config :=
  {| BaseURL := "https://netbox.example.com"; Token := "secret"; AllowInsecure := false;
     ScanIntervalString := "10s"; Config_ScanInterval := 0; Groups := [sampleGroupConfig] |}.

Definition sampleReadFile (file : string) : string + string :=
  if String.eqb file "config.yml" then inl "netbox_base_url: https://netbox.example.com"
  else inr "open: no such file or directory".

Definition sampleYaml (content : string) : Config + string := inl sampleConfig.

Definition loadedConfig : Config :=
  match readConfigFile sampleParseDuration sampleCompile sampleReadFile sampleYaml "config.yml" with
  | inl config => config
  | inr _ => sampleConfig
  end.

(** An inventory with an active and an offline device, a VM, a service
    on the VM and one on a device; its address queries fail. *)
Definition vmService : Service :=
  {| Service_ID := 2; Service_IDString := "2"; Service_Name := "exporter";
     Service_Device := None; VM := Some (mkDevice "vm1" StatusDeviceActive ∅ true);
     Ports := [9100]%Z;
     IPAddresses := [Some (mkIP "10.0.0.9/24" StatusIPActive)];
     Protocol := "tcp"; Service_CustomFields := ∅ |}.

Definition mixedApi : ClientIface :=
  {| GetDevicesByTag := fun _ => inl [mkDevice "dev1" StatusDeviceActive ∅ false;
                                      mkDevice "dev2" "offline" ∅ false];
     GetVMsByTag := fun _ => inl [mkDevice "vm1" StatusDeviceActive ∅ true];
     GetInterfacesByTag := fun _ => inl [sampleInterface true];
     GetVirtualInterfacesByTag := fun _ => inl [];
     GetInterfaceIPs := fun _ => inr "failed to query api";
     GetVirtualInterfaceIPs := fun _ => inr "failed to query api";
     GetServicesByName := fun _ => inl [vmService; sampleService] |}.

Definition scanResult (r : outcome ((list TargetGroup + error) * Metrics))
    : list TargetGroup * Metrics :=
  match r with
  | Done (inl tg, m) => (tg, m)
  | _ => ([], noMetrics)
  end.

Definition deviceGroup : Group :=
  mkGroup GroupTypeDeviceTag (Some 9100%Z) (mkFlags true InetFamilyAny true) [].

Definition interfaceGroup : Group :=
  mkGroup GroupTypeInterfaceTag None (mkFlags true InetFamilyAny false) [].

Definition serviceGroup (vms : bool) : Group :=
  mkGroup GroupTypeService None (mkFlags vms InetFamilyAny true) [].

Definition deviceScan : list TargetGroup * Metrics :=
  scanResult (getTargetsByDeviceTag sampleParseAddrIs6 mixedApi deviceGroup noMetrics).

Definition interfaceScan : list TargetGroup * Metrics :=
  scanResult (getTargetsByInterfaceTag sampleParseAddrIs6 sampleApi interfaceGroup noMetrics).

Definition interfaceScanNoAddresses : list TargetGroup * Metrics :=
  scanResult (getTargetsByInterfaceTag sampleParseAddrIs6 mixedApi interfaceGroup noMetrics).

Definition serviceScan : list TargetGroup * Metrics :=
  scanResult (getTargetsByService sampleParseAddrIs6 mixedApi (serviceGroup true) noMetrics).

Definition sampleCycle : workerVars * World (gmap string string) :=
  match workerCycle sampleParseAddrIs6 (gmap string string) sampleWriteFile sampleMarshal
          mixedApi deviceGroup sampleTicks sampleVars sampleWorld with
  | Done x => x
  | Panicked _ => (sampleVars, sampleWorld)
  end.

(** An inventory whose second tagged interface is disabled, on an active
    device of its own. *)
Definition disabledInterface : Interface :=
  {| Interface_ID := 8; Interface_IDString := "8"; Interface_Name := "eth1";
     Enabled := false; Interface_CustomFields := ∅;
     Interface_Device := Some (mkDevice "dev2" StatusDeviceActive ∅ false);
     Interface_Tags := [] |}.

Definition disabledApi : ClientIface :=
  {| GetDevicesByTag := fun _ => inl [];
     GetVMsByTag := fun _ => inl [];
     GetInterfacesByTag := fun _ => inl [sampleInterface true; disabledInterface;
                                        sampleInterface true];
     GetVirtualInterfacesByTag := fun _ => inl [];
     GetInterfaceIPs := fun _ => inl [Some (mkIP "2001:db8::1/64" StatusIPActive)];
     GetVirtualInterfaceIPs := fun _ => inl [];
     GetServicesByName := fun _ => inl [] |}.

(** A device-tag group with two static labels, one of them under the name
    of a label every device carries. *)
Definition labelledGroup : Group :=
  {| File := "targets.yml"; Group_Type := GroupTypeDeviceTag; Group_Match := "exporter";
     ScanInterval := 10000000000;
     Group_Labels := list_to_map [("netbox_site", "dc1"); ("team", "ops")];
     Port := Some 9100%Z; Group_Flags := mkFlags true InetFamilyAny true; Filters := [] |}.

Definition labelledScan : list TargetGroup * Metrics :=
  scanResult (getTargetsByDeviceTag sampleParseAddrIs6 mixedApi labelledGroup noMetrics).

(** * Properties *)

(** ** Filter evaluation *)

Lemma FiltersMatch_loop_true (filters : list Filter) (labels : gmap string string) :
  FiltersMatch_loop filters labels = true <->
  forall f, In f filters ->
    exists value, labels !! Filter_Label f = Some value /\
                  xorb (regex f value) (Negate f) = true.
Proof.
  induction filters as [|f rest IH]; cbn.
  - split; [intros _ f [] | reflexivity].
  - destruct (labels !! Filter_Label f) as [value|] eqn:Hl.
    + destruct (xorb (regex f value) (Negate f)) eqn:Hx.
      * rewrite IH. split.
        -- intros H g [<-|Hg]; [exists value; auto | apply H, Hg].
        -- intros H g Hg. apply H. right. exact Hg.
      * split; [discriminate|]. intros H. destruct (H f (or_introl eq_refl)) as (v & Hv & Hxv).
        congruence.
    + split; [discriminate|]. intros H. destruct (H f (or_introl eq_refl)) as (v & Hv & _).
      congruence.
Qed.

(** C5. Filter evaluation is the conjunction over all filters of the group:
    a filter passes when its label is present and (regex matches value) XOR
    negate holds; a filter whose label is absent fails whatever its negate
    flag; the empty filter list passes. *)
Theorem FiltersMatch_conjunction (group : Group) (target : TargetGroup) :
  (FiltersMatch group target = true <->
   forall f, In f (Filters group) ->
     exists value, Labels target !! Filter_Label f = Some value /\
                   xorb (regex f value) (Negate f) = true) /\
  (Filters group = [] -> FiltersMatch group target = true) /\
  (forall f, In f (Filters group) -> Labels target !! Filter_Label f = None ->
     FiltersMatch group target = false).
Proof.
  unfold FiltersMatch. split; [apply FiltersMatch_loop_true|]. split.
  - intros ->. reflexivity.
  - intros f Hf Hnone. destruct (FiltersMatch_loop _ _) eqn:E; [|reflexivity].
    destruct (proj1 (FiltersMatch_loop_true _ _) E f Hf) as (v & Hv & _). congruence.
Qed.

(** The table of [TestFiltersMatch]. *)
Example FiltersMatch_test_table :
  let group := mkGroup GroupTypeDeviceTag None (mkFlags true InetFamilyAny false) sampleFilters in
  FiltersMatch group (mkTarget [("netbox_foo", "bar"); ("netbox_foo2", "foo");
                                ("netbox_foo3", "123"); ("netbox_foo4", "123")]) = true /\
  FiltersMatch group (mkTarget [("netbox_foo", "bar"); ("netbox_foo2", "foo")]) = false /\
  FiltersMatch group (mkTarget [("netbox_foo", "bar"); ("netbox_foo2", "foo");
                                ("netbox_foo3", "abc")]) = false /\
  FiltersMatch group (mkTarget [("netbox_foo", "this"); ("netbox_foo2", "should");
                                ("netbox_foo3", "fail")]) = false /\
  FiltersMatch group (mkTarget [("netbox_foo", "bar"); ("netbox_foo2", "foo");
                                ("netbox_foo3", "123"); ("netbox_foo4", "bar")]) = false.
Proof. vm_compute. repeat split. Qed.

(** ** Custom-field labels *)

Lemma cfCallback_keeps_nil (allLabels : gmap string string) (entry : string * CustomField)
    (labels : gmap string string) (gotError : option error) :
  cfCallback (allLabels, None) entry = Done (labels, gotError) -> gotError = None.
Proof.
  destruct entry as [key val]. unfold cfCallback, AsString, AsFloat, AsBool.
  destruct (String.eqb (Datatype val) CustomFieldText) eqn:E1; cbn.
  { destruct (Value val); cbn; congruence. }
  destruct (String.eqb (Datatype val) CustomFieldNumber) eqn:E2; cbn.
  { destruct (Value val); cbn; congruence. }
  destruct (String.eqb (Datatype val) CustomFieldBool) eqn:E3; cbn.
  { destruct (Value val); cbn; congruence. }
  congruence.
Qed.

Lemma foldM_cfCallback_keeps_nil (entries : list (string * CustomField)) :
  forall allLabels labels gotError,
    foldM cfCallback entries (allLabels, None) = Done (labels, gotError) -> gotError = None.
Proof.
  induction entries as [|e rest IH]; intros allLabels labels gotError; cbn [foldM].
  - congruence.
  - destruct (cfCallback (allLabels, None) e) as [[l g]|msg] eqn:E;
      cbn [mbind outcome_bind]; [|congruence].
    apply cfCallback_keeps_nil in E. subst g. apply IH.
Qed.

(** The error result of [generateCustomFieldLabels] is never set: each
    accessor is called under the [case] of its own data type, where it does
    not return an error. *)
Lemma generateCustomFieldLabels_never_errors (cfm : gmap string CustomField)
    (labels : gmap string string) (gotError : option error) :
  generateCustomFieldLabels cfm = Done (labels, gotError) -> gotError = None.
Proof. apply foldM_cfCallback_keeps_nil. Qed.


Lemma netbox_prefix_inj (a b : string) : "netbox_" +:+ a = "netbox_" +:+ b -> a = b.
Proof. cbn. intros H. injection H as H. exact H. Qed.



(** A field declared as text that holds a number, as a hand-built map can
    have it: the type assertion of [AsString] panics. *)
Example generateCustomFieldLabels_mismatch_panics :
  generateCustomFieldLabels {[ "foo" := mismatchedField ]} =
  Panicked "interface conversion: interface {} is not string".
Proof. vm_compute. reflexivity. Qed.

(** [TestGenerateCustomFieldLabels]. *)
Example generateCustomFieldLabels_test :
  generateCustomFieldLabels
    (list_to_map [("foo", {| Datatype := CustomFieldText; Value := AnyString "bar" |});
                  ("foo2", {| Datatype := CustomFieldNumber; Value := AnyFloat64 (S754_finite false 123 0) |});
                  ("foo3", {| Datatype := CustomFieldBool; Value := AnyBool true |})]) =
  Done (list_to_map [("netbox_foo", "bar"); ("netbox_foo2", "123"); ("netbox_foo3", "true")], None).
Proof. vm_compute. reflexivity. Qed.

(** A field of a data type outside the three of the [switch] yields neither
    a label nor an error. *)
Example generateCustomFieldLabels_other_type :
  generateCustomFieldLabels {[ "foo" := {| Datatype := "select"; Value := AnyString "x" |} ]} =
  Done (∅, None).
Proof. vm_compute. reflexivity. Qed.


(** ** Address selection *)

Section Properties.

Variable ParseAddrIs6 : string -> option bool.

Lemma orElse_first (x : option IP) (a : IP) (y : option IP) :
  orElse (match x with None => Some a | Some _ => x end) y = orElse x (Some a).
Proof. destruct x; reflexivity. Qed.

Lemma orElse_None (x : option IP) : orElse x None = x.
Proof. destruct x; reflexivity. Qed.

Lemma addNew_negb (kept : list IP) (a : IP) :
  (if negb (addrExists a kept) then kept ++ [a] else kept) = addNew kept a.
Proof. unfold addNew. destruct (addrExists a kept); reflexivity. Qed.

Lemma literalsParse_cons_Some (a : IP) (rest : list (option IP)) :
  literalsParse ParseAddrIs6 (Some a :: rest) =
  literalParses ParseAddrIs6 a && literalsParse ParseAddrIs6 rest.
Proof. reflexivity. Qed.

Lemma isCandidate_skipped (group : Group) (six : bool) (a : IP) :
  statusSkipped a = true -> isCandidate ParseAddrIs6 group six a = false.
Proof. intros H. unfold isCandidate. rewrite H. reflexivity. Qed.

Lemma isCandidate_parsed (group : Group) (six b : bool) (a : IP) :
  statusSkipped a = false -> ParseAddrIs6 (ToAddr a) = Some b ->
  isCandidate ParseAddrIs6 group six a = Bool.eqb b six && familyWanted group six.
Proof. intros H1 H2. unfold isCandidate. rewrite H1, H2. reflexivity. Qed.

Lemma Family_parsed (a : IP) (b : bool) :
  ParseAddrIs6 (ToAddr a) = Some b ->
  Family ParseAddrIs6 a = Done (if b then 6%Z else 4%Z).
Proof. intros H. unfold Family. rewrite H. destruct b; reflexivity. Qed.

Lemma Family_unparsed (a : IP) :
  ParseAddrIs6 (ToAddr a) = None ->
  Family ParseAddrIs6 a = Panicked "netip.ParseAddr: unable to parse IP".
Proof. intros H. unfold Family. rewrite H. reflexivity. Qed.

(** The loop, in closed form: it never leaves through the [default] case;
    it panics exactly when a literal it has to parse does not parse. *)
Lemma selectAddr_loop_spec (group : Group) (addrs : list (option IP)) :
  forall firstInet6 firstInet result,
    selectAddr_loop ParseAddrIs6 group addrs firstInet6 firstInet result =
    if literalsParse ParseAddrIs6 addrs then
      Done (Completed
              (orElse firstInet6 (List.find (isCandidate ParseAddrIs6 group true) (nonNull addrs)))
              (orElse firstInet (List.find (isCandidate ParseAddrIs6 group false) (nonNull addrs)))
              (if AllAddresses (Group_Flags group)
               then fold_left addNew (List.filter (isSelectable ParseAddrIs6 group) (nonNull addrs)) result
               else result))
    else Panicked "netip.ParseAddr: unable to parse IP".
Proof.
  induction addrs as [|[a|] rest IH]; intros f6 f4 res.
  - cbn. rewrite !orElse_None. destruct (AllAddresses _); reflexivity.
  - rewrite literalsParse_cons_Some.
    change (nonNull (Some a :: rest)) with (a :: nonNull rest).
    cbn [selectAddr_loop List.find List.filter fold_left]. unfold isSelectable at 1.
    destruct (statusSkipped a) eqn:Hst.
    + rewrite !(isCandidate_skipped _ _ _ Hst). unfold literalParses. rewrite Hst.
      cbn [orb andb]. apply IH.
    + destruct (ParseAddrIs6 (ToAddr a)) as [b|] eqn:Hp.
      * rewrite !(isCandidate_parsed _ _ _ _ Hst Hp), (Family_parsed _ _ Hp).
        unfold literalParses. rewrite Hst, Hp.
        replace (bool_decide (is_Some (Some b))) with true by reflexivity.
        cbn [orb andb]. unfold familyWanted.
        destruct b; cbn [Bool.eqb andb orb mbind outcome_bind Z.eqb Pos.eqb].
        -- destruct (String.eqb _ InetFamilyInet6 || String.eqb _ InetFamilyAny);
             destruct (AllAddresses (Group_Flags group)); rewrite IH;
             destruct (literalsParse _ rest); try reflexivity;
             rewrite ?orElse_first, ?addNew_negb; reflexivity.
        -- destruct (String.eqb _ InetFamilyInet || String.eqb _ InetFamilyAny);
             destruct (AllAddresses (Group_Flags group)); rewrite IH;
             destruct (literalsParse _ rest); try reflexivity;
             rewrite ?orElse_first, ?addNew_negb; reflexivity.
      * rewrite (Family_unparsed _ Hp). unfold literalParses. rewrite Hst, Hp. reflexivity.
  - cbn [selectAddr_loop]. apply IH.
Qed.

(** *** The two selection rules *)

Lemma addrExists_true (a : IP) (l : list IP) :
  addrExists a l = true <-> exists h, In h l /\ Address h = Address a.
Proof.
  induction l as [|h l IH]; cbn.
  - split; [discriminate | intros (h & [] & _)].
  - destruct (String.eqb (Address h) (Address a)) eqn:E.
    + apply String.eqb_eq in E. split; [intros _; exists h; auto | reflexivity].
    + apply String.eqb_neq in E. rewrite IH. split.
      * intros (k & Hk & Hek). exists k. auto.
      * intros (k & [Hk|Hk] & Hek); [subst; contradiction | exists k; auto].
Qed.

Lemma addNew_incl (kept : list IP) (x a : IP) : In a kept -> In a (addNew kept x).
Proof.
  intros H. unfold addNew. destruct (addrExists x kept); [assumption|].
  apply in_or_app. left. assumption.
Qed.

Lemma addNew_inv (kept : list IP) (x a : IP) :
  In a (addNew kept x) -> In a kept \/ (a = x /\ addrExists x kept = false).
Proof.
  unfold addNew. destruct (addrExists x kept) eqn:E; intros H; [left; assumption|].
  apply in_app_or in H. destruct H as [H|[H|[]]]; [left; assumption | right; auto].
Qed.

Lemma fold_addNew_incl (l kept : list IP) (a : IP) :
  In a kept -> In a (fold_left addNew l kept).
Proof.
  revert kept. induction l as [|x l IH]; intros kept H; cbn; [assumption|].
  apply IH, addNew_incl, H.
Qed.

Lemma fold_addNew_nil (l kept : list IP) :
  fold_left addNew l kept = [] -> l = [] /\ kept = [].
Proof.
  destruct l as [|x l]; cbn; [auto|]. intros H. exfalso.
  assert (Hx : exists y, In y (addNew kept x)).
  { unfold addNew. destruct (addrExists x kept) eqn:E.
    - apply addrExists_true in E. destruct E as (h & Hh & _). exists h. assumption.
    - exists x. apply in_or_app. right. left. reflexivity. }
  destruct Hx as (y & Hy). apply (fold_addNew_incl l) in Hy. rewrite H in Hy. destruct Hy.
Qed.

(** Every entry kept by the all-addresses rule was already kept or is the
    first entry of the input with its literal. *)
Lemma fold_addNew_first (l kept : list IP) (a : IP) :
  In a (fold_left addNew l kept) ->
  In a kept \/
  (addrExists a kept = false /\
   List.find (fun x => String.eqb (Address x) (Address a)) l = Some a).
Proof.
  revert kept. induction l as [|x l IH]; intros kept H; cbn in H; [left; assumption|].
  destruct (IH _ H) as [Hin | [Hne Hfind]].
  - destruct (addNew_inv _ _ _ Hin) as [Hk | [-> Hx]]; [left; assumption|].
    right. split; [assumption|]. cbn. rewrite String.eqb_refl. reflexivity.
  - right. assert (Hk : addrExists a kept = false).
    { destruct (addrExists a kept) eqn:E; [|reflexivity].
      apply addrExists_true in E. destruct E as (h & Hh & He).
      assert (addrExists a (addNew kept x) = true); [|congruence].
      apply addrExists_true. exists h. split; [apply addNew_incl|]; assumption. }
    split; [assumption|]. cbn.
    destruct (String.eqb (Address x) (Address a)) eqn:E; [|assumption]. exfalso.
    apply String.eqb_eq in E.
    assert (addrExists a (addNew kept x) = true); [|congruence].
    apply addrExists_true. unfold addNew. destruct (addrExists x kept) eqn:Ex.
    + apply addrExists_true in Ex. destruct Ex as (h & Hh & He). exists h. split; [assumption|congruence].
    + exists x. split; [apply in_or_app; right; left; reflexivity | assumption].
Qed.

Lemma fold_addNew_NoDup (l kept : list IP) :
  NoDup (map Address kept) -> NoDup (map Address (fold_left addNew l kept)).
Proof.
  revert kept. induction l as [|x l IH]; intros kept H; cbn; [assumption|].
  apply IH. unfold addNew. destruct (addrExists x kept) eqn:E; [assumption|].
  rewrite map_app. cbn. apply NoDup_app. split; [assumption|].
  split; [|apply NoDup_singleton].
  intros s Hs Hx. apply list_elem_of_In in Hs. apply list_elem_of_singleton in Hx. subst s.
  apply in_map_iff in Hs. destruct Hs as (h & He & Hh).
  assert (addrExists x kept = true); [|congruence].
  apply addrExists_true. exists h. auto.
Qed.

Lemma nonNull_In (addrs : list (option IP)) (a : IP) :
  In a (nonNull addrs) <-> In (Some a) addrs.
Proof.
  induction addrs as [|[b|] rest IH]; cbn.
  - reflexivity.
  - change (omap id rest) with (nonNull rest). cbn. rewrite IH.
    split; (intros [H|H]; [left; congruence | right; assumption]).
  - change (omap id rest) with (nonNull rest). rewrite IH.
    split; [auto | intros [H|H]; [discriminate | assumption]].
Qed.

Lemma statusSkipped_false (a : IP) : statusSkipped a = false -> statusAccepted a.
Proof.
  unfold statusSkipped, statusAccepted. intros H.
  destruct (String.eqb (IP_Status a) StatusIPActive) eqn:E1;
    [apply String.eqb_eq in E1; left; exact E1|].
  destruct (String.eqb (IP_Status a) StatusIPDHCP) eqn:E2;
    [apply String.eqb_eq in E2; right; left; exact E2|].
  destruct (String.eqb (IP_Status a) StatusIPSLAAC) eqn:E3;
    [apply String.eqb_eq in E3; right; right; exact E3|].
  discriminate H.
Qed.

Lemma isCandidate_status (group : Group) (six : bool) (a : IP) :
  isCandidate ParseAddrIs6 group six a = true -> statusSkipped a = false.
Proof. unfold isCandidate. destruct (statusSkipped a); [discriminate | reflexivity]. Qed.

Lemma isSelectable_status (group : Group) (a : IP) :
  isSelectable ParseAddrIs6 group a = true -> statusSkipped a = false.
Proof.
  unfold isSelectable. intros H. apply orb_true_iff in H.
  destruct H as [H|H]; exact (isCandidate_status _ _ _ H).
Qed.

(** [selectAddr], in closed form. *)
Lemma selectAddr_cases (addrs : list (option IP)) (group : Group) :
  selectAddr ParseAddrIs6 addrs group =
  if literalsParse ParseAddrIs6 addrs
  then Done (spec_selectAddr ParseAddrIs6 group addrs)
  else Panicked "netip.ParseAddr: unable to parse IP".
Proof.
  unfold selectAddr. rewrite selectAddr_loop_spec.
  destruct (literalsParse ParseAddrIs6 addrs); [|reflexivity].
  cbn [mbind outcome_bind orElse]. unfold spec_selectAddr, spec_allChoices, spec_firstChoice.
  destruct (AllAddresses (Group_Flags group)).
  - destruct (fold_left addNew _ []) as [|r rs] eqn:Hf; [|reflexivity].
    apply fold_addNew_nil in Hf. destruct Hf as [Hf _]. cbn [length Nat.eqb].
    destruct (List.find (isCandidate ParseAddrIs6 group true) _) as [a|] eqn:H6.
    { apply find_some in H6. destruct H6 as [Hin Hc]. exfalso.
      assert (Hx : In a (List.filter (isSelectable ParseAddrIs6 group) (nonNull addrs))).
      { apply filter_In. split; [assumption|]. unfold isSelectable. rewrite Hc. reflexivity. }
      rewrite Hf in Hx. destruct Hx. }
    destruct (List.find (isCandidate ParseAddrIs6 group false) _) as [a|] eqn:H4; [|reflexivity].
    apply find_some in H4. destruct H4 as [Hin Hc]. exfalso.
    assert (Hx : In a (List.filter (isSelectable ParseAddrIs6 group) (nonNull addrs))).
    { apply filter_In. split; [assumption|]. unfold isSelectable. rewrite Hc. apply orb_true_r. }
    rewrite Hf in Hx. destruct Hx.
  - cbn [length Nat.eqb app].
    destruct (List.find (isCandidate ParseAddrIs6 group true) _);
      [reflexivity | destruct (List.find (isCandidate ParseAddrIs6 group false) _); reflexivity].
Qed.

Lemma statusAccepted_not_skipped (a : IP) : statusAccepted a -> statusSkipped a = false.
Proof.
  unfold statusAccepted, statusSkipped. intros [H|[H|H]]; rewrite H; reflexivity.
Qed.

Lemma Family_4_or_6 (a : IP) (n : Z) :
  Family ParseAddrIs6 a = Done n -> n = 4%Z \/ n = 6%Z.
Proof.
  unfold Family. destruct (ParseAddrIs6 (ToAddr a)) as [[|]|]; intros H; inversion H; auto.
Qed.

Lemma spec_firstChoice_length (group : Group) (addrs : list (option IP)) :
  (length (spec_firstChoice ParseAddrIs6 group addrs) <= 1)%nat.
Proof.
  unfold spec_firstChoice.
  destruct (List.find _ _); [cbn; lia|]. destruct (List.find _ _); cbn; lia.
Qed.

Lemma selectAddr_Done (addrs : list (option IP)) (group : Group) (r : list IP) :
  selectAddr ParseAddrIs6 addrs group = Done r ->
  literalsParse ParseAddrIs6 addrs = true /\ r = spec_selectAddr ParseAddrIs6 group addrs.
Proof.
  rewrite selectAddr_cases. destruct (literalsParse ParseAddrIs6 addrs); intros H; inversion H; auto.
Qed.

Lemma selectAddr_single_length (addrs : list (option IP)) (group : Group) (r : list IP) :
  AllAddresses (Group_Flags group) = false ->
  selectAddr ParseAddrIs6 addrs group = Done r -> (length r <= 1)%nat.
Proof.
  intros Hall Hr. apply selectAddr_Done in Hr. destruct Hr as [_ ->].
  unfold spec_selectAddr. rewrite Hall. apply spec_firstChoice_length.
Qed.

(** C2. With [AllAddresses] off the selector yields at most one address:
    the first IPv6 candidate of the input (status accepted, family admitted
    by the policy), failing that the first IPv4 candidate, failing that
    nothing.  The call returns whenever the literals it has to parse do
    parse, and whatever it returns is that choice; in particular, under
    family [any], a first IPv6 candidate is the whole result whether or not
    an IPv4 candidate is present. *)
Theorem selectAddr_one_address (addrs : list (option IP)) (group : Group) :
  AllAddresses (Group_Flags group) = false ->
  (literalsParse ParseAddrIs6 addrs = true ->
   selectAddr ParseAddrIs6 addrs group = Done (spec_firstChoice ParseAddrIs6 group addrs)) /\
  (forall r, selectAddr ParseAddrIs6 addrs group = Done r ->
     r = spec_firstChoice ParseAddrIs6 group addrs /\
     (length r <= 1)%nat /\
     (forall a6, InetFamily (Group_Flags group) = InetFamilyAny ->
        List.find (isCandidate ParseAddrIs6 group true) (nonNull addrs) = Some a6 ->
        r = [a6])).
Proof.
  intros Hall. split.
  - intros Hp. rewrite selectAddr_cases, Hp. unfold spec_selectAddr. rewrite Hall. reflexivity.
  - intros r Hr. apply selectAddr_Done in Hr. destruct Hr as [_ ->].
    unfold spec_selectAddr. rewrite Hall. split; [reflexivity|].
    split; [apply spec_firstChoice_length|].
    intros a6 _ H6. unfold spec_firstChoice. rewrite H6. reflexivity.
Qed.

(** C6.  The [default] case of [selectAddr] is written for an address of
    neither family: it logs and returns the empty list.  It is never
    reached: [Family] yields 4 or 6 for a literal that parses and panics
    otherwise.  So an address that passes the null and status checks and
    whose family is neither 4 nor 6 makes the selector panic; no result,
    empty or not, is returned. *)
Theorem selectAddr_unknown_family_panics :
  (forall a n, Family ParseAddrIs6 a = Done n -> n = 4%Z \/ n = 6%Z) /\
  (forall (addrs : list (option IP)) (group : Group) (a : IP),
     In (Some a) addrs -> statusAccepted a ->
     Family ParseAddrIs6 a <> Done 4%Z -> Family ParseAddrIs6 a <> Done 6%Z ->
     selectAddr ParseAddrIs6 addrs group = Panicked "netip.ParseAddr: unable to parse IP").
Proof.
  split; [exact Family_4_or_6|].
  intros addrs group a Hin Hst H4 H6. rewrite selectAddr_cases.
  destruct (literalsParse ParseAddrIs6 addrs) eqn:Hp; [exfalso|reflexivity].
  unfold literalsParse in Hp. rewrite forallb_forall in Hp.
  specialize (Hp a (proj2 (nonNull_In addrs a) Hin)). unfold literalParses in Hp.
  rewrite (statusAccepted_not_skipped _ Hst) in Hp. cbn [orb] in Hp.
  unfold Family in H4, H6. destruct (ParseAddrIs6 (ToAddr a)) as [[|]|]; [auto | auto |].
  apply bool_decide_eq_true in Hp. destruct Hp as [x Hx]. discriminate Hx.
Qed.

(** C7. Whatever the selector returns, every entry is a non-null entry of
    the input whose status is active, dhcp or slaac; and with
    [AllAddresses] on no two entries share an address literal, each entry
    being the first candidate of the input with its literal (so with that
    candidate's status).  The call returns whenever the literals it has to
    parse do parse. *)
Theorem selectAddr_output_sound (addrs : list (option IP)) (group : Group) :
  (literalsParse ParseAddrIs6 addrs = true ->
   exists r, selectAddr ParseAddrIs6 addrs group = Done r) /\
  (forall r, selectAddr ParseAddrIs6 addrs group = Done r ->
     (forall a, In a r -> In (Some a) addrs /\ statusAccepted a) /\
     (AllAddresses (Group_Flags group) = true ->
        NoDup (map Address r) /\
        forall a, In a r ->
          List.find (fun x => String.eqb (Address x) (Address a))
            (List.filter (isSelectable ParseAddrIs6 group) (nonNull addrs)) = Some a)).
Proof.
  split.
  - intros Hp. rewrite selectAddr_cases, Hp. eauto.
  - intros r Hr. apply selectAddr_Done in Hr. destruct Hr as [_ ->].
    unfold spec_selectAddr. destruct (AllAddresses (Group_Flags group)) eqn:Hall.
    + unfold spec_allChoices. split; [|intros _; split].
      * intros a Ha. apply fold_addNew_first in Ha. destruct Ha as [[]|[_ Hf]].
        apply find_some in Hf. destruct Hf as [Hf _]. apply filter_In in Hf.
        destruct Hf as [Hin Hsel]. split; [apply nonNull_In, Hin|].
        apply statusSkipped_false, (isSelectable_status _ _ Hsel).
      * apply fold_addNew_NoDup. constructor.
      * intros a Ha. apply fold_addNew_first in Ha. destruct Ha as [[]|[_ Hf]]. exact Hf.
    + split; [|discriminate]. unfold spec_firstChoice. intros a Ha.
      destruct (List.find (isCandidate ParseAddrIs6 group true) _) as [b|] eqn:H6.
      { destruct Ha as [<-|[]]. apply find_some in H6. destruct H6 as [Hin Hc].
        split; [apply nonNull_In, Hin | apply statusSkipped_false, (isCandidate_status _ _ _ Hc)]. }
      destruct (List.find (isCandidate ParseAddrIs6 group false) _) as [b|] eqn:H4; [|destruct Ha].
      destruct Ha as [<-|[]]. apply find_some in H4. destruct H4 as [Hin Hc].
      split; [apply nonNull_In, Hin | apply statusSkipped_false, (isCandidate_status _ _ _ Hc)].
Qed.

(** ** The assemblers *)

Lemma spec_selectAddr_selectable (group : Group) (addrs : list (option IP)) (a : IP) :
  In a (spec_selectAddr ParseAddrIs6 group addrs) -> isSelectable ParseAddrIs6 group a = true.
Proof.
  unfold spec_selectAddr, spec_allChoices, spec_firstChoice, isSelectable.
  destruct (AllAddresses (Group_Flags group)).
  - intros Ha. apply fold_addNew_first in Ha. destruct Ha as [[]|[_ Hf]].
    apply find_some in Hf. destruct Hf as [Hf _]. apply filter_In in Hf. apply Hf.
  - destruct (List.find (isCandidate ParseAddrIs6 group true) _) as [b|] eqn:H6.
    { intros [<-|[]]. apply find_some in H6. destruct H6 as [_ ->]. reflexivity. }
    destruct (List.find (isCandidate ParseAddrIs6 group false) _) as [b|] eqn:H4; [|intros []].
    intros [<-|[]]. apply find_some in H4. destruct H4 as [_ ->]. apply orb_true_r.
Qed.

Lemma isSelectable_parses (group : Group) (a : IP) :
  isSelectable ParseAddrIs6 group a = true -> exists b, ParseAddrIs6 (ToAddr a) = Some b.
Proof.
  unfold isSelectable, isCandidate. destruct (ParseAddrIs6 (ToAddr a)) as [b|]; [eauto|].
  rewrite !andb_false_r. discriminate.
Qed.

Lemma selectAddr_parses (addrs : list (option IP)) (group : Group) (r : list IP) :
  selectAddr ParseAddrIs6 addrs group = Done r ->
  forall a, In a r -> exists b, ParseAddrIs6 (ToAddr a) = Some b.
Proof.
  intros Hr a Ha. apply selectAddr_Done in Hr. destruct Hr as [_ ->].
  exact (isSelectable_parses _ _ (spec_selectAddr_selectable _ _ _ Ha)).
Qed.








(** *** Filters and status in the three variants *)

(** When the label phase hands on a candidate, it has left [data] and the
    metrics as they were. *)
Lemma getTargetsByInterfaceTag_labels_state (group : Group) (st st1 : loopState)
    (iface : Interface) (dev : Device) (labels : gmap string string) :
  getTargetsByInterfaceTag_labels group st iface = Done (Assembled dev labels st1) ->
  data st1 = data st /\ metrics st1 = metrics st.
Proof.
  unfold getTargetsByInterfaceTag_labels.
  destruct (Interface_Device iface) as [d|]; cbn [deref mbind outcome_bind]; [|congruence].
  destruct (negb _ || negb _); [congruence|].
  destruct (generateCustomFieldLabels (Device_CustomFields d)) as [[l1 e1]|];
    cbn [mbind outcome_bind]; [|congruence].
  destruct (bool_decide (is_Some e1)); [congruence|].
  destruct (generateCustomFieldLabels (Interface_CustomFields iface)) as [[l2 e2]|];
    cbn [mbind outcome_bind]; [|congruence].
  destruct (bool_decide (is_Some e2)); [congruence|].
  intros H. inversion H; subst. destruct (IsVirtual dev); auto.
Qed.

Lemma service_filter_mismatch (group : Group) (st st1 : loopState) (serv : Service)
    (dev : Device) (labels : gmap string string) :
  getTargetsByService_labels group st serv = Done (Assembled dev labels st1) ->
  FiltersMatch group {| Targets := []; Labels := labels; Source := "netbox_sd" |} = false ->
  getTargetsByService_body ParseAddrIs6 group st serv =
  Done (recordState group dev TargetSkippedNotMatchingFilters st1).
Proof.
  intros Hlab Hfil. unfold getTargetsByService_body. rewrite Hlab. cbn [mbind outcome_bind].
  rewrite Hfil. reflexivity.
Qed.

Lemma device_filter_mismatch (group : Group) (st st1 : loopState) (d dev : Device)
    (labels : gmap string string) :
  getTargetsByDeviceTag_labels group st d = Done (Assembled dev labels st1) ->
  FiltersMatch group {| Targets := []; Labels := labels; Source := "netbox_sd" |} = false ->
  getTargetsByDeviceTag_body ParseAddrIs6 group st d =
  Done (recordState group dev TargetSkippedNotMatchingFilters st1).
Proof.
  intros Hlab Hfil. unfold getTargetsByDeviceTag_body. rewrite Hlab. cbn [mbind outcome_bind].
  rewrite Hfil. reflexivity.
Qed.

(** The interface-tag variant drops the candidate as the other two do, but
    sets no target state: the metrics are those it started with. *)
Lemma interface_filter_mismatch (api : ClientIface) (group : Group) (st st1 : loopState)
    (iface : Interface) (dev : Device) (labels : gmap string string) :
  getTargetsByInterfaceTag_labels group st iface = Done (Assembled dev labels st1) ->
  FiltersMatch group {| Targets := []; Labels := labels; Source := "netbox_sd" |} = false ->
  getTargetsByInterfaceTag_body ParseAddrIs6 api group st iface = Done st1 /\
  data st1 = data st /\ metrics st1 = metrics st.
Proof.
  intros Hlab Hfil. split; [|exact (getTargetsByInterfaceTag_labels_state _ _ _ _ _ _ Hlab)].
  unfold getTargetsByInterfaceTag_body. rewrite Hlab. cbn [mbind outcome_bind].
  rewrite Hfil. reflexivity.
Qed.

(** The loop body on an interface whose enabled flag is off: the state of
    its device is set to skipped-bad-status and nothing else happens,
    whatever the status of the device. *)
Lemma getTargetsByInterfaceTag_body_disabled (api : ClientIface) (group : Group)
    (st : loopState) (iface : Interface) (dev : Device) :
  Interface_Device iface = Some dev ->
  Enabled iface = false ->
  getTargetsByInterfaceTag_body ParseAddrIs6 api group st iface =
  Done (recordState group dev TargetSkippedBadStatus st).
Proof.
  intros Hdev Hen. unfold getTargetsByInterfaceTag_body, getTargetsByInterfaceTag_labels.
  rewrite Hdev, Hen. cbn [deref mbind outcome_bind negb]. rewrite orb_true_r. reflexivity.
Qed.

(** ** The worker *)

Variable FS : Type.
Variable os_WriteFile : FS -> string -> string -> FS * option error.
Variable yaml_Marshal : list TargetGroup -> string + error.



(** A write that fails leaves the update-error counter as it was: the
    counter is only touched in the [else] of [if !failed], which was decided
    before the write. *)
Lemma worker_write_failure_not_counted (api : ClientIface) (group : Group) (tk : Ticks)
    (v : workerVars) (w : World FS) (t : list TargetGroup) (m' : Metrics)
    (data : string) (fs' : FS) (e : error) :
  assemble ParseAddrIs6 api group (world_metrics w) = Done (Some (inl t), m') ->
  yaml_Marshal t = inl data ->
  os_WriteFile (fs w) (File group) data = (fs', Some e) ->
  exists v' w',
    workerCycle ParseAddrIs6 FS os_WriteFile yaml_Marshal api group tk v w = Done (v', w') /\
    promUpdateError (world_metrics w') = promUpdateError m' /\
    failed v' = true /\ err v' = Some e /\ targets v' = t.
Proof.
  intros Hasm Hy Hw. unfold workerCycle. rewrite Hasm. cbn [mbind outcome_bind negb].
  rewrite Hy, Hw. cbn [mbind outcome_bind].
  eexists _, _. split; [reflexivity|]. cbn. repeat split; reflexivity.
Qed.

End Properties.

(** * The theorems at sample inputs *)

(** ** Address selection: the scenarios of the specification and of
       [TestSelectAddr] *)

Example selectAddr_all_inet6 :
  selectAddr sampleParseAddrIs6
    [Some (mkIP "2001:db8::1234" StatusIPActive); Some (mkIP "2001:db8::123" StatusIPActive);
     Some (mkIP "10.0.0.0" StatusIPActive); None]
    (mkGroup GroupTypeDeviceTag None (mkFlags true InetFamilyInet6 true) []) =
  Done [mkIP "2001:db8::1234" StatusIPActive; mkIP "2001:db8::123" StatusIPActive].
Proof. reflexivity. Qed.

Example selectAddr_family_mismatch :
  selectAddr sampleParseAddrIs6 [Some (mkIP "2001:db8::1234" StatusIPActive)]
    (mkGroup GroupTypeDeviceTag None (mkFlags true InetFamilyInet true) []) = Done [].
Proof. reflexivity. Qed.

Example selectAddr_first_inet :
  selectAddr sampleParseAddrIs6
    [Some (mkIP "2001:db8::1234" StatusIPActive); Some (mkIP "10.0.0.1" StatusIPDHCP);
     Some (mkIP "10.0.0.0" StatusIPActive)]
    (mkGroup GroupTypeDeviceTag None (mkFlags true InetFamilyInet false) []) =
  Done [mkIP "10.0.0.1" StatusIPDHCP].
Proof. reflexivity. Qed.

Example selectAddr_reserved_dropped :
  selectAddr sampleParseAddrIs6
    [Some (mkIP "2001:db8::4/64" StatusIPReserved); Some (mkIP "2001:db8::4/64" StatusIPDeprecated)]
    (mkGroup GroupTypeDeviceTag None (mkFlags true InetFamilyAny true) []) = Done [].
Proof. reflexivity. Qed.

Example ToAddr_test_table :
  map (fun literal => ToAddr (mkIP literal StatusIPActive))
    ["2001:db8::1/64"; "10.0.0.1/24"; "2001:db8::1"; "2001:db8::1/128"; "10.0.0.1/8"; "10.0.0.1"] =
  ["2001:db8::1"; "10.0.0.1"; "2001:db8::1"; "2001:db8::1"; "10.0.0.1"; "10.0.0.1"].
Proof. reflexivity. Qed.

(** C2 at an input: family [any], an IPv4 candidate ahead of two IPv6
    candidates; the first IPv6 candidate is the result. *)
Lemma selectAddr_one_address_witness :
  selectAddr sampleParseAddrIs6
    [Some (mkIP "10.0.0.1/24" StatusIPActive); Some (mkIP "2001:db8::1/64" StatusIPActive);
     Some (mkIP "2001:db8::2/64" StatusIPActive)]
    (mkGroup GroupTypeDeviceTag None (mkFlags true InetFamilyAny false) []) =
  Done [mkIP "2001:db8::1/64" StatusIPActive].
Proof.
  exact (proj1 (selectAddr_one_address sampleParseAddrIs6
                  [Some (mkIP "10.0.0.1/24" StatusIPActive);
                   Some (mkIP "2001:db8::1/64" StatusIPActive);
                   Some (mkIP "2001:db8::2/64" StatusIPActive)]
                  (mkGroup GroupTypeDeviceTag None (mkFlags true InetFamilyAny false) [])
                  eq_refl) eq_refl).
Defined.

(** C6 at the failing input: an active address whose literal is no IP
    address. *)
Lemma selectAddr_unknown_family_panics_witness :
  selectAddr sampleParseAddrIs6 [Some (mkIP "not-an-ip" StatusIPActive)]
    (mkGroup GroupTypeDeviceTag None (mkFlags true InetFamilyAny true) []) =
  Panicked "netip.ParseAddr: unable to parse IP".
Proof.
  apply (proj2 (selectAddr_unknown_family_panics sampleParseAddrIs6) _ _
           (mkIP "not-an-ip" StatusIPActive)).
  - left. reflexivity.
  - left. reflexivity.
  - intros H. vm_compute in H. discriminate H.
  - intros H. vm_compute in H. discriminate H.
Defined.

(** C7 at an input with a repeated literal, a reserved address and a null
    entry. *)
Lemma selectAddr_output_sound_witness :
  let addrs := [Some (mkIP "2001:db8::1/64" StatusIPDHCP);
                Some (mkIP "2001:db8::4/64" StatusIPReserved);
                None;
                Some (mkIP "2001:db8::1/64" StatusIPActive);
                Some (mkIP "10.0.0.1/24" StatusIPSLAAC)] in
  let group := mkGroup GroupTypeDeviceTag None (mkFlags true InetFamilyAny true) [] in
  let r := [mkIP "2001:db8::1/64" StatusIPDHCP; mkIP "10.0.0.1/24" StatusIPSLAAC] in
  selectAddr sampleParseAddrIs6 addrs group = Done r /\
  (forall a, In a r -> In (Some a) addrs /\ statusAccepted a) /\
  (AllAddresses (Group_Flags group) = true ->
   NoDup (map Address r) /\
   forall a, In a r ->
     List.find (fun x => String.eqb (Address x) (Address a))
       (List.filter (isSelectable sampleParseAddrIs6 group) (nonNull addrs)) = Some a).
Proof.
  intros addrs group r. split; [reflexivity|].
  exact (proj2 (selectAddr_output_sound sampleParseAddrIs6 addrs group) r eq_refl).
Defined.

(** C5 at an input: a filter on a label the target does not carry fails,
    negated or not. *)
Lemma FiltersMatch_conjunction_witness :
  FiltersMatch (mkGroup GroupTypeDeviceTag None (mkFlags true InetFamilyAny false) sampleFilters)
    (mkTarget [("netbox_foo", "bar"); ("netbox_foo2", "foo"); ("netbox_foo3", "123")]) = false.
Proof.
  apply (proj2 (proj2 (FiltersMatch_conjunction
                         (mkGroup GroupTypeDeviceTag None (mkFlags true InetFamilyAny false) sampleFilters)
                         (mkTarget [("netbox_foo", "bar"); ("netbox_foo2", "foo"); ("netbox_foo3", "123")])))
           {| Filter_Label := "netbox_foo4"; Filter_Match := "bar"; Negate := true;
              regex := containsStr "bar" |}).
  - cbn. tauto.
  - vm_compute. reflexivity.
Defined.

(** ** The assemblers *)



(** C8 at the failing input: one active device with an enabled interface,
    and a group whose only filter rejects it.  The interface-tag variant
    returns no target and sets no target state at all; the device-tag
    variant, on the same device and filter, sets the state
    skipped-not-matching-filters. *)
Theorem interface_filter_mismatch_unrecorded :
  let group := mkGroup GroupTypeInterfaceTag None (mkFlags true InetFamilyAny false) [rackFilter] in
  getTargetsByInterfaceTag sampleParseAddrIs6 sampleApi group noMetrics = Done (inl [], noMetrics) /\
  getTargetsByDeviceTag sampleParseAddrIs6 sampleApi group noMetrics =
    Done (inl [],
          SetTargetStatusMetric "targets.yml" (mkDevice "dev1" StatusDeviceActive ∅ false)
            TargetSkippedNotMatchingFilters noMetrics).
Proof. split; vm_compute; reflexivity. Qed.

(** ** The worker *)


(** C9 at the failing input: the assembler returns one target, the write
    fails.  The worker notes the failure in its own variables and keeps the
    target list, but the update-error counter of the group stays unset. *)
Theorem worker_write_failure_uncounted :
  let group := mkGroup GroupTypeDeviceTag None (mkFlags true InetFamilyAny false) [] in
  match workerIteration sampleParseAddrIs6 (gmap string string) failingWriteFile sampleMarshal
          sampleApi group sampleTicks sampleVars sampleWorld with
  | Done (v', w') =>
      failed v' = true /\ err v' = Some "permission denied" /\
      length (targets v') = 1%nat /\
      promUpdateError (world_metrics w') !! "targets.yml" = None
  | Panicked _ => False
  end.
Proof. vm_compute. repeat split. Qed.

(** * Further properties *)

(** ** Address literals *)

Lemma cidrRegexp_strip_bare (s : string) :
  (forall c, In c (list_ascii_of_string s) -> c <> "/"%char) ->
  cidrRegexp_strip s = s.
Proof.
  induction s as [|c r IH]; cbn [cidrRegexp_strip list_ascii_of_string]; [reflexivity|].
  intros H. destruct (Ascii.eqb c "/") eqn:E.
  - apply Ascii.eqb_eq in E. exfalso. apply (H c); [left; reflexivity | exact E].
  - cbn [andb]. rewrite IH; [reflexivity|]. intros d Hd. apply H. right. exact Hd.
Qed.

Lemma cidrRegexp_strip_mask (addr mask : string) :
  (forall c, In c (list_ascii_of_string addr) -> c <> "/"%char) ->
  allDigits mask = true -> (String.length mask <= 128)%nat ->
  cidrRegexp_strip (addr +:+ "/" +:+ mask) = addr.
Proof.
  intros Hbare Hd Hl. induction addr as [|c r IH].
  - change (cidrRegexp_strip (EmptyString +:+ "/" +:+ mask)) with
      (if Ascii.eqb "/" "/" && allDigits mask && (String.length mask <=? 128)%nat
       then EmptyString else String "/" (cidrRegexp_strip mask)).
    rewrite Hd. apply Nat.leb_le in Hl. rewrite Hl. reflexivity.
  - change (cidrRegexp_strip (String c r +:+ "/" +:+ mask)) with
      (if Ascii.eqb c "/" && allDigits (r +:+ "/" +:+ mask) &&
          (String.length (r +:+ "/" +:+ mask) <=? 128)%nat
       then EmptyString else String c (cidrRegexp_strip (r +:+ "/" +:+ mask))).
    cbn [list_ascii_of_string] in Hbare. destruct (Ascii.eqb c "/") eqn:E.
    + apply Ascii.eqb_eq in E. exfalso. apply (Hbare c); [left; reflexivity | exact E].
    + cbn [andb]. rewrite IH; [reflexivity|].
      intros d Hdd. apply Hbare. right. exact Hdd.
Qed.

Lemma cidrRegexp_strip_prefix (s : string) : String.prefix (cidrRegexp_strip s) s = true.
Proof.
  induction s as [|c r IH]; cbn [cidrRegexp_strip]; [reflexivity|].
  destruct (Ascii.eqb c "/" && allDigits r && (String.length r <=? 128)%nat); [reflexivity|].
  cbn [String.prefix]. destruct (ascii_dec c c) as [_|n]; [exact IH | contradiction].
Qed.

(** X1. [ToAddr] cuts the mask off an address in CIDR notation: for a
    literal made of a part without a slash, a slash and at most 128
    decimal digits, the result is the part before the slash. *)
Theorem ToAddr_strips_mask (ip : IP) (addr mask : string) :
  Address ip = addr +:+ "/" +:+ mask ->
  (forall c, In c (list_ascii_of_string addr) -> c <> "/"%char) ->
  allDigits mask = true -> (String.length mask <= 128)%nat ->
  ToAddr ip = addr.
Proof. intros H. unfold ToAddr. rewrite H. apply cidrRegexp_strip_mask. Qed.

(** X2. [ToAddr] only ever cuts at the end: its result is a prefix of the
    stored literal, and a literal without a slash is returned as it is. *)
Theorem ToAddr_prefix (ip : IP) :
  String.prefix (ToAddr ip) (Address ip) = true /\
  ((forall c, In c (list_ascii_of_string (Address ip)) -> c <> "/"%char) ->
   ToAddr ip = Address ip).
Proof.
  split; [apply cidrRegexp_strip_prefix | apply cidrRegexp_strip_bare].
Qed.

(** ** Address selection, continued *)

Section AddressSelection.

Variable ParseAddrIs6 : string -> option bool.

Lemma isCandidate_family (group : Group) (six : bool) (a : IP) :
  isCandidate ParseAddrIs6 group six a = true ->
  ParseAddrIs6 (ToAddr a) = Some six /\ familyWanted group six = true.
Proof.
  unfold isCandidate. destruct (statusSkipped a); [discriminate|]. cbn [negb andb].
  destruct (ParseAddrIs6 (ToAddr a)) as [b|]; [|discriminate].
  intros H. apply andb_true_iff in H. destruct H as [Hb Hw].
  apply Bool.eqb_prop in Hb. subst b. auto.
Qed.

(** X3. The family policy is honoured: under [inet] every selected address
    is of family 4, under [inet6] of family 6, and a policy that is none of
    [any], [inet] and [inet6] selects nothing. *)
Theorem selectAddr_family_policy (addrs : list (option IP)) (group : Group) (r : list IP) :
  selectAddr ParseAddrIs6 addrs group = Done r ->
  (InetFamily (Group_Flags group) = InetFamilyInet ->
   forall a, In a r -> Family ParseAddrIs6 a = Done 4%Z) /\
  (InetFamily (Group_Flags group) = InetFamilyInet6 ->
   forall a, In a r -> Family ParseAddrIs6 a = Done 6%Z) /\
  (InetFamily (Group_Flags group) <> InetFamilyAny ->
   InetFamily (Group_Flags group) <> InetFamilyInet ->
   InetFamily (Group_Flags group) <> InetFamilyInet6 -> r = []).
Proof.
  intros Hr. apply selectAddr_Done in Hr. destruct Hr as [_ ->].
  assert (Hsel : forall a, In a (spec_selectAddr ParseAddrIs6 group addrs) ->
            exists six, ParseAddrIs6 (ToAddr a) = Some six /\ familyWanted group six = true).
  { intros a Ha. apply spec_selectAddr_selectable in Ha. unfold isSelectable in Ha.
    apply orb_true_iff in Ha. destruct Ha as [Ha|Ha]; apply isCandidate_family in Ha; eauto. }
  split; [|split].
  - intros Hf a Ha. destruct (Hsel a Ha) as ([|] & Hp & Hw).
    + unfold familyWanted in Hw. rewrite Hf in Hw. discriminate Hw.
    + exact (Family_parsed _ _ _ Hp).
  - intros Hf a Ha. destruct (Hsel a Ha) as ([|] & Hp & Hw).
    + exact (Family_parsed _ _ _ Hp).
    + unfold familyWanted in Hw. rewrite Hf in Hw. discriminate Hw.
  - intros Hany Hinet Hinet6.
    destruct (spec_selectAddr ParseAddrIs6 group addrs) as [|a rest]; [reflexivity|].
    destruct (Hsel a (or_introl eq_refl)) as (six & _ & Hw). exfalso.
    unfold familyWanted in Hw. apply String.eqb_neq in Hany, Hinet, Hinet6.
    rewrite Hany, Hinet, Hinet6 in Hw. destruct six; discriminate Hw.
Qed.

(** X4. The selector returns the empty list exactly when no entry of the
    input passes the null, status and family checks. *)
Theorem selectAddr_empty_iff (addrs : list (option IP)) (group : Group) (r : list IP) :
  selectAddr ParseAddrIs6 addrs group = Done r ->
  (r = [] <-> forall a, In (Some a) addrs -> isSelectable ParseAddrIs6 group a = false).
Proof.
  intros Hr. apply selectAddr_Done in Hr. destruct Hr as [_ ->].
  unfold spec_selectAddr, spec_allChoices, spec_firstChoice.
  destruct (AllAddresses (Group_Flags group)).
  - split.
    + intros Hnil a Ha. apply fold_addNew_nil in Hnil. destruct Hnil as [Hnil _].
      destruct (isSelectable ParseAddrIs6 group a) eqn:E; [|reflexivity]. exfalso.
      assert (Hin : In a (List.filter (isSelectable ParseAddrIs6 group) (nonNull addrs))).
      { apply filter_In. split; [apply nonNull_In, Ha | exact E]. }
      rewrite Hnil in Hin. destruct Hin.
    + intros Hall.
      assert (Hf : List.filter (isSelectable ParseAddrIs6 group) (nonNull addrs) = []).
      { destruct (List.filter _ _) as [|x l] eqn:E; [reflexivity|]. exfalso.
        assert (Hx : In x (x :: l)) by (left; reflexivity). rewrite <- E in Hx.
        apply filter_In in Hx. destruct Hx as [Hx Hs].
        rewrite (Hall x (proj1 (nonNull_In _ _) Hx)) in Hs. discriminate Hs. }
      rewrite Hf. reflexivity.
  - split.
    + intros Hnil a Ha.
      destruct (List.find (isCandidate ParseAddrIs6 group true) _) eqn:H6; [discriminate|].
      destruct (List.find (isCandidate ParseAddrIs6 group false) _) eqn:H4; [discriminate|].
      unfold isSelectable.
      rewrite (find_none _ _ H6 a (proj2 (nonNull_In _ _) Ha)).
      rewrite (find_none _ _ H4 a (proj2 (nonNull_In _ _) Ha)). reflexivity.
    + intros Hall.
      destruct (List.find (isCandidate ParseAddrIs6 group true) _) as [a|] eqn:H6.
      { exfalso. apply find_some in H6. destruct H6 as [Hin Hc].
        specialize (Hall a (proj1 (nonNull_In _ _) Hin)). unfold isSelectable in Hall.
        rewrite Hc in Hall. discriminate Hall. }
      destruct (List.find (isCandidate ParseAddrIs6 group false) _) as [a|] eqn:H4; [|reflexivity].
      exfalso. apply find_some in H4. destruct H4 as [Hin Hc].
      specialize (Hall a (proj1 (nonNull_In _ _) Hin)). unfold isSelectable in Hall.
      rewrite Hc, orb_true_r in Hall. discriminate Hall.
Qed.

Lemma addrExists_app (a : IP) (l1 l2 : list IP) :
  addrExists a (l1 ++ l2) = addrExists a l1 || addrExists a l2.
Proof.
  induction l1 as [|h l1 IH]; cbn; [reflexivity|].
  destruct (String.eqb (Address h) (Address a)); [reflexivity | exact IH].
Qed.

Lemma fold_addNew_complete (l kept : list IP) (a : IP) :
  In a l \/ In a kept ->
  exists b, In b (fold_left addNew l kept) /\ Address b = Address a.
Proof.
  revert kept a. induction l as [|x l IH]; intros kept a [H|H]; cbn [fold_left].
  - destruct H.
  - exists a. auto.
  - destruct H as [->|H]; [|apply IH; left; exact H].
    unfold addNew at 2. destruct (addrExists a kept) eqn:E.
    + apply addrExists_true in E. destruct E as (h & Hh & He).
      destruct (IH kept h (or_intror Hh)) as (b & Hb & Hbe). exists b. split; [exact Hb | congruence].
    + apply IH. right. apply in_or_app. right. left. reflexivity.
  - apply IH. right. apply addNew_incl, H.
Qed.

Lemma fold_addNew_sublist (l kept : list IP) :
  exists l', fold_left addNew l kept = kept ++ l' /\ sublist l' l.
Proof.
  revert kept. induction l as [|x l IH]; intros kept; cbn [fold_left].
  - exists []. rewrite app_nil_r. split; [reflexivity | constructor].
  - unfold addNew at 2. destruct (addrExists x kept).
    + destruct (IH kept) as (l' & Heq & Hsub).
      exists l'. split; [exact Heq | apply sublist_cons, Hsub].
    + destruct (IH (kept ++ [x])) as (l' & Heq & Hsub).
      exists (x :: l'). rewrite Heq, <- app_assoc. split; [reflexivity | apply sublist_skip, Hsub].
Qed.

Lemma filter_sublist (f : IP -> bool) (l : list IP) : sublist (List.filter f l) l.
Proof.
  induction l as [|x l IH]; cbn; [constructor|].
  destruct (f x); [apply sublist_skip | apply sublist_cons]; exact IH.
Qed.

(** X5. With [AllAddresses] on, the result is a subsequence of the non-null
    input entries (nothing is invented, the order is kept), and every entry
    that passes the checks is represented by an entry with its literal. *)
Theorem selectAddr_all_complete (addrs : list (option IP)) (group : Group) (r : list IP) :
  AllAddresses (Group_Flags group) = true ->
  selectAddr ParseAddrIs6 addrs group = Done r ->
  sublist r (nonNull addrs) /\
  forall a, In (Some a) addrs -> isSelectable ParseAddrIs6 group a = true ->
    exists b, In b r /\ Address b = Address a.
Proof.
  intros Hall Hr. apply selectAddr_Done in Hr. destruct Hr as [_ ->].
  unfold spec_selectAddr. rewrite Hall. unfold spec_allChoices. split.
  - destruct (fold_addNew_sublist (List.filter (isSelectable ParseAddrIs6 group) (nonNull addrs)) [])
      as (l' & -> & Hsub). cbn [app]. etransitivity; [exact Hsub | apply filter_sublist].
  - intros a Ha Hs. apply fold_addNew_complete. left. apply filter_In.
    split; [apply nonNull_In, Ha | exact Hs].
Qed.

Lemma nonNull_map_Some (l : list IP) : nonNull (map Some l) = l.
Proof.
  induction l as [|x l IH]; [reflexivity|].
  change (nonNull (map Some (x :: l))) with (x :: nonNull (map Some l)). rewrite IH. reflexivity.
Qed.

Lemma filter_all_true (f : IP -> bool) (l : list IP) :
  (forall a, In a l -> f a = true) -> List.filter f l = l.
Proof.
  induction l as [|x l IH]; intros H; cbn; [reflexivity|].
  rewrite (H x (or_introl eq_refl)), IH; [reflexivity|]. intros a Ha. apply H. right. exact Ha.
Qed.

Lemma addrExists_false_NoDup (x : IP) (kept : list IP) :
  addrExists x kept = false -> NoDup (map Address kept) -> NoDup (map Address (kept ++ [x])).
Proof.
  intros E H. rewrite map_app. cbn. apply NoDup_app. split; [assumption|].
  split; [|apply NoDup_singleton].
  intros s Hs Hx. apply list_elem_of_In in Hs. apply list_elem_of_singleton in Hx. subst s.
  apply in_map_iff in Hs. destruct Hs as (h & He & Hh).
  assert (addrExists x kept = true); [|congruence]. apply addrExists_true. exists h. auto.
Qed.

Lemma fold_addNew_distinct (l kept : list IP) :
  NoDup (map Address (kept ++ l)) -> fold_left addNew l kept = kept ++ l.
Proof.
  revert kept. induction l as [|x l IH]; intros kept H; cbn [fold_left].
  - rewrite app_nil_r. reflexivity.
  - assert (E : addrExists x kept = false).
    { destruct (addrExists x kept) eqn:E; [|reflexivity]. exfalso.
      apply addrExists_true in E. destruct E as (h & Hh & He).
      rewrite map_app in H. apply NoDup_app in H. destruct H as (_ & Hd & _).
      apply (Hd (Address x)).
      - apply list_elem_of_In, in_map_iff. exists h. auto.
      - cbn. left. }
    unfold addNew at 2. rewrite E. rewrite IH; rewrite <- app_assoc; [reflexivity | exact H].
Qed.

(** X6. Selecting again from a selection changes nothing. *)
Theorem selectAddr_idempotent (addrs : list (option IP)) (group : Group) (r : list IP) :
  selectAddr ParseAddrIs6 addrs group = Done r ->
  selectAddr ParseAddrIs6 (map Some r) group = Done r.
Proof.
  intros Hr. pose proof (selectAddr_parses _ _ _ _ Hr) as Hparse.
  pose proof (selectAddr_Done _ _ _ _ Hr) as [_ Hspec].
  assert (Hsel : forall a, In a r -> isSelectable ParseAddrIs6 group a = true).
  { intros a Ha. rewrite Hspec in Ha. exact (spec_selectAddr_selectable _ _ _ _ Ha). }
  rewrite selectAddr_cases.
  assert (Hlp : literalsParse ParseAddrIs6 (map Some r) = true).
  { unfold literalsParse. rewrite nonNull_map_Some. apply forallb_forall. intros a Ha.
    unfold literalParses. destruct (Hparse a Ha) as [b ->]. apply orb_true_r. }
  rewrite Hlp. f_equal. clear Hlp Hparse Hr.
  unfold spec_selectAddr, spec_allChoices, spec_firstChoice in *.
  rewrite nonNull_map_Some. destruct (AllAddresses (Group_Flags group)).
  - rewrite (filter_all_true _ _ Hsel). apply (fold_addNew_distinct r []). cbn [app].
    rewrite Hspec. apply fold_addNew_NoDup. constructor.
  - destruct (List.find (isCandidate ParseAddrIs6 group true) (nonNull addrs)) as [a|] eqn:H6.
    { subst r. apply find_some in H6. destruct H6 as [_ Hc]. cbn [List.find]. rewrite Hc.
      reflexivity. }
    destruct (List.find (isCandidate ParseAddrIs6 group false) (nonNull addrs)) as [a|] eqn:H4.
    { subst r. apply find_some in H4. destruct H4 as [_ Hc]. cbn [List.find]. rewrite Hc.
      destruct (isCandidate ParseAddrIs6 group true a) eqn:Hc6; [|reflexivity].
      apply isCandidate_family in Hc, Hc6. destruct Hc as [Hc _], Hc6 as [Hc6 _]. congruence. }
    subst r. reflexivity.
Qed.

Lemma find_pointwise (f g : IP -> bool) (l : list IP) :
  (forall x, f x = g x) -> List.find f l = List.find g l.
Proof.
  intros H. induction l as [|x l IH]; cbn; [reflexivity|]. rewrite H, IH. reflexivity.
Qed.

Lemma find_candidate_first_literal (group : Group) (six : bool) (l : list IP) (a : IP) :
  List.find (isCandidate ParseAddrIs6 group six) l = Some a ->
  List.find (fun x => String.eqb (Address x) (Address a))
    (List.filter (isSelectable ParseAddrIs6 group) l) = Some a.
Proof.
  induction l as [|x l IH]; cbn [List.find List.filter]; [discriminate|].
  destruct (isCandidate ParseAddrIs6 group six x) eqn:Hx.
  - intros H. inversion H; subst x.
    assert (Hs : isSelectable ParseAddrIs6 group a = true).
    { unfold isSelectable. destruct six; rewrite Hx; [reflexivity | apply orb_true_r]. }
    rewrite Hs. cbn [List.find]. rewrite String.eqb_refl. reflexivity.
  - intros H. specialize (IH H).
    destruct (isSelectable ParseAddrIs6 group x) eqn:Hs; [|exact IH].
    cbn [List.find]. destruct (String.eqb (Address x) (Address a)) eqn:E; [|exact IH].
    exfalso. apply String.eqb_eq in E.
    apply find_some in H. destruct H as [_ Ha]. apply isCandidate_family in Ha.
    destruct Ha as [Ha _].
    unfold isSelectable in Hs. apply orb_true_iff in Hs.
    assert (Hp : ParseAddrIs6 (ToAddr x) = ParseAddrIs6 (ToAddr a)).
    { unfold ToAddr. rewrite E. reflexivity. }
    destruct Hs as [Hs|Hs]; pose proof (proj1 (isCandidate_family _ _ _ Hs)) as Hpx;
      destruct six; congruence.
Qed.

Lemma fold_addNew_keeps_first (l kept : list IP) (a : IP) :
  List.find (fun x => String.eqb (Address x) (Address a)) l = Some a ->
  addrExists a kept = false ->
  In a (fold_left addNew l kept).
Proof.
  revert kept. induction l as [|x l IH]; intros kept; cbn [List.find fold_left]; [discriminate|].
  destruct (String.eqb (Address x) (Address a)) eqn:E.
  - intros H Hk. inversion H; subst x. apply fold_addNew_incl. unfold addNew. rewrite Hk.
    apply in_or_app. right. left. reflexivity.
  - intros H Hk. apply IH; [exact H|]. unfold addNew. destruct (addrExists x kept); [exact Hk|].
    rewrite addrExists_app, Hk. cbn. rewrite E. reflexivity.
Qed.

(** X7. Under the same family policy, the address chosen with
    [AllAddresses] off is among those chosen with [AllAddresses] on. *)
Theorem selectAddr_single_in_all (addrs : list (option IP)) (one all : Group) (r1 rAll : list IP) :
  InetFamily (Group_Flags one) = InetFamily (Group_Flags all) ->
  AllAddresses (Group_Flags one) = false ->
  AllAddresses (Group_Flags all) = true ->
  selectAddr ParseAddrIs6 addrs one = Done r1 ->
  selectAddr ParseAddrIs6 addrs all = Done rAll ->
  forall a, In a r1 -> In a rAll.
Proof.
  intros Hfam Hone Hall H1 HA a Ha.
  apply selectAddr_Done in H1, HA. destruct H1 as [_ ->], HA as [_ ->].
  unfold spec_selectAddr in *. rewrite Hone in Ha. rewrite Hall.
  assert (Hcand : forall six x, isCandidate ParseAddrIs6 one six x = isCandidate ParseAddrIs6 all six x).
  { intros six x. unfold isCandidate, familyWanted. rewrite Hfam. reflexivity. }
  assert (Hfirst : exists six, List.find (isCandidate ParseAddrIs6 all six) (nonNull addrs) = Some a).
  { unfold spec_firstChoice in Ha.
    destruct (List.find (isCandidate ParseAddrIs6 one true) _) as [b|] eqn:H6.
    - destruct Ha as [<-|[]]. exists true. rewrite <- H6. apply find_pointwise. intros x. symmetry. apply Hcand.
    - destruct (List.find (isCandidate ParseAddrIs6 one false) _) as [b|] eqn:H4; [|destruct Ha].
      destruct Ha as [<-|[]]. exists false. rewrite <- H4. apply find_pointwise. intros x. symmetry. apply Hcand. }
  destruct Hfirst as [six Hf]. unfold spec_allChoices.
  apply fold_addNew_keeps_first; [|reflexivity].
  exact (find_candidate_first_literal _ _ _ _ Hf).
Qed.

End AddressSelection.

(** ** Targets and custom-field labels *)

Section Endpoints.

Variable ParseAddrIs6 : string -> option bool.

Lemma convertToTargets_body_spec (port : option Z) (acc : list (gmap string string)) (ip : IP) :
  (port = None \/ exists b, ParseAddrIs6 (ToAddr ip) = Some b) ->
  convertToTargets_body ParseAddrIs6 port acc ip =
  Done (acc ++ [spec_target ParseAddrIs6 port ip]).
Proof.
  unfold convertToTargets_body, spec_target, spec_endpoint. destruct port as [p|].
  - intros [H|[b Hb]]; [discriminate|]. rewrite (Family_parsed _ _ _ Hb), Hb.
    destruct b; reflexivity.
  - reflexivity.
Qed.

Lemma foldM_convertToTargets (port : option Z) (ips : list IP) :
  (port = None \/ forall a, In a ips -> exists b, ParseAddrIs6 (ToAddr a) = Some b) ->
  forall acc,
    foldM (convertToTargets_body ParseAddrIs6 port) ips acc =
    Done (acc ++ map (spec_target ParseAddrIs6 port) ips).
Proof.
  induction ips as [|ip rest IH]; intros H acc; cbn [foldM map].
  - rewrite app_nil_r. reflexivity.
  - rewrite convertToTargets_body_spec.
    + cbn [mbind outcome_bind]. rewrite IH, <- app_assoc; [reflexivity|].
      destruct H as [H|H]; [left; exact H | right; intros a Ha; apply H; right; exact Ha].
    + destruct H as [H|H]; [left; exact H | right; apply H; left; reflexivity].
Qed.

(** X8. [convertToTargets] yields one target per address, in order: the
    bare address without a port, [host:port] or [[v6]:port] with one.
    Without a port the literals are never parsed, so the call cannot panic;
    with a port it returns whenever every literal parses. *)
Theorem convertToTargets_map (ips : list IP) (port : option Z) :
  (port = None \/ forall a, In a ips -> exists b, ParseAddrIs6 (ToAddr a) = Some b) ->
  convertToTargets ParseAddrIs6 ips port = Done (map (spec_target ParseAddrIs6 port) ips).
Proof.
  intros H. unfold convertToTargets. rewrite (foldM_convertToTargets _ _ H). reflexivity.
Qed.

Lemma foldM_cons {A S : Type} (f : S -> A -> outcome S) (x : A) (l : list A) (s : S) :
  foldM f (x :: l) s = (s' ← f s x; foldM f l s').
Proof. reflexivity. Qed.

Lemma outcome_bind_Done {A : Type} (m : outcome A) : (m ≫= fun a => Done a) = m.
Proof. destruct m; reflexivity. Qed.

Lemma serviceEndpoint_is_convertToTargets_body (ip : IP) (acc : list (gmap string string)) (p : Z) :
  foldM (serviceEndpoint ParseAddrIs6 ip) [p] acc =
  convertToTargets_body ParseAddrIs6 (Some p) acc ip.
Proof.
  cbn [foldM]. unfold serviceEndpoint, convertToTargets_body.
  destruct (Family ParseAddrIs6 ip) as [fam|msg]; cbn [mbind outcome_bind]; [|reflexivity].
  destruct (fam =? 4)%Z; reflexivity.
Qed.

(** X9. The nested loops of the service variant over a single port build
    the very targets [convertToTargets] builds for that port, panics
    included. *)
Theorem serviceEndpoints_one_port (ips : list IP) (p : Z) :
  serviceEndpoints ParseAddrIs6 ips [p] = convertToTargets ParseAddrIs6 ips (Some p).
Proof.
  unfold serviceEndpoints, convertToTargets. generalize (@nil (gmap string string)).
  induction ips as [|ip rest IH]; intros acc; [reflexivity|].
  rewrite (foldM_cons (convertToTargets_body ParseAddrIs6 (Some p))).
  rewrite (foldM_cons (fun targets ip => foldM (serviceEndpoint ParseAddrIs6 ip) [p] targets)).
  cbn beta. rewrite serviceEndpoint_is_convertToTargets_body.
  destruct (convertToTargets_body ParseAddrIs6 (Some p) acc ip); cbn [mbind outcome_bind];
    [apply IH | reflexivity].
Qed.

End Endpoints.

(** ** Custom fields *)

Lemma cfCallback_step (allLabels : gmap string string) (key : string) (cf : CustomField)
    (labels : gmap string string) (gotError : option error) :
  cfCallback (allLabels, None) (key, cf) = Done (labels, gotError) ->
  gotError = None /\
  labels = match spec_cfLabel cf with
           | Some v => <["netbox_" +:+ key := v]> allLabels
           | None => allLabels
           end.
Proof.
  unfold spec_cfLabel, cfCallback, AsString, AsFloat, AsBool, Merge.
  destruct (String.eqb (Datatype cf) CustomFieldText).
  { destruct (Value cf); cbn [negb mbind outcome_bind]; intros H; inversion H.
    rewrite insert_union_singleton_l. auto. }
  destruct (String.eqb (Datatype cf) CustomFieldNumber).
  { destruct (Value cf); cbn [negb mbind outcome_bind]; intros H; inversion H.
    rewrite insert_union_singleton_l. auto. }
  destruct (String.eqb (Datatype cf) CustomFieldBool).
  { destruct (Value cf); cbn [negb mbind outcome_bind]; intros H; inversion H.
    rewrite insert_union_singleton_l. auto. }
  intros H; inversion H. rewrite (left_id_L ∅ (∪)). auto.
Qed.

Lemma foldM_cfCallback_labels (entries : list (string * CustomField)) :
  NoDup (map fst entries) ->
  forall allLabels labels gotError,
    foldM cfCallback entries (allLabels, None) = Done (labels, gotError) ->
    gotError = None /\
    (forall key cf, In (key, cf) entries ->
       labels !! ("netbox_" +:+ key) =
       match spec_cfLabel cf with Some v => Some v | None => allLabels !! ("netbox_" +:+ key) end) /\
    (forall l, (forall key cf, In (key, cf) entries -> l <> "netbox_" +:+ key) ->
               labels !! l = allLabels !! l).
Proof.
  induction entries as [|[k0 cf0] rest IH]; intros Hnd allLabels labels gotError; cbn [foldM].
  - intros H. inversion H; subst. split; [reflexivity|]. split; [intros ? ? []|reflexivity].
  - destruct (cfCallback (allLabels, None) (k0, cf0)) as [[l1 e1]|msg] eqn:E;
      cbn [mbind outcome_bind]; [|discriminate].
    apply cfCallback_step in E. destruct E as [-> Hl1].
    cbn [map fst] in Hnd. apply NoDup_cons in Hnd. destruct Hnd as [Hk0 Hnd].
    intros Hrun. destruct (IH Hnd _ _ _ Hrun) as (He & Hin & Hout).
    split; [exact He|]. split.
    + intros key cf [Heq|Hrest].
      * inversion Heq; subst key cf. rewrite Hout.
        -- rewrite Hl1. destruct (spec_cfLabel cf0) as [v|] eqn:Hv;
             [apply lookup_insert_eq | reflexivity].
        -- intros key cf Hkc Heqk. apply netbox_prefix_inj in Heqk. subst key.
           apply Hk0. apply list_elem_of_In. apply in_map_iff. exists (k0, cf). auto.
      * rewrite (Hin key cf Hrest). destruct (spec_cfLabel cf); [reflexivity|].
        rewrite Hl1. destruct (spec_cfLabel cf0); [|reflexivity].
        apply lookup_insert_ne. intros Heqk. apply netbox_prefix_inj in Heqk. subst key.
        apply Hk0. apply list_elem_of_In. apply in_map_iff. exists (k0, cf). auto.
    + intros l Hl. rewrite Hout.
      * rewrite Hl1. destruct (spec_cfLabel cf0); [|reflexivity].
        apply lookup_insert_ne. intros Heq. exact (Hl k0 cf0 (or_introl eq_refl) (eq_sym Heq)).
      * intros key cf Hkc. apply (Hl key cf). right. exact Hkc.
Qed.

(** X10. Whenever [generateCustomFieldLabels] returns, its error is nil,
    every field has under its name prefixed with [netbox_] the text it
    converts to (and no label if its data type is none of the three known
    ones), and every label comes from such a field. *)
Theorem generateCustomFieldLabels_labels (cfm : gmap string CustomField)
    (labels : gmap string string) (gotError : option error) :
  generateCustomFieldLabels cfm = Done (labels, gotError) ->
  gotError = None /\
  (forall key cf, cfm !! key = Some cf -> labels !! ("netbox_" +:+ key) = spec_cfLabel cf) /\
  (forall l v, labels !! l = Some v ->
     exists key cf, l = "netbox_" +:+ key /\ cfm !! key = Some cf /\ spec_cfLabel cf = Some v).
Proof.
  unfold generateCustomFieldLabels. intros Hrun.
  destruct (foldM_cfCallback_labels (map_to_list cfm) (NoDup_fst_map_to_list cfm) _ _ _ Hrun)
    as (He & Hin & Hout).
  split; [exact He|]. split.
  - intros key cf Hkc. rewrite (Hin key cf).
    + rewrite lookup_empty. destruct (spec_cfLabel cf); reflexivity.
    + apply list_elem_of_In, elem_of_map_to_list, Hkc.
  - intros l v Hl.
    destruct (List.find (fun e => String.eqb l ("netbox_" +:+ fst e)) (map_to_list cfm))
      as [[key cf]|] eqn:Hf.
    + apply find_some in Hf. destruct Hf as [Hkc He']. apply String.eqb_eq in He'.
      cbn [fst] in He'. subst l. exists key, cf. split; [reflexivity|].
      split; [apply elem_of_map_to_list, list_elem_of_In, Hkc|].
      rewrite (Hin key cf Hkc), lookup_empty in Hl. destruct (spec_cfLabel cf); congruence.
    + exfalso. rewrite Hout in Hl; [rewrite lookup_empty in Hl; discriminate|].
      intros key cf Hkc Heq. apply (find_none _ _ Hf) in Hkc. cbn [fst] in Hkc.
      rewrite Heq, String.eqb_refl in Hkc. discriminate.
Qed.

(** ** Custom fields from JSON *)

Lemma customFieldOf_spec (val : jsonValue) :
  customFieldOf val =
  if isComposite val then Some (inr ErrCFMUnsupportedDataType)
  else match spec_customField val with Some cf => Some (inl cf) | None => None end.
Proof. destruct val; reflexivity. Qed.

Lemma UnmarshalJSON_loop_ok (tmp : list (string * jsonValue)) :
  NoDup (map fst tmp) ->
  (forall key val, In (key, val) tmp -> isComposite val = false) ->
  forall entries, exists entries',
    UnmarshalJSON_loop tmp entries = (entries', None) /\
    (forall key val, In (key, val) tmp ->
       entries' !! key = match spec_customField val with
                         | Some cf => Some cf
                         | None => entries !! key
                         end) /\
    (forall key, (forall val, ~ In (key, val) tmp) -> entries' !! key = entries !! key).
Proof.
  induction tmp as [|[k0 v0] rest IH]; intros Hnd Hsup entries; cbn [UnmarshalJSON_loop].
  - exists entries. split; [reflexivity|]. split; [intros ? ? []|reflexivity].
  - cbn [map fst] in Hnd. apply NoDup_cons in Hnd. destruct Hnd as [Hk0 Hnd].
    assert (Hk0' : forall val, ~ In (k0, val) rest).
    { intros val Hin. apply Hk0, list_elem_of_In, in_map_iff. exists (k0, val). auto. }
    rewrite customFieldOf_spec, (Hsup k0 v0 (or_introl eq_refl)).
    destruct (spec_customField v0) as [cf0|] eqn:Hv0.
    + destruct (IH Hnd (fun key val H => Hsup key val (or_intror H)) (<[k0 := cf0]> entries))
        as (entries' & Hrun & Hin & Hout).
      exists entries'. split; [exact Hrun|]. split.
      * intros key val [Heq|Hrest].
        -- inversion Heq; subst key val. rewrite Hv0, (Hout k0 Hk0'). apply lookup_insert_eq.
        -- rewrite (Hin key val Hrest). destruct (spec_customField val); [reflexivity|].
           apply lookup_insert_ne. intros <-. exact (Hk0' val Hrest).
      * intros key Hkey. rewrite Hout.
        -- apply lookup_insert_ne. intros <-. apply (Hkey v0). left. reflexivity.
        -- intros val Hin'. apply (Hkey val). right. exact Hin'.
    + destruct (IH Hnd (fun key val H => Hsup key val (or_intror H)) entries)
        as (entries' & Hrun & Hin & Hout).
      exists entries'. split; [exact Hrun|]. split.
      * intros key val [Heq|Hrest].
        -- inversion Heq; subst key val. rewrite Hv0. apply Hout, Hk0'.
        -- apply Hin, Hrest.
      * intros key Hkey. apply Hout. intros val Hin'. apply (Hkey val). right. exact Hin'.
Qed.

Lemma UnmarshalJSON_loop_unsupported (tmp : list (string * jsonValue)) :
  (exists key val, In (key, val) tmp /\ isComposite val = true) ->
  forall entries, snd (UnmarshalJSON_loop tmp entries) = Some ErrCFMUnsupportedDataType.
Proof.
  induction tmp as [|[k0 v0] rest IH]; intros (key & val & Hin & Hc) entries.
  - destruct Hin.
  - cbn [UnmarshalJSON_loop]. rewrite customFieldOf_spec.
    destruct (isComposite v0) eqn:Hc0; [reflexivity|].
    assert (Hrest : exists key val, In (key, val) rest /\ isComposite val = true).
    { destruct Hin as [Heq|Hin]; [inversion Heq; subst; congruence | eauto]. }
    destruct (spec_customField v0); apply IH, Hrest.
Qed.

Section CustomFieldsFromJSON.

Variable json_Unmarshal : string -> gmap string jsonValue + error.

Lemma UnmarshalJSON_supported (old : gmap string CustomField) (b : string)
    (tmp : gmap string jsonValue) :
  json_Unmarshal b = inl tmp ->
  (forall key val, tmp !! key = Some val -> isComposite val = false) ->
  UnmarshalJSON json_Unmarshal old b = (omap spec_customField tmp, None).
Proof.
  intros Hj Hsup. unfold UnmarshalJSON. rewrite Hj.
  destruct (UnmarshalJSON_loop_ok (map_to_list tmp) (NoDup_fst_map_to_list tmp)) with (entries := (∅ : gmap string CustomField))
    as (entries' & Hrun & Hin & Hout).
  { intros key val Hkv. apply (Hsup key val), elem_of_map_to_list, list_elem_of_In, Hkv. }
  rewrite Hrun. f_equal. apply map_eq. intros key. rewrite lookup_omap.
  destruct (tmp !! key) as [val|] eqn:Hk.
  + rewrite (Hin key val); [|apply list_elem_of_In, elem_of_map_to_list, Hk].
    cbn. destruct (spec_customField val); [reflexivity | apply lookup_empty].
  + rewrite Hout; [apply lookup_empty|]. intros val Hkv.
    apply list_elem_of_In, elem_of_map_to_list in Hkv. congruence.
Qed.

Lemma UnmarshalJSON_unsupported (old : gmap string CustomField) (b : string)
    (tmp : gmap string jsonValue) :
  json_Unmarshal b = inl tmp ->
  (exists key val, tmp !! key = Some val /\ isComposite val = true) ->
  snd (UnmarshalJSON json_Unmarshal old b) = Some ErrCFMUnsupportedDataType.
Proof.
  intros Hj (key & val & Hk & Hc). unfold UnmarshalJSON. rewrite Hj.
  apply UnmarshalJSON_loop_unsupported.
  exists key, val. split; [apply list_elem_of_In, elem_of_map_to_list, Hk | exact Hc].
Qed.

(** X11. [UnmarshalJSON]: a text that does not decode leaves the entries as
    they were and returns the decoder's error; a decoded object without
    arrays and objects as values gives one typed field per non-null value
    and no error; an array or object among the values gives
    [ErrCFMUnsupportedDataType]. *)
Theorem UnmarshalJSON_entries (old : gmap string CustomField) (b : string) :
  match json_Unmarshal b with
  | inr e => UnmarshalJSON json_Unmarshal old b = (old, Some e)
  | inl tmp =>
      ((forall key val, tmp !! key = Some val -> isComposite val = false) ->
       UnmarshalJSON json_Unmarshal old b = (omap spec_customField tmp, None)) /\
      ((exists key val, tmp !! key = Some val /\ isComposite val = true) ->
       snd (UnmarshalJSON json_Unmarshal old b) = Some ErrCFMUnsupportedDataType)
  end.
Proof.
  destruct (json_Unmarshal b) as [tmp|e] eqn:Hj.
  - split; [apply UnmarshalJSON_supported | apply UnmarshalJSON_unsupported]; exact Hj.
  - unfold UnmarshalJSON. rewrite Hj. reflexivity.
Qed.







End CustomFieldsFromJSON.

(** ** Configuration *)

Section ConfigurationProperties.

Variable time_ParseDuration : string -> option Z.
Variable regexp_Compile : string -> (string -> bool) + string.
Variable os_ReadFile : string -> string + string.
Variable yaml_Unmarshal : string -> Config + string.

Lemma validateFilters_accepts (filters filters' : list FilterConfig) :
  validateFilters regexp_Compile filters = (filters', None) ->
  Forall (compiledFilter regexp_Compile) filters' /\
  Forall2 (fun f f' => cfg_Label f' = cfg_Label f /\ cfg_FilterMatch f' = cfg_FilterMatch f /\
                       cfg_Negate f' = cfg_Negate f) filters filters'.
Proof.
  revert filters'. induction filters as [|f rest IH]; intros filters'; cbn [validateFilters].
  - intros H. inversion H. split; constructor.
  - destruct (negb (String.prefix "netbox_" (cfg_Label f))) eqn:Hp; [discriminate|].
    destruct (regexp_Compile (cfg_FilterMatch f)) as [re|msg] eqn:Hc; [|discriminate].
    destruct (validateFilters regexp_Compile rest) as [rest' err] eqn:Hr.
    intros H. inversion H; subst. destruct (IH rest' eq_refl) as [Hall Hrel].
    split; constructor; auto.
    split; [apply negb_false_iff, Hp | exists re; auto].
Qed.

Lemma validateFilters_fixpoint (filters : list FilterConfig) :
  Forall (compiledFilter regexp_Compile) filters -> validateFilters regexp_Compile filters = (filters, None).
Proof.
  induction 1 as [|f rest [Hp (re & Hre & Hc)] _ IH]; cbn [validateFilters]; [reflexivity|].
  rewrite Hp, Hc, IH. cbn [negb]. destruct f; cbn in *. subst. reflexivity.
Qed.

Lemma validateGroup_inv (group group' : GroupConfig) (d : Z) :
  validateGroup time_ParseDuration regexp_Compile group d = (group', None) ->
  isEmpty (cfg_File group) = false /\ isEmpty (cfg_Type group) = false /\
  isEmpty (cfg_Match group) = false /\
  (cfg_Type group = GroupTypeService \/ cfg_Type group = GroupTypeDeviceTag \/
   cfg_Type group = GroupTypeInterfaceTag) /\
  (forall p, cfg_Port group = Some p -> (0 <= p <= 65535)%Z) /\
  validFamily (default InetFamilyAny (cfg_InetFamily (cfg_Flags group))) /\
  exists interval filters',
    (if isEmpty (cfg_GroupScanIntervalString group) then interval = d
     else time_ParseDuration (cfg_GroupScanIntervalString group) = Some interval) /\
    validateFilters regexp_Compile (cfg_Filters group) = (filters', None) /\
    group' =
      {| cfg_File := cfg_File group; cfg_Type := cfg_Type group; cfg_Match := cfg_Match group;
         cfg_GroupScanIntervalString := cfg_GroupScanIntervalString group;
         cfg_GroupScanInterval := interval;
         cfg_Labels := cfg_Labels group; cfg_Port := cfg_Port group;
         cfg_Flags :=
           {| cfg_IncludeVMs := Some (default true (cfg_IncludeVMs (cfg_Flags group)));
              cfg_InetFamily := Some (default InetFamilyAny (cfg_InetFamily (cfg_Flags group)));
              cfg_AllAddresses := Some (default false (cfg_AllAddresses (cfg_Flags group))) |};
         cfg_Filters := filters' |}.
Proof.
  unfold validateGroup.
  destruct (isEmpty (cfg_File group)) eqn:HF; [discriminate|].
  destruct (isEmpty (cfg_Type group)) eqn:HT; [discriminate|].
  destruct (isEmpty (cfg_Match group)) eqn:HM; [discriminate|]. cbn [orb].
  destruct (negb (String.eqb (cfg_Type group) GroupTypeService) &&
            negb (String.eqb (cfg_Type group) GroupTypeDeviceTag) &&
            negb (String.eqb (cfg_Type group) GroupTypeInterfaceTag)) eqn:Hty; [discriminate|].
  assert (HtyP : cfg_Type group = GroupTypeService \/ cfg_Type group = GroupTypeDeviceTag \/
                 cfg_Type group = GroupTypeInterfaceTag).
  { destruct (String.eqb (cfg_Type group) GroupTypeService) eqn:E1;
      [apply String.eqb_eq in E1; auto|].
    destruct (String.eqb (cfg_Type group) GroupTypeDeviceTag) eqn:E2;
      [apply String.eqb_eq in E2; auto|].
    destruct (String.eqb (cfg_Type group) GroupTypeInterfaceTag) eqn:E3;
      [apply String.eqb_eq in E3; auto|]. discriminate Hty. }
  intros H.
  assert (Hmain : exists interval,
    (if isEmpty (cfg_GroupScanIntervalString group) then interval = d
     else time_ParseDuration (cfg_GroupScanIntervalString group) = Some interval) /\
    (let group := withScanInterval group interval in
        if match cfg_Port group with
           | Some port => (port <? 0)%Z || (65535 <? port)%Z
           | None => false
           end
        then (group, Some (Sentinel ErrorBadPort))
        else
          let flags := cfg_Flags group in
          let flags :=
            match cfg_IncludeVMs flags with
            | None => {| cfg_IncludeVMs := Some true; cfg_InetFamily := cfg_InetFamily flags;
                         cfg_AllAddresses := cfg_AllAddresses flags |}
            | Some _ => flags
            end in
          match cfg_InetFamily flags with
          | Some family =>
              if negb (String.eqb family InetFamilyAny) &&
                 negb (String.eqb family InetFamilyInet) &&
                 negb (String.eqb family InetFamilyInet6)
              then (withFlags group flags, Some (Sentinel ErrorBadInetFamily))
              else
                let flags :=
                  match cfg_AllAddresses flags with
                  | None => {| cfg_IncludeVMs := cfg_IncludeVMs flags;
                               cfg_InetFamily := cfg_InetFamily flags;
                               cfg_AllAddresses := Some false |}
                  | Some _ => flags
                  end in
                let '(filters, err) := validateFilters regexp_Compile (cfg_Filters group) in
                (withFilters (withFlags group flags) filters, err)
          | None =>
              let flags := {| cfg_IncludeVMs := cfg_IncludeVMs flags;
                              cfg_InetFamily := Some InetFamilyAny;
                              cfg_AllAddresses := cfg_AllAddresses flags |} in
              let flags :=
                match cfg_AllAddresses flags with
                | None => {| cfg_IncludeVMs := cfg_IncludeVMs flags;
                             cfg_InetFamily := cfg_InetFamily flags;
                             cfg_AllAddresses := Some false |}
                | Some _ => flags
                end in
              let '(filters, err) := validateFilters regexp_Compile (cfg_Filters group) in
              (withFilters (withFlags group flags) filters, err)
          end) = (group', None)).
  { destruct (isEmpty (cfg_GroupScanIntervalString group)); cbn [negb] in H.
    - exists d. split; [reflexivity | exact H].
    - destruct (time_ParseDuration (cfg_GroupScanIntervalString group)) as [i|]; [|discriminate H].
      exists i. split; [reflexivity | exact H]. }
  clear H. destruct Hmain as (interval & Hint & H). cbv zeta in H.
  cbn [withScanInterval cfg_Port cfg_Flags cfg_Filters] in H.
  assert (Hport : forall p, cfg_Port group = Some p -> (0 <= p <= 65535)%Z /\ 
                   ((p <? 0)%Z || (65535 <? p)%Z) = false).
  { intros p Hp. rewrite Hp in H. destruct ((p <? 0)%Z || (65535 <? p)%Z) eqn:E; [discriminate H|].
    apply orb_false_iff in E. destruct E as [E1 E2]. apply Z.ltb_ge in E1, E2. auto. }
  assert (H' : (let flags := cfg_Flags group in
          let flags :=
            match cfg_IncludeVMs flags with
            | None => {| cfg_IncludeVMs := Some true; cfg_InetFamily := cfg_InetFamily flags;
                         cfg_AllAddresses := cfg_AllAddresses flags |}
            | Some _ => flags
            end in
          match cfg_InetFamily flags with
          | Some family =>
              if negb (String.eqb family InetFamilyAny) &&
                 negb (String.eqb family InetFamilyInet) &&
                 negb (String.eqb family InetFamilyInet6)
              then (withFlags (withScanInterval group interval) flags, Some (Sentinel ErrorBadInetFamily))
              else
                let flags :=
                  match cfg_AllAddresses flags with
                  | None => {| cfg_IncludeVMs := cfg_IncludeVMs flags;
                               cfg_InetFamily := cfg_InetFamily flags;
                               cfg_AllAddresses := Some false |}
                  | Some _ => flags
                  end in
                let '(filters, err) := validateFilters regexp_Compile (cfg_Filters group) in
                (withFilters (withFlags (withScanInterval group interval) flags) filters, err)
          | None =>
              let flags := {| cfg_IncludeVMs := cfg_IncludeVMs flags;
                              cfg_InetFamily := Some InetFamilyAny;
                              cfg_AllAddresses := cfg_AllAddresses flags |} in
              let flags :=
                match cfg_AllAddresses flags with
                | None => {| cfg_IncludeVMs := cfg_IncludeVMs flags;
                             cfg_InetFamily := cfg_InetFamily flags;
                             cfg_AllAddresses := Some false |}
                | Some _ => flags
                end in
              let '(filters, err) := validateFilters regexp_Compile (cfg_Filters group) in
              (withFilters (withFlags (withScanInterval group interval) flags) filters, err)
          end) = (group', None)).
  { destruct (cfg_Port group) as [p|]; [|exact H].
    rewrite (proj2 (Hport p eq_refl)) in H. exact H. }
  clear H. cbv zeta in H'.
  destruct (validateFilters regexp_Compile (cfg_Filters group)) as [filters' ferr] eqn:Hvf.
  split; [reflexivity|]. split; [reflexivity|]. split; [reflexivity|].
  split; [exact HtyP|]. split; [intros p Hp; apply (Hport p Hp)|]. split.
  - destruct (cfg_Flags group) as [vms fam all]; cbn in *.
    destruct fam as [family|]; [|left; reflexivity]. cbn.
    destruct vms; cbn in H';
    (destruct (String.eqb family InetFamilyAny) eqn:E1; [apply String.eqb_eq in E1; left; exact E1|];
     destruct (String.eqb family InetFamilyInet) eqn:E2; [apply String.eqb_eq in E2; right; left; exact E2|];
     destruct (String.eqb family InetFamilyInet6) eqn:E3; [apply String.eqb_eq in E3; right; right; exact E3|];
     discriminate H').
  - exists interval, filters'. split; [exact Hint|].
    destruct (cfg_Flags group) as [vms fam all] eqn:Hfl; cbn in *.
    destruct vms as [vms|], fam as [family|], all as [all|]; cbn in H';
      try (destruct (negb (String.eqb family InetFamilyAny) && negb (String.eqb family InetFamilyInet) &&
             negb (String.eqb family InetFamilyInet6)); [discriminate H'|]);
      inversion H'; subst; split; reflexivity.
Qed.

Lemma isEmpty_false (s : string) : isEmpty s = false -> s <> EmptyString.
Proof. unfold isEmpty. intros H. apply String.eqb_neq, H. Qed.

(** X14. A group that [validateGroup] accepts has a file, a match, one of
    the three group types, a port within 0..65535 if it has one, all three
    flags set with a known family, and every filter on a [netbox_] label
    with its expression compiled. *)
Theorem validateGroup_accepts (group group' : GroupConfig) (d : Z) :
  validateGroup time_ParseDuration regexp_Compile group d = (group', None) ->
  validGroup regexp_Compile group'.
Proof.
  intros H. apply validateGroup_inv in H.
  destruct H as (HF & HT & HM & Hty & Hport & Hfam & interval & filters' & Hint & Hvf & ->).
  unfold validGroup. cbn. split; [apply isEmpty_false, HF|]. split; [apply isEmpty_false, HM|].
  split; [exact Hty|]. split; [exact Hport|]. split; [eauto|].
  apply (validateFilters_accepts _ _ Hvf).
Qed.

(** X15. What [validateGroup] changes in a group it accepts: absent flags
    get their defaults (include VMs, family [any], one address), the scan
    interval is the parsed one of the group or else the global one; file,
    type, match, labels, port and the filters' label, match and negation
    stay as they were. *)
Theorem validateGroup_defaults (group group' : GroupConfig) (d : Z) :
  validateGroup time_ParseDuration regexp_Compile group d = (group', None) ->
  cfg_IncludeVMs (cfg_Flags group') = Some (default true (cfg_IncludeVMs (cfg_Flags group))) /\
  cfg_InetFamily (cfg_Flags group') =
    Some (default InetFamilyAny (cfg_InetFamily (cfg_Flags group))) /\
  cfg_AllAddresses (cfg_Flags group') = Some (default false (cfg_AllAddresses (cfg_Flags group))) /\
  (if isEmpty (cfg_GroupScanIntervalString group) then cfg_GroupScanInterval group' = d
   else time_ParseDuration (cfg_GroupScanIntervalString group) = Some (cfg_GroupScanInterval group')) /\
  cfg_File group' = cfg_File group /\ cfg_Type group' = cfg_Type group /\
  cfg_Match group' = cfg_Match group /\ cfg_Labels group' = cfg_Labels group /\
  cfg_Port group' = cfg_Port group /\
  map cfg_Label (cfg_Filters group') = map cfg_Label (cfg_Filters group) /\
  map cfg_FilterMatch (cfg_Filters group') = map cfg_FilterMatch (cfg_Filters group) /\
  map cfg_Negate (cfg_Filters group') = map cfg_Negate (cfg_Filters group).
Proof.
  intros H. apply validateGroup_inv in H.
  destruct H as (HF & HT & HM & Hty & Hport & Hfam & interval & filters' & Hint & Hvf & ->).
  cbn. repeat (split; [reflexivity || exact Hint|]).
  apply validateFilters_accepts in Hvf. destruct Hvf as [_ Hrel].
  induction Hrel as [|f f' l l' (H1 & H2 & H3) _ (IH1 & IH2 & IH3)]; cbn; [auto|].
  rewrite H1, H2, H3, IH1, IH2, IH3. auto.
Qed.

(** X16. Validating an accepted group again, with the same global
    interval, accepts it and changes nothing. *)
Theorem validateGroup_idempotent (group group' : GroupConfig) (d : Z) :
  validateGroup time_ParseDuration regexp_Compile group d = (group', None) ->
  validateGroup time_ParseDuration regexp_Compile group' d = (group', None).
Proof.
  intros H. apply validateGroup_inv in H.
  destruct H as (HF & HT & HM & Hty & Hport & Hfam & interval & filters' & Hint & Hvf & ->).
  unfold validateGroup. cbn [cfg_File cfg_Type cfg_Match cfg_GroupScanIntervalString].
  rewrite HF, HT, HM. cbn [orb].
  assert (Hty' : negb (String.eqb (cfg_Type group) GroupTypeService) &&
                 negb (String.eqb (cfg_Type group) GroupTypeDeviceTag) &&
                 negb (String.eqb (cfg_Type group) GroupTypeInterfaceTag) = false).
  { destruct Hty as [E|[E|E]]; rewrite E; reflexivity. }
  rewrite Hty'.
  assert (Hparsed :
    (if negb (isEmpty (cfg_GroupScanIntervalString group))
     then match time_ParseDuration (cfg_GroupScanIntervalString group) with
          | Some d0 => inl (withScanInterval
              {| cfg_File := cfg_File group; cfg_Type := cfg_Type group; cfg_Match := cfg_Match group;
                 cfg_GroupScanIntervalString := cfg_GroupScanIntervalString group;
                 cfg_GroupScanInterval := interval;
                 cfg_Labels := cfg_Labels group; cfg_Port := cfg_Port group;
                 cfg_Flags :=
                   {| cfg_IncludeVMs := Some (default true (cfg_IncludeVMs (cfg_Flags group)));
                      cfg_InetFamily := Some (default InetFamilyAny (cfg_InetFamily (cfg_Flags group)));
                      cfg_AllAddresses := Some (default false (cfg_AllAddresses (cfg_Flags group))) |};
                 cfg_Filters := filters' |} d0)
          | None => inr (withScanInterval
              {| cfg_File := cfg_File group; cfg_Type := cfg_Type group; cfg_Match := cfg_Match group;
                 cfg_GroupScanIntervalString := cfg_GroupScanIntervalString group;
                 cfg_GroupScanInterval := interval;
                 cfg_Labels := cfg_Labels group; cfg_Port := cfg_Port group;
                 cfg_Flags :=
                   {| cfg_IncludeVMs := Some (default true (cfg_IncludeVMs (cfg_Flags group)));
                      cfg_InetFamily := Some (default InetFamilyAny (cfg_InetFamily (cfg_Flags group)));
                      cfg_AllAddresses := Some (default false (cfg_AllAddresses (cfg_Flags group))) |};
                 cfg_Filters := filters' |} 0)
          end
     else inl (withScanInterval
              {| cfg_File := cfg_File group; cfg_Type := cfg_Type group; cfg_Match := cfg_Match group;
                 cfg_GroupScanIntervalString := cfg_GroupScanIntervalString group;
                 cfg_GroupScanInterval := interval;
                 cfg_Labels := cfg_Labels group; cfg_Port := cfg_Port group;
                 cfg_Flags :=
                   {| cfg_IncludeVMs := Some (default true (cfg_IncludeVMs (cfg_Flags group)));
                      cfg_InetFamily := Some (default InetFamilyAny (cfg_InetFamily (cfg_Flags group)));
                      cfg_AllAddresses := Some (default false (cfg_AllAddresses (cfg_Flags group))) |};
                 cfg_Filters := filters' |} d)) =
    inl {| cfg_File := cfg_File group; cfg_Type := cfg_Type group; cfg_Match := cfg_Match group;
           cfg_GroupScanIntervalString := cfg_GroupScanIntervalString group;
           cfg_GroupScanInterval := interval;
           cfg_Labels := cfg_Labels group; cfg_Port := cfg_Port group;
           cfg_Flags :=
             {| cfg_IncludeVMs := Some (default true (cfg_IncludeVMs (cfg_Flags group)));
                cfg_InetFamily := Some (default InetFamilyAny (cfg_InetFamily (cfg_Flags group)));
                cfg_AllAddresses := Some (default false (cfg_AllAddresses (cfg_Flags group))) |};
           cfg_Filters := filters' |}).
  { destruct (isEmpty (cfg_GroupScanIntervalString group)); cbn [negb].
    - subst interval. reflexivity.
    - rewrite Hint. reflexivity. }
  cbv zeta. rewrite Hparsed. cbn [cfg_Port cfg_Flags cfg_IncludeVMs cfg_InetFamily cfg_AllAddresses cfg_Filters].
  assert (Hp : match cfg_Port group with
               | Some port => (port <? 0)%Z || (65535 <? port)%Z
               | None => false
               end = false).
  { destruct (cfg_Port group) as [p|]; [|reflexivity]. destruct (Hport p eq_refl) as [H0 H1].
    apply orb_false_iff. split; apply Z.ltb_ge; assumption. }
  rewrite Hp.
  assert (Hf : negb (String.eqb (default InetFamilyAny (cfg_InetFamily (cfg_Flags group))) InetFamilyAny) &&
               negb (String.eqb (default InetFamilyAny (cfg_InetFamily (cfg_Flags group))) InetFamilyInet) &&
               negb (String.eqb (default InetFamilyAny (cfg_InetFamily (cfg_Flags group))) InetFamilyInet6) = false).
  { destruct Hfam as [E|[E|E]]; rewrite E; reflexivity. }
  rewrite Hf.
  rewrite (validateFilters_fixpoint _ (proj1 (validateFilters_accepts _ _ Hvf))).
  reflexivity.
Qed.

Lemma validateGroups_accepts (groups : list GroupConfig) (d : Z) :
  forall (knownFiles : gmap string Z) (i : nat) (groups' : list GroupConfig),
    validateGroups time_ParseDuration regexp_Compile groups d knownFiles i = inl groups' ->
    Forall2 (fun g g' => validateGroup time_ParseDuration regexp_Compile g d = (g', None))
      groups groups' /\
    NoDup (map cfg_File groups) /\
    (forall g, In g groups -> knownFiles !! cfg_File g = None).
Proof.
  induction groups as [|g rest IH]; intros knownFiles i groups'; cbn [validateGroups].
  - intros H. inversion H. split; [constructor|]. split; [constructor | intros ? []].
  - destruct (knownFiles !! cfg_File g) eqn:Hk; [discriminate|].
    destruct (validateGroup time_ParseDuration regexp_Compile g d) as [g' [e|]] eqn:Hv; [discriminate|].
    destruct (validateGroups time_ParseDuration regexp_Compile rest d _ (S i)) as [rest'|e] eqn:Hr;
      [|discriminate].
    intros H. inversion H; subst. destruct (IH _ _ _ Hr) as (Hrel & Hnd & Hfresh).
    split; [constructor; assumption|]. split.
    + cbn [map]. apply NoDup_cons. split; [|exact Hnd].
      intros Hin. apply list_elem_of_In, in_map_iff in Hin. destruct Hin as (g2 & Heq & Hin).
      specialize (Hfresh g2 Hin). rewrite Heq, lookup_insert_eq in Hfresh. discriminate.
    + intros g2 [<-|Hin]; [exact Hk|]. specialize (Hfresh g2 Hin).
      destruct (decide (cfg_File g = cfg_File g2)) as [Heq|Hne].
      * rewrite Heq, lookup_insert_eq in Hfresh. discriminate.
      * rewrite lookup_insert_ne in Hfresh; assumption.
Qed.

(** X17. A configuration that [readConfigFile] returns has a base URL
    starting with [https], a token, at least one group, its scan interval
    parsed, pairwise distinct group files, and only valid groups, each with
    its own or the global scan interval. *)
Theorem readConfigFile_accepts (file : string) (config : Config) :
  readConfigFile time_ParseDuration regexp_Compile os_ReadFile yaml_Unmarshal file = inl config ->
  String.prefix "https" (BaseURL config) = true /\
  Token config <> EmptyString /\
  Groups config <> [] /\
  time_ParseDuration (ScanIntervalString config) = Some (Config_ScanInterval config) /\
  NoDup (map cfg_File (Groups config)) /\
  Forall (fun g =>
            validGroup regexp_Compile g /\
            if isEmpty (cfg_GroupScanIntervalString g)
            then cfg_GroupScanInterval g = Config_ScanInterval config
            else time_ParseDuration (cfg_GroupScanIntervalString g) = Some (cfg_GroupScanInterval g))
         (Groups config).
Proof.
  unfold readConfigFile. destruct (isEmpty file); [discriminate|].
  destruct (os_ReadFile file) as [content|msg]; [|discriminate].
  destruct (yaml_Unmarshal content) as [parsed|msg]; [|discriminate].
  destruct (isEmpty (BaseURL parsed)) eqn:HB; [discriminate|].
  destruct (isEmpty (Token parsed)) eqn:HT; [discriminate|].
  destruct (isEmpty (ScanIntervalString parsed)) eqn:HS; [discriminate|].
  destruct (length (Groups parsed) =? 0)%nat eqn:HG; [discriminate|]. cbn [orb].
  destruct (negb (String.prefix "https" (BaseURL parsed))) eqn:HP; [discriminate|].
  destruct (time_ParseDuration (ScanIntervalString parsed)) as [d|] eqn:HD; [|discriminate].
  destruct (validateGroups time_ParseDuration regexp_Compile (Groups parsed) d ∅ 0)
    as [groups|e] eqn:HV; [|discriminate].
  intros H. inversion H; subst config; cbn. clear H.
  destruct (validateGroups_accepts _ _ _ _ _ HV) as (Hrel & Hnd & _).
  split; [apply negb_false_iff, HP|]. split; [apply isEmpty_false, HT|].
  split.
  { intros ->. inversion Hrel as [Hnil|]. rewrite <- Hnil in HG. discriminate HG. }
  split; [exact HD|]. split.
  - assert (Hfiles : map cfg_File groups = map cfg_File (Groups parsed)).
    { clear Hnd HV HG. induction Hrel as [|g g' l l' Hv _ IH]; cbn; [reflexivity|].
      apply validateGroup_inv in Hv.
      destruct Hv as (_ & _ & _ & _ & _ & _ & interval & filters' & _ & _ & ->).
      cbn. rewrite IH. reflexivity. }
    rewrite Hfiles. exact Hnd.
  - clear Hnd HV HG. induction Hrel as [|g g' l l' Hv _ IH]; constructor; [|exact IH].
    apply validateGroup_inv in Hv.
    destruct Hv as (HF & HT' & HM & Hty & Hport & Hfam & interval & filters' & Hint & Hvf & ->).
    unfold validGroup. cbn. split; [|exact Hint].
    split; [apply isEmpty_false, HF|]. split; [apply isEmpty_false, HM|].
    split; [exact Hty|]. split; [exact Hport|]. split; [eauto|].
    apply (validateFilters_accepts _ _ Hvf).
Qed.

Lemma validateFilters_error (filters filters' : list FilterConfig) (e : cfgError) :
  validateFilters regexp_Compile filters = (filters', Some e) ->
  (e = Sentinel ErrorBadFilterLabel /\
   exists f, In f filters /\ String.prefix "netbox_" (cfg_Label f) = false) \/
  (errorIs e ErrorBadFilterMatch = true /\
   exists f msg, In f filters /\ regexp_Compile (cfg_FilterMatch f) = inr msg).
Proof.
  revert filters'. induction filters as [|f rest IH]; intros filters'; cbn [validateFilters];
    [discriminate|].
  destruct (negb (String.prefix "netbox_" (cfg_Label f))) eqn:Hp.
  { intros H. inversion H. left. split; [reflexivity|]. exists f.
    split; [left; reflexivity | apply negb_true_iff, Hp]. }
  destruct (regexp_Compile (cfg_FilterMatch f)) as [re|msg] eqn:Hc.
  - destruct (validateFilters regexp_Compile rest) as [rest' err] eqn:Hr.
    intros H. inversion H; subst.
    destruct (IH rest' eq_refl) as [[He (f0 & Hin & Hf0)]|[He (f0 & msg & Hin & Hf0)]].
    + left. split; [exact He|]. exists f0. split; [right; exact Hin | exact Hf0].
    + right. split; [exact He|]. exists f0, msg. split; [right; exact Hin | exact Hf0].
  - intros H. inversion H. right. split; [reflexivity|]. exists f, msg.
    split; [left; reflexivity | exact Hc].
Qed.

(** X18. Every error of [validateGroup] names a defect the group has:
    a missing required value, an unknown type, a scan interval that does
    not parse, a port out of range, an unknown family, a filter label
    without the [netbox_] prefix, or a filter expression that does not
    compile. *)
Theorem validateGroup_error_sound (group group' : GroupConfig) (d : Z) (e : cfgError) :
  validateGroup time_ParseDuration regexp_Compile group d = (group', Some e) ->
  (e = Sentinel ErrorMissingRequired /\
   (cfg_File group = EmptyString \/ cfg_Type group = EmptyString \/
    cfg_Match group = EmptyString)) \/
  (e = Sentinel ErrorBadGroupType /\
   cfg_Type group <> GroupTypeService /\ cfg_Type group <> GroupTypeDeviceTag /\
   cfg_Type group <> GroupTypeInterfaceTag) \/
  (e = Sentinel ErrorBadScanInterval /\
   cfg_GroupScanIntervalString group <> EmptyString /\
   time_ParseDuration (cfg_GroupScanIntervalString group) = None) \/
  (e = Sentinel ErrorBadPort /\
   exists p, cfg_Port group = Some p /\ (p < 0 \/ 65535 < p)%Z) \/
  (e = Sentinel ErrorBadInetFamily /\
   exists family, cfg_InetFamily (cfg_Flags group) = Some family /\ ~ validFamily family) \/
  (e = Sentinel ErrorBadFilterLabel /\
   exists f, In f (cfg_Filters group) /\ String.prefix "netbox_" (cfg_Label f) = false) \/
  (errorIs e ErrorBadFilterMatch = true /\
   exists f msg, In f (cfg_Filters group) /\ regexp_Compile (cfg_FilterMatch f) = inr msg).
Proof.
  unfold validateGroup.
  destruct (isEmpty (cfg_File group) || isEmpty (cfg_Type group) || isEmpty (cfg_Match group))
    eqn:Hreq.
  { intros H. inversion H; subst. left. split; [reflexivity|].
    unfold isEmpty in Hreq. apply orb_true_iff in Hreq. destruct Hreq as [Hreq|Hreq].
    - apply orb_true_iff in Hreq. destruct Hreq as [Hreq|Hreq];
        apply String.eqb_eq in Hreq; tauto.
    - apply String.eqb_eq in Hreq; tauto. }
  destruct (negb (String.eqb (cfg_Type group) GroupTypeService) &&
            negb (String.eqb (cfg_Type group) GroupTypeDeviceTag) &&
            negb (String.eqb (cfg_Type group) GroupTypeInterfaceTag)) eqn:Hty.
  { intros H. inversion H; subst. right. left. split; [reflexivity|].
    apply andb_true_iff in Hty. destruct Hty as [Hty H3].
    apply andb_true_iff in Hty. destruct Hty as [H1 H2].
    apply negb_true_iff, String.eqb_neq in H1, H2, H3. auto. }
  cbv zeta.
  destruct (isEmpty (cfg_GroupScanIntervalString group)) eqn:Hs; cbn [negb];
    [|destruct (time_ParseDuration (cfg_GroupScanIntervalString group)) as [d0|] eqn:Hd;
      [|intros H; inversion H; subst; right; right; left; split; [reflexivity|];
        split; [apply isEmpty_false, Hs | reflexivity]]];
    clear Hreq Hty Hs; destruct group as [F T M SS SI L P [vms fam all] filters];
    cbn [withScanInterval withFlags withFilters cfg_Port cfg_Flags cfg_Filters cfg_IncludeVMs
         cfg_InetFamily cfg_AllAddresses];
    (destruct P as [p|]; [destruct ((p <? 0)%Z || (65535 <? p)%Z) eqn:Hrange|]);
    try (intros H; inversion H; subst; do 3 right; left; split; [reflexivity|]; exists p;
         split; [reflexivity|]; apply orb_true_iff in Hrange;
         destruct Hrange as [Hr|Hr]; apply Z.ltb_lt in Hr; lia);
    destruct vms, fam as [f|], all;
    cbn [withScanInterval withFlags withFilters cfg_Port cfg_Flags cfg_Filters cfg_IncludeVMs
         cfg_InetFamily cfg_AllAddresses];
    try (destruct (negb (String.eqb f InetFamilyAny) && negb (String.eqb f InetFamilyInet) &&
                   negb (String.eqb f InetFamilyInet6)) eqn:Hfam;
         [intros H; inversion H; subst; do 4 right; left; split; [reflexivity|]; exists f;
          split; [reflexivity|]; intros [E|[E|E]]; rewrite E in Hfam; discriminate Hfam|]);
    (destruct (validateFilters regexp_Compile filters) as [fs' [err|]] eqn:Hvf;
     intros H; inversion H; subst; apply validateFilters_error in Hvf;
     destruct Hvf as [Hvf|Hvf]; [do 5 right; left | do 6 right]; exact Hvf).
Qed.

(** An error of the loop over the groups is the duplicate-file error, or
    wraps the error of the validation of one of the groups. *)
Lemma validateGroups_error (groups : list GroupConfig) (d : Z) :
  forall (knownFiles : gmap string Z) (i : nat) (e : cfgError),
    validateGroups time_ParseDuration regexp_Compile groups d knownFiles i = inr e ->
    e = Sentinel ErrorDuplicateFile \/
    exists g g' e0, In g groups /\
      validateGroup time_ParseDuration regexp_Compile g d = (g', Some e0) /\
      forall s, errorIs e s = errorIs e0 s.
Proof.
  induction groups as [|g rest IH]; intros knownFiles i e; cbn [validateGroups]; [discriminate|].
  destruct (knownFiles !! cfg_File g); [intros H; inversion H; left; reflexivity|].
  destruct (validateGroup time_ParseDuration regexp_Compile g d) as [g' [e0|]] eqn:Hv.
  - intros H. inversion H; subst. right. exists g, g', e0.
    split; [left; reflexivity|]. split; [exact Hv | reflexivity].
  - destruct (validateGroups time_ParseDuration regexp_Compile rest d _ (S i)) as [rest'|e1] eqn:Hr;
      [discriminate|].
    intros H. inversion H; subst. destruct (IH _ _ _ Hr) as [Hd|(g2 & g2' & e0 & Hin & Hv2 & His)].
    + left. exact Hd.
    + right. exists g2, g2', e0. split; [right; exact Hin | auto].
Qed.

End ConfigurationProperties.

(** ** The loops of the assemblers *)

Lemma stepEffect_none (group : Group) (st st' : loopState) :
  data st' = data st -> metrics st' = metrics st -> stepEffect group st st' [] [].
Proof.
  intros Hd Hm. unfold stepEffect. rewrite Hd, Hm, !app_nil_r. repeat split; constructor.
Qed.

Lemma stepEffect_skip (group : Group) (st st1 : loopState) (dev : Device) (s : TargetState) :
  s <> TargetActive -> data st1 = data st -> metrics st1 = metrics st ->
  stepEffect group st (recordState group dev s st1) [sampleOf group dev s] [].
Proof.
  intros Hs Hd Hm. unfold stepEffect. cbn. rewrite Hd, Hm, app_nil_r.
  repeat split; [| repeat constructor | constructor].
  unfold isActive. cbn. destruct s; try reflexivity. contradiction.
Qed.

Lemma Merge_static (labels static : gmap string string) (k v : string) :
  static !! k = Some v -> Merge labels static !! k = Some v.
Proof. intros H. unfold Merge. apply lookup_union_Some_l, H. Qed.

Section AssemblerSteps.

Variable ParseAddrIs6 : string -> option bool.

Lemma foldM_append_length {A B : Type} (f : list B -> A -> outcome (list B)) (l : list A) :
  (forall acc x r, f acc x = Done r -> length r = S (length acc)) ->
  forall acc r, foldM f l acc = Done r -> length r = (length acc + length l)%nat.
Proof.
  intros Hf. induction l as [|x l IH]; intros acc r; cbn [foldM].
  - intros H. inversion H. cbn. lia.
  - destruct (f acc x) as [r1|] eqn:E; cbn [mbind outcome_bind]; [|discriminate].
    intros H. rewrite (IH _ _ H), (Hf _ _ _ E). cbn. lia.
Qed.

Lemma convertToTargets_length (ips : list IP) (port : option Z) (tg : list (gmap string string)) :
  convertToTargets ParseAddrIs6 ips port = Done tg -> length tg = length ips.
Proof.
  unfold convertToTargets. intros H. apply foldM_append_length in H; [exact H|].
  intros acc x r. unfold convertToTargets_body. destruct port as [p|].
  - destruct (Family ParseAddrIs6 x) as [fam|]; cbn [mbind outcome_bind]; [|discriminate].
    destruct (fam =? 4)%Z; intros E; inversion E; rewrite length_app; cbn; lia.
  - intros E; inversion E; rewrite length_app; cbn; lia.
Qed.

(** *** Device-tag variant *)

Lemma getTargetsByDeviceTag_labels_cases (group : Group) (st : loopState) (d : Device) (r : assembled) :
  getTargetsByDeviceTag_labels group st d = Done r ->
  match r with
  | Skipped st1 =>
      exists s, s <> TargetActive /\ st1 = recordState group d s st
  | Assembled dev labels st1 =>
      dev = d /\ data st1 = data st /\ metrics st1 = metrics st /\
      (forall k v, Group_Labels group !! k = Some v -> labels !! k = Some v)
  end.
Proof.
  unfold getTargetsByDeviceTag_labels.
  destruct (negb (String.eqb (Device_Status d) StatusDeviceActive)).
  { intros H. inversion H. exists TargetSkippedBadStatus. split; [discriminate | reflexivity]. }
  destruct (generateCustomFieldLabels (Device_CustomFields d)) as [[l1 e1]|];
    cbn [mbind outcome_bind]; [|discriminate].
  destruct (bool_decide (is_Some e1)).
  { intros H. inversion H. exists TargetSkippedBadCustomField. split; [discriminate | reflexivity]. }
  intros H. inversion H; subst. split; [reflexivity|].
  split; [destruct (IsVirtual d); reflexivity|]. split; [destruct (IsVirtual d); reflexivity|].
  intros k v Hk. apply Merge_static, Hk.
Qed.

Lemma getTargetsByDeviceTag_body_effect (group : Group) (st st' : loopState) (d : Device) :
  getTargetsByDeviceTag_body ParseAddrIs6 group st d = Done st' ->
  exists s new,
    stepEffect group st st' [sampleOf group d s] new /\
    Forall (fun t => Targets t <> []) new.
Proof.
  unfold getTargetsByDeviceTag_body.
  destruct (getTargetsByDeviceTag_labels group st d) as [r|] eqn:Hl; cbn [mbind outcome_bind];
    [|discriminate].
  apply getTargetsByDeviceTag_labels_cases in Hl. destruct r as [st1|dev labels st1].
  - destruct Hl as (s & Hs & ->). intros H. inversion H; subst. exists s, [].
    split; [apply stepEffect_skip; auto | constructor].
  - destruct Hl as (-> & Hd & Hm & Hstatic).
    destruct (negb (FiltersMatch group _)).
    { intros H. inversion H; subst. exists TargetSkippedNotMatchingFilters, [].
      split; [apply stepEffect_skip; auto; discriminate | constructor]. }
    destruct (selectAddr ParseAddrIs6 _ group) as [sel|] eqn:Hsel; cbn [mbind outcome_bind];
      [|discriminate].
    destruct (length sel =? 0)%nat eqn:Hlen.
    { intros H. inversion H; subst. exists TargetSkippedNoValidIP, [].
      split; [apply stepEffect_skip; auto; discriminate | constructor]. }
    destruct (convertToTargets ParseAddrIs6 sel (Port group)) as [tg|] eqn:Hc;
      cbn [mbind outcome_bind]; [|discriminate].
    intros H. inversion H; subst. clear H.
    exists TargetActive, [ {| Targets := tg; Labels := labels; Source := "netbox_sd" |} ].
    split.
    + unfold stepEffect. cbn. rewrite Hd, Hm. repeat split; [repeat constructor|].
      constructor; [|constructor]. split; [reflexivity | exact Hstatic].
    + constructor; [|constructor]. cbn. apply convertToTargets_length in Hc.
      intros ->. cbn in Hc. rewrite <- Hc in Hlen. discriminate Hlen.
Qed.


(** *** Service variant *)

Lemma getTargetsByService_labels_cases (group : Group) (st : loopState) (serv : Service)
    (r : assembled) :
  getTargetsByService_labels group st serv = Done r ->
  match r with
  | Skipped st1 =>
      st1 = st \/ exists dev s, s <> TargetActive /\ st1 = recordState group dev s st
  | Assembled dev labels st1 =>
      data st1 = data st /\ metrics st1 = metrics st /\
      (forall k v, Group_Labels group !! k = Some v -> labels !! k = Some v)
  end.
Proof.
  unfold getTargetsByService_labels.
  destruct (bool_decide (is_Some (VM serv)) && negb (IncludeVMs (Group_Flags group))).
  { intros H. inversion H. left. reflexivity. }
  destruct (match VM serv with Some vm => Some vm | None => Service_Device serv end) as [d|];
    cbn [deref mbind outcome_bind]; [|discriminate].
  destruct (negb (String.eqb (Device_Status d) StatusDeviceActive)).
  { intros H. inversion H. right. exists d, TargetSkippedBadStatus.
    split; [discriminate | reflexivity]. }
  destruct (generateCustomFieldLabels (Device_CustomFields d)) as [[l1 e1]|];
    cbn [mbind outcome_bind]; [|discriminate].
  destruct (bool_decide (is_Some e1)).
  { intros H. inversion H. right. exists d, TargetSkippedBadCustomField.
    split; [discriminate | reflexivity]. }
  destruct (generateCustomFieldLabels (Service_CustomFields serv)) as [[l2 e2]|];
    cbn [mbind outcome_bind]; [|discriminate].
  destruct (bool_decide (is_Some e2)).
  { intros H. inversion H. right. exists d, TargetSkippedBadCustomField.
    split; [discriminate | reflexivity]. }
  intros H. inversion H; subst.
  split; [destruct (IsVirtual _); reflexivity|]. split; [destruct (IsVirtual _); reflexivity|].
  intros k v Hk. apply Merge_static, Hk.
Qed.

Lemma getTargetsByService_body_effect (group : Group) (st st' : loopState) (serv : Service) :
  getTargetsByService_body ParseAddrIs6 group st serv = Done st' ->
  exists samples new, stepEffect group st st' samples new /\ (length samples <= 1)%nat.
Proof.
  unfold getTargetsByService_body.
  destruct (getTargetsByService_labels group st serv) as [r|] eqn:Hl; cbn [mbind outcome_bind];
    [|discriminate].
  apply getTargetsByService_labels_cases in Hl. destruct r as [st1|dev labels st1].
  - intros H. inversion H; subst. destruct Hl as [->|(dev & s & Hs & ->)].
    + exists [], []. split; [apply stepEffect_none; reflexivity | cbn; lia].
    + exists [sampleOf group dev s], []. split; [apply stepEffect_skip; auto | cbn; lia].
  - destruct Hl as (Hd & Hm & Hstatic).
    destruct (negb (FiltersMatch group _)).
    { intros H. inversion H; subst. exists [sampleOf group dev TargetSkippedNotMatchingFilters], [].
      split; [apply stepEffect_skip; auto; discriminate | cbn; lia]. }
    destruct (selectAddr ParseAddrIs6 _ group) as [sel|]; cbn [mbind outcome_bind];
      [|discriminate].
    destruct (length sel =? 0)%nat.
    { intros H. inversion H; subst. exists [sampleOf group dev TargetSkippedNoValidIP], [].
      split; [apply stepEffect_skip; auto; discriminate | cbn; lia]. }
    destruct (serviceEndpoints ParseAddrIs6 sel _) as [tg|]; cbn [mbind outcome_bind];
      [|discriminate].
    intros H. inversion H; subst. clear H.
    exists [sampleOf group dev TargetActive],
           [ {| Targets := tg; Labels := labels; Source := "netbox_sd" |} ].
    split; [|cbn; lia].
    unfold stepEffect. cbn. rewrite Hd, Hm. repeat split; [repeat constructor|].
    constructor; [|constructor]. split; [reflexivity | exact Hstatic].
Qed.

(** *** Interface-tag variant *)

Lemma getTargetsByInterfaceTag_labels_cases (group : Group) (st : loopState) (iface : Interface)
    (r : assembled) :
  getTargetsByInterfaceTag_labels group st iface = Done r ->
  match r with
  | Skipped st1 => exists dev s, s <> TargetActive /\ st1 = recordState group dev s st
  | Assembled dev labels st1 =>
      data st1 = data st /\ metrics st1 = metrics st /\
      (forall k v, Group_Labels group !! k = Some v -> labels !! k = Some v)
  end.
Proof.
  unfold getTargetsByInterfaceTag_labels.
  destruct (Interface_Device iface) as [d|]; cbn [deref mbind outcome_bind]; [|discriminate].
  destruct (negb _ || negb _).
  { intros H. inversion H. exists d, TargetSkippedBadStatus. split; [discriminate | reflexivity]. }
  destruct (generateCustomFieldLabels (Device_CustomFields d)) as [[l1 e1]|];
    cbn [mbind outcome_bind]; [|discriminate].
  destruct (bool_decide (is_Some e1)).
  { intros H. inversion H. exists d, TargetSkippedBadCustomField.
    split; [discriminate | reflexivity]. }
  destruct (generateCustomFieldLabels (Interface_CustomFields iface)) as [[l2 e2]|];
    cbn [mbind outcome_bind]; [|discriminate].
  destruct (bool_decide (is_Some e2)).
  { intros H. inversion H. exists d, TargetSkippedBadCustomField.
    split; [discriminate | reflexivity]. }
  intros H. inversion H; subst.
  split; [destruct (IsVirtual _); reflexivity|]. split; [destruct (IsVirtual _); reflexivity|].
  intros k v Hk. apply Merge_static, Hk.
Qed.

Lemma getTargetsByInterfaceTag_body_effect (api : ClientIface) (group : Group)
    (st st' : loopState) (iface : Interface) :
  getTargetsByInterfaceTag_body ParseAddrIs6 api group st iface = Done st' ->
  exists samples new,
    stepEffect group st st' samples new /\ (length samples <= 1)%nat /\
    Forall (fun t => Targets t <> []) new.
Proof.
  unfold getTargetsByInterfaceTag_body.
  destruct (getTargetsByInterfaceTag_labels group st iface) as [r|] eqn:Hl;
    cbn [mbind outcome_bind]; [|discriminate].
  apply getTargetsByInterfaceTag_labels_cases in Hl. destruct r as [st1|dev labels st1].
  - intros H. inversion H; subst. destruct Hl as (dev & s & Hs & ->).
    exists [sampleOf group dev s], [].
    split; [apply stepEffect_skip; auto | split; [cbn; lia | constructor]].
  - destruct Hl as (Hd & Hm & Hstatic).
    destruct (negb (FiltersMatch group _)).
    { intros H. inversion H; subst. exists [], [].
      split; [apply stepEffect_none; auto | split; [cbn; lia | constructor]]. }
    destruct (if IsVirtual dev then _ else _) as [addrs|e].
    2:{ intros H. inversion H; subst. exists [sampleOf group dev TargetSkippedNoValidIP], [].
        split; [apply stepEffect_skip; auto; discriminate | split; [cbn; lia | constructor]]. }
    destruct (selectAddr ParseAddrIs6 addrs group) as [sel|]; cbn [mbind outcome_bind];
      [|discriminate].
    destruct (length sel =? 0)%nat eqn:Hlen.
    { intros H. inversion H; subst. exists [sampleOf group dev TargetSkippedNoValidIP], [].
      split; [apply stepEffect_skip; auto; discriminate | split; [cbn; lia | constructor]]. }
    destruct (convertToTargets ParseAddrIs6 sel (Port group)) as [tg|] eqn:Hc;
      cbn [mbind outcome_bind]; [|discriminate].
    intros H. inversion H; subst. clear H.
    exists [sampleOf group dev TargetActive],
           [ {| Targets := tg; Labels := labels; Source := "netbox_sd" |} ].
    split; [|split; [cbn; lia|]].
    + unfold stepEffect. cbn. rewrite Hd, Hm. repeat split; [repeat constructor|].
      constructor; [|constructor]. split; [reflexivity | exact Hstatic].
    + constructor; [|constructor]. cbn. apply convertToTargets_length in Hc.
      intros ->. cbn in Hc. rewrite <- Hc in Hlen. discriminate Hlen.
Qed.

(** *** The loops *)

Lemma stepEffect_refl (group : Group) (st : loopState) : stepEffect group st st [] [].
Proof. apply stepEffect_none; reflexivity. Qed.

Lemma stepEffect_trans (group : Group) (s0 s1 s2 : loopState)
    (S1 S2 : list TargetStateSample) (N1 N2 : list TargetGroup) :
  stepEffect group s0 s1 S1 N1 -> stepEffect group s1 s2 S2 N2 ->
  stepEffect group s0 s2 (S1 ++ S2) (N1 ++ N2).
Proof.
  intros (Hd1 & Hp1 & Hg1 & Hl1 & Hs1 & Hf1) (Hd2 & Hp2 & Hg2 & Hl2 & Hs2 & Hf2).
  unfold stepEffect.
  rewrite Hd2, Hd1, Hp2, Hp1, Hg2, Hg1, !app_assoc, List.filter_app, !length_app, Hl1, Hl2.
  repeat split; apply Forall_app; split; assumption.
Qed.

(** A loop whose body has a step effect on every candidate has the
    concatenated effect, candidate by candidate. *)
Lemma foldM_stepEffect {A : Type} (f : loopState -> A -> outcome loopState) (group : Group)
    (R : A -> list TargetStateSample -> list TargetGroup -> Prop) :
  (forall st x st', f st x = Done st' ->
     exists samples new, stepEffect group st st' samples new /\ R x samples new) ->
  forall l st st', foldM f l st = Done st' ->
    exists effects : list (list TargetStateSample * list TargetGroup),
      Forall2 (fun x e => R x (fst e) (snd e)) l effects /\
      stepEffect group st st' (concat (map fst effects)) (concat (map snd effects)).
Proof.
  intros Hstep. induction l as [|x l IH]; intros st st'; cbn [foldM].
  - intros H. inversion H; subst. exists []. split; [constructor | apply stepEffect_refl].
  - destruct (f st x) as [s1|] eqn:E; cbn [mbind outcome_bind]; [|discriminate].
    intros H. destruct (Hstep _ _ _ E) as (samples & new & He & HR).
    destruct (IH _ _ H) as (effects & HF & Hrest).
    exists ((samples, new) :: effects). split; [constructor; assumption|].
    cbn [map fst snd concat]. apply (stepEffect_trans _ _ s1); assumption.
Qed.

End AssemblerSteps.

Section AssemblerLoops.

Variable ParseAddrIs6 : string -> option bool.

Lemma nonNull_length (addrs : list (option IP)) : (length (nonNull addrs) <= length addrs)%nat.
Proof.
  unfold nonNull. induction addrs as [|[a|] l IH]; cbn; lia.
Qed.

Lemma selectAddr_length_le (addrs : list (option IP)) (group : Group) (r : list IP) :
  selectAddr ParseAddrIs6 addrs group = Done r -> (length r <= length addrs)%nat.
Proof.
  intros Hr. apply selectAddr_Done in Hr. destruct Hr as [_ ->].
  pose proof (nonNull_length addrs) as Hn.
  unfold spec_selectAddr, spec_allChoices, spec_firstChoice.
  destruct (AllAddresses (Group_Flags group)).
  - destruct (fold_addNew_sublist (List.filter (isSelectable ParseAddrIs6 group) (nonNull addrs)) [])
      as (l' & -> & Hsub). cbn [app].
    apply sublist_length in Hsub.
    pose proof (sublist_length _ _ (filter_sublist (isSelectable ParseAddrIs6 group) (nonNull addrs))).
    lia.
  - destruct (List.find (isCandidate ParseAddrIs6 group true) _) as [a|] eqn:H6.
    { apply find_some in H6. destruct H6 as [Hin _].
      destruct (nonNull addrs); [destruct Hin|]. cbn in *. lia. }
    destruct (List.find (isCandidate ParseAddrIs6 group false) _) as [a|] eqn:H4; [|cbn; lia].
    apply find_some in H4. destruct H4 as [Hin _].
    destruct (nonNull addrs); [destruct Hin|]. cbn in *. lia.
Qed.

Lemma getTargetsByDeviceTag_body_endpoints (group : Group) (st st' : loopState) (d : Device) :
  getTargetsByDeviceTag_body ParseAddrIs6 group st d = Done st' ->
  exists new, data st' = data st ++ new /\ Forall (endpointCount group 2) new.
Proof.
  unfold getTargetsByDeviceTag_body.
  destruct (getTargetsByDeviceTag_labels group st d) as [r|] eqn:Hl; cbn [mbind outcome_bind];
    [|discriminate].
  apply getTargetsByDeviceTag_labels_cases in Hl. destruct r as [st1|dev labels st1].
  - destruct Hl as (s & Hs & ->). intros H. inversion H; subst. exists [].
    cbn. rewrite app_nil_r. split; [reflexivity | constructor].
  - destruct Hl as (-> & Hd & Hm & Hstatic).
    destruct (negb (FiltersMatch group _)).
    { intros H. inversion H; subst. exists []. cbn. rewrite app_nil_r. split; [exact Hd | constructor]. }
    destruct (selectAddr ParseAddrIs6 _ group) as [sel|] eqn:Hsel; cbn [mbind outcome_bind];
      [|discriminate].
    destruct (length sel =? 0)%nat eqn:Hlen.
    { intros H. inversion H; subst. exists []. cbn. rewrite app_nil_r. split; [exact Hd | constructor]. }
    destruct (convertToTargets ParseAddrIs6 sel (Port group)) as [tg|] eqn:Hc;
      cbn [mbind outcome_bind]; [|discriminate].
    intros H. inversion H; subst. clear H.
    exists [ {| Targets := tg; Labels := labels; Source := "netbox_sd" |} ].
    cbn. rewrite Hd. split; [reflexivity|]. constructor; [|constructor].
    apply convertToTargets_length in Hc. apply Nat.eqb_neq in Hlen.
    pose proof (selectAddr_length_le _ _ _ Hsel) as Hle. cbn in Hle.
    unfold endpointCount. cbn. split; [lia|].
    intros Hall. pose proof (selectAddr_single_length _ _ _ _ Hall Hsel). lia.
Qed.

Lemma getTargetsByInterfaceTag_body_endpoints (api : ClientIface) (group : Group)
    (st st' : loopState) (iface : Interface) :
  getTargetsByInterfaceTag_body ParseAddrIs6 api group st iface = Done st' ->
  exists new, data st' = data st ++ new /\
    Forall (fun t => exists addrs,
              (GetInterfaceIPs api (Interface_ID iface) = inl addrs \/
               GetVirtualInterfaceIPs api (Interface_ID iface) = inl addrs) /\
              endpointCount group (length addrs) t) new.
Proof.
  unfold getTargetsByInterfaceTag_body.
  destruct (getTargetsByInterfaceTag_labels group st iface) as [r|] eqn:Hl;
    cbn [mbind outcome_bind]; [|discriminate].
  apply getTargetsByInterfaceTag_labels_cases in Hl. destruct r as [st1|dev labels st1].
  - destruct Hl as (dev & s & Hs & ->). intros H. inversion H; subst. exists [].
    cbn. rewrite app_nil_r. split; [reflexivity | constructor].
  - destruct Hl as (Hd & Hm & Hstatic).
    destruct (negb (FiltersMatch group _)).
    { intros H. inversion H; subst. exists []. rewrite app_nil_r. split; [exact Hd | constructor]. }
    destruct (if IsVirtual dev then _ else _) as [addrs|e] eqn:Hq.
    2:{ intros H. inversion H; subst. exists []. cbn. rewrite app_nil_r.
        split; [exact Hd | constructor]. }
    destruct (selectAddr ParseAddrIs6 addrs group) as [sel|] eqn:Hsel; cbn [mbind outcome_bind];
      [|discriminate].
    destruct (length sel =? 0)%nat eqn:Hlen.
    { intros H. inversion H; subst. exists []. cbn. rewrite app_nil_r.
      split; [exact Hd | constructor]. }
    destruct (convertToTargets ParseAddrIs6 sel (Port group)) as [tg|] eqn:Hc;
      cbn [mbind outcome_bind]; [|discriminate].
    intros H. inversion H; subst. clear H.
    exists [ {| Targets := tg; Labels := labels; Source := "netbox_sd" |} ].
    cbn. rewrite Hd. split; [reflexivity|]. constructor; [|constructor].
    exists addrs. split; [destruct (IsVirtual dev); auto|].
    apply convertToTargets_length in Hc. apply Nat.eqb_neq in Hlen.
    pose proof (selectAddr_length_le _ _ _ Hsel) as Hle.
    unfold endpointCount. cbn. split; [lia|].
    intros Hall. pose proof (selectAddr_single_length _ _ _ _ Hall Hsel). lia.
Qed.

Lemma foldM_data_Forall {A : Type} (f : loopState -> A -> outcome loopState)
    (P : TargetGroup -> Prop) :
  (forall st x st', f st x = Done st' -> exists new, data st' = data st ++ new /\ Forall P new) ->
  forall l st st', foldM f l st = Done st' -> Forall P (data st) -> Forall P (data st').
Proof.
  intros Hstep. induction l as [|x l IH]; intros st st'; cbn [foldM].
  - intros H. inversion H; subst. auto.
  - destruct (f st x) as [s1|] eqn:E; cbn [mbind outcome_bind]; [|discriminate].
    intros H HP. apply (IH _ _ H). destruct (Hstep _ _ _ E) as (new & -> & Hnew).
    apply Forall_app. split; assumption.
Qed.

(** X19. Every target group of the device-tag variant carries one or two
    endpoints, and exactly one when [AllAddresses] is off. *)
Theorem getTargetsByDeviceTag_endpoints (api : ClientIface) (group : Group) (m m' : Metrics)
    (tg : list TargetGroup) :
  getTargetsByDeviceTag ParseAddrIs6 api group m = Done (inl tg, m') ->
  Forall (fun t => (1 <= length (Targets t) <= 2)%nat /\
                   (AllAddresses (Group_Flags group) = false -> length (Targets t) = 1%nat)) tg.
Proof.
  unfold getTargetsByDeviceTag.
  destruct (GetDevicesByTag api _) as [devs|]; [|discriminate].
  destruct (if IncludeVMs _ then _ else _) as [l|]; [|discriminate].
  destruct (foldM _ l _) as [st|] eqn:Hf; cbn [mbind outcome_bind]; [|discriminate].
  intros H. inversion H; subst.
  apply (foldM_data_Forall _ (endpointCount group 2)
           (fun s x s' => getTargetsByDeviceTag_body_endpoints group s s' x)) in Hf; [exact Hf | constructor].
Qed.

Lemma Forall2_concat_samples {A : Type} (P : A -> TargetStateSample -> Prop) (l : list A)
    (effects : list (list TargetStateSample * list TargetGroup)) :
  Forall2 (fun x e => exists s, fst e = [s] /\ P x s) l effects ->
  Forall2 P l (concat (map fst effects)).
Proof.
  induction 1 as [|x e l effects (s & Hs & HP) _ IH]; cbn; [constructor|].
  rewrite Hs. cbn. constructor; assumption.
Qed.

Lemma getTargetsByDeviceTag_body_sample (group : Group) (st st' : loopState) (d : Device) :
  getTargetsByDeviceTag_body ParseAddrIs6 group st d = Done st' ->
  exists samples new, stepEffect group st st' samples new /\
    exists s, samples = [s] /\ exists state, s = sampleOf group d state.
Proof.
  intros H. destruct (getTargetsByDeviceTag_body_effect _ _ _ _ _ H) as (s & new & He & _).
  exists [sampleOf group d s], new. split; [exact He|]. eauto.
Qed.

(** X20. The device-tag variant sets the target state exactly once per
    candidate, in the order of the devices followed by the VMs, each time
    with the labels of that candidate; the target groups returned are as
    many as the states set to active. *)
Theorem getTargetsByDeviceTag_observations (api : ClientIface) (group : Group) (m m' : Metrics)
    (devs vms : list Device) (r : list TargetGroup + error) :
  GetDevicesByTag api (Group_Match group) = inl devs ->
  (if IncludeVMs (Group_Flags group)
   then GetVMsByTag api (Group_Match group) = inl vms else vms = []) ->
  getTargetsByDeviceTag ParseAddrIs6 api group m = Done (r, m') ->
  exists tg samples,
    r = inl tg /\
    promTargetState m' = promTargetState m ++ samples /\
    Forall2 (fun d s => exists state, s = sampleOf group d state) (devs ++ vms) samples /\
    length tg = length (List.filter isActive samples).
Proof.
  intros Hdevs Hvms. unfold getTargetsByDeviceTag. rewrite Hdevs.
  assert ((if IncludeVMs (Group_Flags group)
           then match GetVMsByTag api (Group_Match group) with
                | inr err => inr err
                | inl vmList => inl (devs ++ vmList)
                end
           else inl devs) = (inl (devs ++ vms) : list Device + error)) as ->.
  { destruct (IncludeVMs (Group_Flags group)); [rewrite Hvms; reflexivity|].
    subst vms. rewrite app_nil_r. reflexivity. }
  destruct (foldM _ _ _) as [st|] eqn:Hf; cbn [mbind outcome_bind]; [|discriminate].
  intros H. inversion H; subst. clear H.
  apply (foldM_stepEffect _ group
           (fun d samples _ => exists s, samples = [s] /\ exists state, s = sampleOf group d state)
           (fun s x s' => getTargetsByDeviceTag_body_sample group s s' x)) in Hf.
  destruct Hf as (effects & HF & Hd & Hp & _ & Hl & _).
  exists (data st), (concat (map fst effects)). cbn in Hd, Hp.
  split; [reflexivity|]. split; [exact Hp|]. split.
  - apply Forall2_concat_samples. exact HF.
  - rewrite Hd. exact Hl.
Qed.

(** The three loops, each with what a step adds. *)
Lemma assemble_effect (api : ClientIface) (group : Group) (m m' : Metrics)
    (tg : list TargetGroup) :
  assemble ParseAddrIs6 api group m = Done (Some (inl tg), m') ->
  exists samples,
    stepEffect group {| data := []; dynLabels := ∅; metrics := m |}
      {| data := tg; dynLabels := ∅; metrics := m' |} samples tg.
Proof.
  assert (Hrun : forall (A : Type) (f : loopState -> A -> outcome loopState) (l : list A) st,
    (forall st x st', f st x = Done st' ->
       exists samples new, stepEffect group st st' samples new /\ True) ->
    foldM f l {| data := []; dynLabels := ∅; metrics := m |} = Done st ->
    exists samples,
      stepEffect group {| data := []; dynLabels := ∅; metrics := m |}
        {| data := data st; dynLabels := ∅; metrics := metrics st |} samples (data st)).
  { intros A f l st Hstep Hf.
    apply (foldM_stepEffect f group (fun _ _ _ => True) Hstep) in Hf.
    destruct Hf as (effects & _ & Hd & Hp & Hg & Hl & Hs & Hgood).
    exists (concat (map fst effects)). cbn [data metrics app] in Hd, Hp, Hg.
    unfold stepEffect. cbn [data metrics app]. rewrite Hd at 2 3 4. repeat split; assumption. }
  unfold assemble, getTargetsByService, getTargetsByDeviceTag, getTargetsByInterfaceTag.
  destruct (String.eqb (Group_Type group) GroupTypeService).
  { destruct (GetServicesByName api _) as [l|]; cbn [mbind outcome_bind]; [|discriminate].
    destruct (foldM _ l _) as [st|] eqn:Hf; cbn [mbind outcome_bind]; [|discriminate].
    intros H. inversion H; subst. apply (Hrun _ _ _ _ ) in Hf; [exact Hf|].
    intros s x s' Hb. destruct (getTargetsByService_body_effect _ _ _ _ _ Hb) as (a & b & He & _).
    eauto. }
  destruct (String.eqb (Group_Type group) GroupTypeDeviceTag).
  { destruct (GetDevicesByTag api _) as [devs|]; cbn [mbind outcome_bind]; [|discriminate].
    destruct (if IncludeVMs _ then _ else _) as [l|]; cbn [mbind outcome_bind]; [|discriminate].
    destruct (foldM _ l _) as [st|] eqn:Hf; cbn [mbind outcome_bind]; [|discriminate].
    intros H. inversion H; subst. apply (Hrun _ _ _ _ ) in Hf; [exact Hf|].
    intros s x s' Hb. destruct (getTargetsByDeviceTag_body_effect _ _ _ _ _ Hb) as (a & b & He & _).
    eauto. }
  destruct (String.eqb (Group_Type group) GroupTypeInterfaceTag).
  { destruct (GetInterfacesByTag api _) as [ifs|]; cbn [mbind outcome_bind]; [|discriminate].
    destruct (if IncludeVMs _ then _ else _) as [l|]; cbn [mbind outcome_bind]; [|discriminate].
    destruct (foldM _ l _) as [st|] eqn:Hf; cbn [mbind outcome_bind]; [|discriminate].
    intros H. inversion H; subst. apply (Hrun _ _ _ _ ) in Hf; [exact Hf|].
    intros s x s' Hb.
    destruct (getTargetsByInterfaceTag_body_effect _ _ _ _ _ _ Hb) as (a & b & He & _).
    eauto. }
  discriminate.
Qed.

(** X21. Whatever the variant, every target group returned has the source
    [netbox_sd] and carries every static label of the group with the
    group's value: the static labels win over all others. *)
Theorem assemble_targets_labelled (api : ClientIface) (group : Group) (m m' : Metrics)
    (tg : list TargetGroup) :
  assemble ParseAddrIs6 api group m = Done (Some (inl tg), m') ->
  Forall (fun t => Source t = "netbox_sd" /\
                   forall k v, Group_Labels group !! k = Some v -> Labels t !! k = Some v) tg.
Proof.
  intros H. destruct (assemble_effect _ _ _ _ _ H) as (samples & _ & _ & _ & _ & _ & Hgood).
  exact Hgood.
Qed.

(** X22. A scan that returns targets only appends to the target states,
    all for the file of the group, leaves the four per-group vectors alone,
    and returns as many target groups as it has set states to active. *)
Theorem assemble_metrics_accounting (api : ClientIface) (group : Group) (m m' : Metrics)
    (tg : list TargetGroup) :
  assemble ParseAddrIs6 api group m = Done (Some (inl tg), m') ->
  groupVectors m' = groupVectors m /\
  exists samples,
    promTargetState m' = promTargetState m ++ samples /\
    Forall (fun s => ts_group s = File group) samples /\
    length tg = length (List.filter isActive samples).
Proof.
  intros H. destruct (assemble_effect _ _ _ _ _ H) as (samples & _ & Hp & Hg & Hl & Hs & _).
  split; [exact Hg|]. exists samples. auto.
Qed.

End AssemblerLoops.

Lemma foldM_app {A S : Type} (f : S -> A -> outcome S) (l1 l2 : list A) (s : S) :
  foldM f (l1 ++ l2) s = (s1 ← foldM f l1 s; foldM f l2 s1).
Proof.
  revert s. induction l1 as [|x l1 IH]; intros s; cbn [app foldM mbind outcome_bind];
    [reflexivity|].
  destruct (f s x) as [s1|]; cbn [mbind outcome_bind]; [apply IH | reflexivity].
Qed.

Lemma Forall2_concat_length {A : Type} (l : list A)
    (effects : list (list TargetStateSample * list TargetGroup)) :
  Forall2 (fun _ e => (length (fst e) <= 1)%nat) l effects ->
  (length (concat (map fst effects)) <= length l)%nat.
Proof.
  induction 1 as [|x e l effects He _ IH]; cbn; [lia|]. rewrite length_app. lia.
Qed.

Section AssemblerVariants.

Variable ParseAddrIs6 : string -> option bool.

(** X23. Every target group of the interface-tag variant carries at least
    one endpoint, and exactly one when [AllAddresses] is off. *)
Theorem getTargetsByInterfaceTag_endpoints (api : ClientIface) (group : Group) (m m' : Metrics)
    (tg : list TargetGroup) :
  getTargetsByInterfaceTag ParseAddrIs6 api group m = Done (inl tg, m') ->
  Forall (fun t => (1 <= length (Targets t))%nat /\
                   (AllAddresses (Group_Flags group) = false -> length (Targets t) = 1%nat)) tg.
Proof.
  unfold getTargetsByInterfaceTag.
  destruct (GetInterfacesByTag api _) as [ifs|]; [|discriminate].
  destruct (if IncludeVMs _ then _ else _) as [l|]; [|discriminate].
  destruct (foldM _ l _) as [st|] eqn:Hf; cbn [mbind outcome_bind]; [|discriminate].
  intros H. inversion H; subst.
  apply (foldM_data_Forall _ (fun t => (1 <= length (Targets t))%nat /\
           (AllAddresses (Group_Flags group) = false -> length (Targets t) = 1%nat))) in Hf;
    [exact Hf | | constructor].
  intros s x s' Hb.
  destruct (getTargetsByInterfaceTag_body_endpoints _ _ _ _ _ _ Hb) as (new & Hd & Hnew).
  exists new. split; [exact Hd|]. eapply Forall_impl; [exact Hnew|].
  intros t (addrs & _ & [Hlen Hone]). split; [lia | exact Hone].
Qed.

(** The address query of an interface fails: the candidate is dropped, the
    scan goes on. *)
Lemma getTargetsByInterfaceTag_body_no_addresses (api : ClientIface) (group : Group)
    (st st' : loopState) (iface : Interface) :
  (forall id, exists e, GetInterfaceIPs api id = inr e) ->
  (forall id, exists e, GetVirtualInterfaceIPs api id = inr e) ->
  getTargetsByInterfaceTag_body ParseAddrIs6 api group st iface = Done st' ->
  exists new, data st' = data st ++ new /\ Forall (fun _ => False) new.
Proof.
  intros Hq1 Hq2. unfold getTargetsByInterfaceTag_body.
  destruct (getTargetsByInterfaceTag_labels group st iface) as [r|] eqn:Hl;
    cbn [mbind outcome_bind]; [|discriminate].
  apply getTargetsByInterfaceTag_labels_cases in Hl. destruct r as [st1|dev labels st1].
  - destruct Hl as (dev & s & Hs & ->). intros H. inversion H; subst. exists [].
    cbn. rewrite app_nil_r. split; [reflexivity | constructor].
  - destruct Hl as (Hd & Hm & Hstatic).
    destruct (negb (FiltersMatch group _)).
    { intros H. inversion H; subst. exists []. rewrite app_nil_r. split; [exact Hd | constructor]. }
    destruct (Hq1 (Interface_ID iface)) as [e1 ->]. destruct (Hq2 (Interface_ID iface)) as [e2 ->].
    destruct (IsVirtual dev); intros H; inversion H; subst; exists []; cbn; rewrite app_nil_r;
      (split; [exact Hd | constructor]).
Qed.

(** The candidates of the interface-tag variant: the tagged interfaces,
    followed by the tagged virtual interfaces when VMs are included. *)
Lemma interfaceCandidates (api : ClientIface) (group : Group) (ifs vms : list Interface) :
  GetInterfacesByTag api (Group_Match group) = inl ifs ->
  (if IncludeVMs (Group_Flags group)
   then GetVirtualInterfacesByTag api (Group_Match group) = inl vms else vms = []) ->
  forall m,
    getTargetsByInterfaceTag ParseAddrIs6 api group m =
    (st ← foldM (getTargetsByInterfaceTag_body ParseAddrIs6 api group) (ifs ++ vms)
            {| data := []; dynLabels := ∅; metrics := m |};
     Done (inl (data st), metrics st)).
Proof.
  intros Hifs Hvms m. unfold getTargetsByInterfaceTag. rewrite Hifs.
  destruct (IncludeVMs (Group_Flags group)); [rewrite Hvms; reflexivity|].
  subst vms. rewrite app_nil_r. reflexivity.
Qed.

Lemma foldM_interface_effect (api : ClientIface) (group : Group) (l : list Interface)
    (st st' : loopState) :
  foldM (getTargetsByInterfaceTag_body ParseAddrIs6 api group) l st = Done st' ->
  exists samples new,
    stepEffect group st st' samples new /\ (length samples <= length l)%nat /\
    Forall (fun t => Targets t <> []) new.
Proof.
  intros Hf.
  apply (foldM_stepEffect _ group
           (fun _ samples new => (length samples <= 1)%nat /\ Forall (fun t => Targets t <> []) new)
           (fun s x s' => getTargetsByInterfaceTag_body_effect ParseAddrIs6 api group s s' x)) in Hf.
  destruct Hf as (effects & HF & He).
  exists (concat (map fst effects)), (concat (map snd effects)). split; [exact He|]. split.
  - apply Forall2_concat_length. eapply Forall2_impl; [exact HF|]. cbn. intros x e [H _]. exact H.
  - clear He. induction HF as [|x e l effects [_ Hne] _ IH]; cbn; [constructor|].
    apply Forall_app. split; assumption.
Qed.

(** C10. With a disabled interface among the candidates, the interface-tag
    variant does what it does on the candidates before it, sets the state
    of the interface's device to skipped-bad-status, and goes on with the
    candidates after it.  So when it returns, the state is recorded at the
    place of the candidate, whatever the status of its device, and the
    target groups are as many as the other candidates have been set
    active: the disabled interface has added none. *)
Theorem interface_disabled_skipped (api : ClientIface) (group : Group) (m : Metrics)
    (ifs vms pre post : list Interface) (iface : Interface) (dev : Device) :
  GetInterfacesByTag api (Group_Match group) = inl ifs ->
  (if IncludeVMs (Group_Flags group)
   then GetVirtualInterfacesByTag api (Group_Match group) = inl vms else vms = []) ->
  ifs ++ vms = pre ++ iface :: post ->
  Interface_Device iface = Some dev ->
  Enabled iface = false ->
  getTargetsByInterfaceTag ParseAddrIs6 api group m =
    (st1 ← foldM (getTargetsByInterfaceTag_body ParseAddrIs6 api group) pre
             {| data := []; dynLabels := ∅; metrics := m |};
     st2 ← foldM (getTargetsByInterfaceTag_body ParseAddrIs6 api group) post
             (recordState group dev TargetSkippedBadStatus st1);
     Done (inl (data st2), metrics st2)) /\
  forall r m',
    getTargetsByInterfaceTag ParseAddrIs6 api group m = Done (r, m') ->
    exists tg before after,
      r = inl tg /\
      promTargetState m' =
        promTargetState m ++ before ++
        [ {| ts_group := File group;
             ts_netbox_name := Device_Name dev;
             ts_netbox_rack := Rack dev;
             ts_netbox_site := Site dev;
             ts_netbox_tenant := Tenant dev;
             ts_netbox_role := Role dev;
             ts_netbox_serial_number := SerialNumber dev;
             ts_netbox_asset_tag := AssetTag dev;
             ts_state := TargetSkippedBadStatus |} ] ++ after /\
      (length before <= length pre)%nat /\ (length after <= length post)%nat /\
      length tg = length (List.filter isActive (before ++ after)).
Proof.
  intros Hifs Hvms Hsplit Hdev Hen.
  assert (Heq : getTargetsByInterfaceTag ParseAddrIs6 api group m =
    (st1 ← foldM (getTargetsByInterfaceTag_body ParseAddrIs6 api group) pre
             {| data := []; dynLabels := ∅; metrics := m |};
     st2 ← foldM (getTargetsByInterfaceTag_body ParseAddrIs6 api group) post
             (recordState group dev TargetSkippedBadStatus st1);
     Done (inl (data st2), metrics st2))).
  { rewrite (interfaceCandidates api group ifs vms Hifs Hvms), Hsplit, foldM_app.
    destruct (foldM _ pre _) as [st1|]; cbn [mbind outcome_bind foldM]; [|reflexivity].
    rewrite (getTargetsByInterfaceTag_body_disabled ParseAddrIs6 api group st1 iface dev Hdev Hen).
    reflexivity. }
  split; [exact Heq|]. intros r m'. rewrite Heq.
  destruct (foldM _ pre _) as [st1|] eqn:H1; cbn [mbind outcome_bind]; [|discriminate].
  destruct (foldM _ post _) as [st2|] eqn:H2; cbn [mbind outcome_bind]; [|discriminate].
  intros H. inversion H; subst. clear H.
  destruct (foldM_interface_effect _ _ _ _ _ H1) as (S1 & N1 & (Hd1 & Hp1 & _ & Hl1 & _) & Hle1 & _).
  destruct (foldM_interface_effect _ _ _ _ _ H2) as (S2 & N2 & (Hd2 & Hp2 & _ & Hl2 & _) & Hle2 & _).
  cbn [data metrics recordState SetTargetStatusMetric promTargetState app] in Hd1, Hp1, Hd2, Hp2.
  exists (data st2), S1, S2. split; [reflexivity|]. split.
  { rewrite Hp2, Hp1, <- !app_assoc. reflexivity. }
  split; [exact Hle1|]. split; [exact Hle2|].
  rewrite Hd2, Hd1, List.filter_app, !length_app, Hl1, Hl2. reflexivity.
Qed.

(** X24. When the list queries succeed and the address queries of the
    interfaces fail, the interface-tag variant does not turn that into an
    error: whenever it returns, it returns the empty target list. *)
Theorem getTargetsByInterfaceTag_no_addresses (api : ClientIface) (group : Group) (m m' : Metrics)
    (ifs vms : list Interface) (r : list TargetGroup + error) :
  (forall id, exists e, GetInterfaceIPs api id = inr e) ->
  (forall id, exists e, GetVirtualInterfaceIPs api id = inr e) ->
  GetInterfacesByTag api (Group_Match group) = inl ifs ->
  (if IncludeVMs (Group_Flags group)
   then GetVirtualInterfacesByTag api (Group_Match group) = inl vms else vms = []) ->
  getTargetsByInterfaceTag ParseAddrIs6 api group m = Done (r, m') ->
  r = inl [].
Proof.
  intros Hq1 Hq2 Hifs Hvms. rewrite (interfaceCandidates api group ifs vms Hifs Hvms).
  destruct (foldM _ _ _) as [st|] eqn:Hf; cbn [mbind outcome_bind]; [|discriminate].
  intros H. inversion H; subst.
  apply (foldM_data_Forall _ (fun _ => False)) in Hf; [| | constructor].
  - destruct (data st) as [|t rest]; [reflexivity|]. inversion Hf; contradiction.
  - intros s x s' Hb.
    exact (getTargetsByInterfaceTag_body_no_addresses _ _ _ _ _ Hq1 Hq2 Hb).
Qed.

(** *** Services on virtual machines *)

Lemma getTargetsByService_body_vm (group : Group) (st : loopState) (serv : Service) :
  IncludeVMs (Group_Flags group) = false ->
  bool_decide (is_Some (VM serv)) = true ->
  getTargetsByService_body ParseAddrIs6 group st serv = Done st.
Proof.
  intros Hvm E. unfold getTargetsByService_body, getTargetsByService_labels.
  rewrite E, Hvm. reflexivity.
Qed.

Lemma foldM_service_skips_vms (group : Group) (servs : list Service) :
  IncludeVMs (Group_Flags group) = false ->
  forall st,
    foldM (getTargetsByService_body ParseAddrIs6 group) servs st =
    foldM (getTargetsByService_body ParseAddrIs6 group) (List.filter onDevice servs) st.
Proof.
  intros Hvm. induction servs as [|s servs IH]; intros st; [reflexivity|].
  cbn [List.filter]. unfold onDevice at 1. destruct (bool_decide (is_Some (VM s))) eqn:E; cbn [negb].
  - cbn [foldM]. rewrite (getTargetsByService_body_vm group st s Hvm E).
    cbn [mbind outcome_bind]. apply IH.
  - cbn [foldM]. destruct (getTargetsByService_body ParseAddrIs6 group st s);
      cbn [mbind outcome_bind]; [apply IH | reflexivity].
Qed.

(** X25. With [IncludeVMs] off, the service variant treats services on VMs
    as if the inventory had not returned them: same targets, same metrics,
    same panics. *)
Theorem getTargetsByService_skips_vms (api api' : ClientIface) (group : Group) (m : Metrics)
    (servs : list Service) :
  IncludeVMs (Group_Flags group) = false ->
  GetServicesByName api (Group_Match group) = inl servs ->
  GetServicesByName api' (Group_Match group) = inl (List.filter onDevice servs) ->
  getTargetsByService ParseAddrIs6 api group m = getTargetsByService ParseAddrIs6 api' group m.
Proof.
  intros Hvm H1 H2. unfold getTargetsByService. rewrite H1, H2.
  rewrite (foldM_service_skips_vms group servs Hvm). reflexivity.
Qed.

End AssemblerVariants.

(** ** Labels across candidates, and the worker *)

Lemma generateCustomFieldLabels_plain_key (cfm : gmap string CustomField)
    (labels : gmap string string) (gotError : option error) (l : string) :
  generateCustomFieldLabels cfm = Done (labels, gotError) ->
  (forall key, l <> "netbox_" +:+ key) -> labels !! l = None.
Proof.
  unfold generateCustomFieldLabels. intros Hrun Hl.
  destruct (foldM_cfCallback_labels (map_to_list cfm) (NoDup_fst_map_to_list cfm) _ _ _ Hrun)
    as (_ & _ & Hout).
  rewrite Hout; [apply lookup_empty|]. intros key cf _. apply Hl.
Qed.

Lemma is_vm_plain (key : string) : "is_vm" <> "netbox_" +:+ key.
Proof. cbn. discriminate. Qed.

Lemma Merge_lookup_None (labels other : gmap string string) (k : string) :
  labels !! k = None -> other !! k = None -> Merge labels other !! k = None.
Proof. intros H1 H2. unfold Merge. apply lookup_union_None. auto. Qed.

Section ScanAndWorker.

Variable ParseAddrIs6 : string -> option bool.

Lemma getTargetsByService_labels_is_vm (group : Group) (st st1 : loopState) (serv : Service)
    (dev : Device) (labels : gmap string string) :
  Group_Labels group !! "is_vm" = None ->
  getTargetsByService_labels group st serv = Done (Assembled dev labels st1) ->
  labels !! "is_vm" = dynLabels st1 !! "is_vm" /\
  dynLabels st1 = (if IsVirtual dev then isVMLabel else dynLabels st).
Proof.
  intros Hgl. unfold getTargetsByService_labels.
  destruct (bool_decide (is_Some (VM serv)) && negb (IncludeVMs (Group_Flags group)));
    [discriminate|].
  destruct (match VM serv with Some vm => Some vm | None => Service_Device serv end) as [d|];
    cbn [deref mbind outcome_bind]; [|discriminate].
  destruct (negb (String.eqb (Device_Status d) StatusDeviceActive)); [discriminate|].
  destruct (generateCustomFieldLabels (Device_CustomFields d)) as [[l1 e1]|] eqn:H1;
    cbn [mbind outcome_bind]; [|discriminate].
  destruct (bool_decide (is_Some e1)); [discriminate|].
  destruct (generateCustomFieldLabels (Service_CustomFields serv)) as [[l2 e2]|] eqn:H2;
    cbn [mbind outcome_bind]; [|discriminate].
  destruct (bool_decide (is_Some e2)); [discriminate|].
  intros H. inversion H; subst. clear H. split; [|destruct (IsVirtual dev); reflexivity].
  unfold Merge at 1. rewrite lookup_union_r by exact Hgl.
  unfold Merge at 1. apply lookup_union_l.
  apply Merge_lookup_None; [apply Merge_lookup_None|].
  - vm_compute. reflexivity.
  - exact (generateCustomFieldLabels_plain_key _ _ _ _ H1 is_vm_plain).
  - exact (generateCustomFieldLabels_plain_key _ _ _ _ H2 is_vm_plain).
Qed.

Lemma getTargetsByService_body_is_vm (group : Group) (st st' : loopState) (serv : Service) :
  Group_Labels group !! "is_vm" = None ->
  getTargetsByService_body ParseAddrIs6 group st serv = Done st' ->
  (dynLabels st' = dynLabels st \/ dynLabels st' = isVMLabel) /\
  exists new, data st' = data st ++ new /\
    Forall (fun t => Labels t !! "is_vm" = dynLabels st' !! "is_vm") new.
Proof.
  intros Hgl. unfold getTargetsByService_body.
  destruct (getTargetsByService_labels group st serv) as [r|] eqn:Hl; cbn [mbind outcome_bind];
    [|discriminate].
  destruct r as [st1|dev labels st1].
  - apply getTargetsByService_labels_cases in Hl. intros H. inversion H; subst.
    destruct Hl as [->|(dev & s & _ & ->)]; (split; [left; reflexivity|]);
      exists []; rewrite app_nil_r; (split; [reflexivity | constructor]).
  - pose proof (getTargetsByService_labels_cases _ _ _ _ Hl) as (Hd & _ & _).
    destruct (getTargetsByService_labels_is_vm _ _ _ _ _ _ Hgl Hl) as [Hvm Hdyn].
    assert (Hor : dynLabels st1 = dynLabels st \/ dynLabels st1 = isVMLabel).
    { rewrite Hdyn. destruct (IsVirtual dev); auto. }
    destruct (negb (FiltersMatch group _)).
    { intros H. inversion H; subst. split; [exact Hor|]. exists []. cbn. rewrite app_nil_r.
      split; [exact Hd | constructor]. }
    destruct (selectAddr ParseAddrIs6 _ group) as [sel|]; cbn [mbind outcome_bind];
      [|discriminate].
    destruct (length sel =? 0)%nat.
    { intros H. inversion H; subst. split; [exact Hor|]. exists []. cbn. rewrite app_nil_r.
      split; [exact Hd | constructor]. }
    destruct (serviceEndpoints ParseAddrIs6 sel _) as [tg|]; cbn [mbind outcome_bind];
      [|discriminate].
    intros H. inversion H; subst. clear H. cbn. split; [exact Hor|].
    exists [ {| Targets := tg; Labels := labels; Source := "netbox_sd" |} ].
    rewrite Hd. split; [reflexivity|]. constructor; [exact Hvm | constructor].
Qed.

Lemma foldM_service_is_vm (group : Group) (servs : list Service) :
  Group_Labels group !! "is_vm" = None ->
  forall st st' a b,
    foldM (getTargetsByService_body ParseAddrIs6 group) servs st = Done st' ->
    data st = a ++ b ->
    Forall (fun t => Labels t !! "is_vm" = None) a ->
    Forall (fun t => Labels t !! "is_vm" = Some "true") b ->
    (dynLabels st = ∅ /\ b = []) \/ dynLabels st = isVMLabel ->
    exists a' b',
      data st' = a' ++ b' /\
      Forall (fun t => Labels t !! "is_vm" = None) a' /\
      Forall (fun t => Labels t !! "is_vm" = Some "true") b'.
Proof.
  intros Hgl. induction servs as [|s servs IH]; intros st st' a b; cbn [foldM].
  - intros H Hd Ha Hb _. inversion H; subst. eauto.
  - destruct (getTargetsByService_body ParseAddrIs6 group st s) as [s1|] eqn:E;
      cbn [mbind outcome_bind]; [|discriminate].
    intros Hrun Hd Ha Hb Hdyn.
    destruct (getTargetsByService_body_is_vm _ _ _ _ Hgl E) as (Hor & new & Hnew & Hlab).
    destruct Hor as [Hsame|Hvm].
    + destruct Hdyn as [[Hempty ->]|Hvm].
      * rewrite app_nil_r in Hd. apply (IH s1 st' (a ++ new) []); auto.
        -- rewrite Hnew, Hd, app_nil_r. reflexivity.
        -- apply Forall_app. split; [exact Ha|]. eapply Forall_impl; [exact Hlab|].
           cbn beta. intros t ->. rewrite Hsame, Hempty. apply lookup_empty.
        -- left. rewrite Hsame. auto.
      * apply (IH s1 st' a (b ++ new)); auto.
        -- rewrite Hnew, Hd, app_assoc. reflexivity.
        -- apply Forall_app. split; [exact Hb|]. eapply Forall_impl; [exact Hlab|].
           cbn beta. intros t ->. rewrite Hsame, Hvm. reflexivity.
        -- right. rewrite Hsame. exact Hvm.
    + apply (IH s1 st' a (b ++ new)); auto.
      * rewrite Hnew, Hd, app_assoc. reflexivity.
      * apply Forall_app. split; [exact Hb|]. eapply Forall_impl; [exact Hlab|].
        cbn beta. intros t ->. rewrite Hvm. reflexivity.
Qed.

(** X26. [dynLabels] is never reset between candidates: in the result of
    the service variant the target groups without an [is_vm] label come
    first, and from the first one that carries [is_vm = true] on, every
    later one carries it too (the label is not set by the group itself). *)
Theorem getTargetsByService_is_vm_persists (api : ClientIface) (group : Group) (m m' : Metrics)
    (tg : list TargetGroup) :
  Group_Labels group !! "is_vm" = None ->
  getTargetsByService ParseAddrIs6 api group m = Done (inl tg, m') ->
  exists a b,
    tg = a ++ b /\
    Forall (fun t => Labels t !! "is_vm" = None) a /\
    Forall (fun t => Labels t !! "is_vm" = Some "true") b.
Proof.
  intros Hgl. unfold getTargetsByService.
  destruct (GetServicesByName api _) as [l|]; [|discriminate].
  destruct (foldM _ l _) as [st|] eqn:Hf; cbn [mbind outcome_bind]; [|discriminate].
  intros H. inversion H; subst.
  apply (foldM_service_is_vm group l Hgl _ _ [] []) in Hf; auto.
Qed.

(** *** The worker *)

Variable FS : Type.
Variable os_WriteFile : FS -> string -> string -> FS * option error.
Variable yaml_Marshal : list TargetGroup -> string + error.

(** X27. A scan whose targets are marshalled and written: the file system
    is the one [os.WriteFile] returns, the worker keeps targets and data,
    no failure is noted, the error counter is as before the scan, and the
    target count of the group is the number of targets, which is the
    number of target states the scan has set to active. *)
Theorem worker_commits_scan (api : ClientIface) (group : Group) (tk : Ticks)
    (v : workerVars) (w : World FS) (t : list TargetGroup) (m1 : Metrics)
    (d : string) (fs' : FS) :
  assemble ParseAddrIs6 api group (world_metrics w) = Done (Some (inl t), m1) ->
  yaml_Marshal t = inl d ->
  os_WriteFile (fs w) (File group) d = (fs', None) ->
  exists v' w',
    workerCycle ParseAddrIs6 FS os_WriteFile yaml_Marshal api group tk v w = Done (v', w') /\
    fs w' = fs' /\ targets v' = t /\ w_data v' = d /\ failed v' = false /\ err v' = None /\
    promUpdateError (world_metrics w') = promUpdateError (world_metrics w) /\
    promTargetCount (world_metrics w') !! File group = Some (Z.of_nat (length t)) /\
    exists samples,
      promTargetState (world_metrics w') = promTargetState (world_metrics w) ++ samples /\
      length (List.filter isActive samples) = length t.
Proof.
  intros Hasm Hy Hw.
  destruct (assemble_effect _ _ _ _ _ _ Hasm) as (samples & _ & Hp & Hg & Hl & _ & _).
  cbn [data metrics] in Hp, Hg.
  unfold workerCycle. rewrite Hasm. cbn [mbind outcome_bind negb]. rewrite Hy, Hw.
  cbn [mbind outcome_bind]. eexists _, _. split; [reflexivity|]. cbn.
  repeat (split; [reflexivity|]).
  split; [unfold groupVectors in Hg; congruence|].
  split; [apply lookup_insert_eq|].
  exists samples. split; [exact Hp | symmetry; exact Hl].
Qed.

(** X28. Every scan that returns, failed or not, sets the duration and the
    time stamp of the group and moves [lastRun] to its end; an iteration
    that comes before one scan interval has passed changes nothing. *)
Theorem worker_cycle_stamps (api : ClientIface) (group : Group) (tk : Ticks)
    (v v' : workerVars) (w w' : World FS) :
  workerCycle ParseAddrIs6 FS os_WriteFile yaml_Marshal api group tk v w = Done (v', w') ->
  promUpdateDuration (world_metrics w') !! File group = Some (now_duration tk - now_start tk)%Z /\
  promUpdateTime (world_metrics w') !! File group = Some (now_stamp tk / 1000000000)%Z /\
  lastRun v' = now_done tk /\
  forall tk', (now_check tk' - now_done tk < ScanInterval group)%Z ->
    workerIteration ParseAddrIs6 FS os_WriteFile yaml_Marshal api group tk' v' w' = Done (v', w').
Proof.
  unfold workerCycle.
  destruct (assemble ParseAddrIs6 api group (world_metrics w)) as [[r m1]|];
    cbn [mbind outcome_bind]; [|discriminate].
  assert (Hfin : forall (x : string * option error * bool * FS * Metrics) tgts,
    (let '(data, err, failed, fs, m) := x in
     Done ({| lastRun := now_done tk; runStart := now_start tk; failed := failed; err := err;
              targets := tgts; w_data := data |},
           {| fs := fs;
              world_metrics := setUpdateDurationAndTime (File group)
                                 (now_duration tk - now_start tk)
                                 (now_stamp tk / 1000000000) m |})) = Done (v', w') ->
    promUpdateDuration (world_metrics w') !! File group = Some (now_duration tk - now_start tk)%Z /\
    promUpdateTime (world_metrics w') !! File group = Some (now_stamp tk / 1000000000)%Z /\
    lastRun v' = now_done tk /\
    forall tk', (now_check tk' - now_done tk < ScanInterval group)%Z ->
      workerIteration ParseAddrIs6 FS os_WriteFile yaml_Marshal api group tk' v' w' = Done (v', w')).
  { intros [[[[dd ee] ff] fss] mm] tgts H. inversion H; subst. cbn.
    split; [apply lookup_insert_eq|]. split; [apply lookup_insert_eq|]. split; [reflexivity|].
    intros tk' Hlt. unfold workerIteration, scanDue. cbn.
    destruct (Z.leb_spec (ScanInterval group) (now_check tk' - now_done tk)); [lia|reflexivity]. }
  destruct r as [[t|e]|]; cbn [negb].
  - destruct (yaml_Marshal t) as [dd|]; [|cbn [mbind outcome_bind]; discriminate].
    destruct (os_WriteFile (fs w) (File group) dd) as [fs1 [e|]]; cbn [mbind outcome_bind];
      intros H; eapply (Hfin (_, _, _, _, _)); exact H.
  - cbn [mbind outcome_bind]. intros H; eapply (Hfin (_, _, _, _, _)); exact H.
  - destruct (yaml_Marshal (targets v)) as [dd|]; [|cbn [mbind outcome_bind]; discriminate].
    destruct (os_WriteFile (fs w) (File group) dd) as [fs1 [e|]]; cbn [mbind outcome_bind];
      intros H; eapply (Hfin (_, _, _, _, _)); exact H.
Qed.

(** X29. The first iteration scans: [lastRun] starts one scan interval
    before the start of the worker, so with a clock that does not run
    backwards the first check finds the scan due. *)
Theorem worker_first_scan (api : ClientIface) (group : Group) (tk : Ticks) (now : Z)
    (w : World FS) :
  (now <= now_check tk)%Z ->
  workerIteration ParseAddrIs6 FS os_WriteFile yaml_Marshal api group tk (workerInit now group) w =
  workerCycle ParseAddrIs6 FS os_WriteFile yaml_Marshal api group tk (workerInit now group) w.
Proof.
  intros Hle. unfold workerIteration, scanDue, workerInit. cbn [lastRun].
  destruct (Z.leb_spec (ScanInterval group) (now_check tk - (now - ScanInterval group)));
    [reflexivity | lia].
Qed.

End ScanAndWorker.

(** * The further theorems at sample inputs *)

Lemma ToAddr_strips_mask_witness : ToAddr (mkIP "2001:db8::1/64" StatusIPActive) = "2001:db8::1".
Proof.
  apply (ToAddr_strips_mask (mkIP "2001:db8::1/64" StatusIPActive) "2001:db8::1" "64").
  - reflexivity.
  - intros c Hc. cbn in Hc. intuition (subst; discriminate).
  - reflexivity.
  - cbn. lia.
Defined.

Lemma ToAddr_prefix_witness :
  ToAddr (mkIP "10.0.0.1" StatusIPActive) = Address (mkIP "10.0.0.1" StatusIPActive).
Proof.
  apply (proj2 (ToAddr_prefix (mkIP "10.0.0.1" StatusIPActive))).
  intros c Hc. cbn in Hc. intuition (subst; discriminate).
Defined.

Lemma selectAddr_family_policy_witness :
  Forall (fun a => Family sampleParseAddrIs6 a = Done 4%Z) [mkIP "10.0.0.1/24" StatusIPActive].
Proof.
  apply Forall_forall. intros a Ha. apply list_elem_of_In in Ha. revert a Ha.
  exact (proj1 (selectAddr_family_policy sampleParseAddrIs6 sampleAddrs
                  (mkGroup GroupTypeDeviceTag None (mkFlags true InetFamilyInet true) [])
                  [mkIP "10.0.0.1/24" StatusIPActive] eq_refl) eq_refl).
Defined.

Lemma selectAddr_empty_iff_witness :
  let addrs := [Some (mkIP "10.0.0.2/24" StatusIPReserved); None] in
  let group := mkGroup GroupTypeDeviceTag None (mkFlags true InetFamilyAny true) [] in
  selectAddr sampleParseAddrIs6 addrs group = Done [] /\
  (@nil IP = [] <->
   forall a, In (Some a) addrs -> isSelectable sampleParseAddrIs6 group a = false).
Proof.
  split; [reflexivity|].
  exact (selectAddr_empty_iff sampleParseAddrIs6
           [Some (mkIP "10.0.0.2/24" StatusIPReserved); None]
           (mkGroup GroupTypeDeviceTag None (mkFlags true InetFamilyAny true) [])
           [] eq_refl).
Defined.

Lemma selectAddr_all_complete_witness :
  let group := mkGroup GroupTypeDeviceTag None (mkFlags true InetFamilyAny true) [] in
  let r := [mkIP "10.0.0.1/24" StatusIPActive; mkIP "2001:db8::1/64" StatusIPActive] in
  sublist r (nonNull sampleAddrs) /\
  forall a, In (Some a) sampleAddrs -> isSelectable sampleParseAddrIs6 group a = true ->
    exists b, In b r /\ Address b = Address a.
Proof.
  exact (selectAddr_all_complete sampleParseAddrIs6 sampleAddrs
           (mkGroup GroupTypeDeviceTag None (mkFlags true InetFamilyAny true) [])
           [mkIP "10.0.0.1/24" StatusIPActive; mkIP "2001:db8::1/64" StatusIPActive]
           eq_refl eq_refl).
Defined.

Lemma selectAddr_idempotent_witness :
  let group := mkGroup GroupTypeDeviceTag None (mkFlags true InetFamilyAny true) [] in
  let r := [mkIP "10.0.0.1/24" StatusIPActive; mkIP "2001:db8::1/64" StatusIPActive] in
  selectAddr sampleParseAddrIs6 (map Some r) group = Done r.
Proof.
  exact (selectAddr_idempotent sampleParseAddrIs6 sampleAddrs
           (mkGroup GroupTypeDeviceTag None (mkFlags true InetFamilyAny true) [])
           [mkIP "10.0.0.1/24" StatusIPActive; mkIP "2001:db8::1/64" StatusIPActive] eq_refl).
Defined.

Lemma selectAddr_single_in_all_witness :
  Forall (fun a => In a [mkIP "10.0.0.1/24" StatusIPActive; mkIP "2001:db8::1/64" StatusIPActive])
    [mkIP "2001:db8::1/64" StatusIPActive].
Proof.
  apply Forall_forall. intros a Ha. apply list_elem_of_In in Ha. revert a Ha.
  exact (selectAddr_single_in_all sampleParseAddrIs6 sampleAddrs
           (mkGroup GroupTypeDeviceTag None (mkFlags true InetFamilyAny false) [])
           (mkGroup GroupTypeDeviceTag None (mkFlags true InetFamilyAny true) [])
           [mkIP "2001:db8::1/64" StatusIPActive]
           [mkIP "10.0.0.1/24" StatusIPActive; mkIP "2001:db8::1/64" StatusIPActive]
           eq_refl eq_refl eq_refl eq_refl eq_refl).
Defined.

Lemma convertToTargets_map_witness :
  convertToTargets sampleParseAddrIs6
    [mkIP "10.0.0.1/24" StatusIPActive; mkIP "2001:db8::1/64" StatusIPActive] (Some 9100%Z) =
  Done [ {[ AddressLabel := "10.0.0.1:9100" ]}; {[ AddressLabel := "[2001:db8::1]:9100" ]} ].
Proof.
  rewrite (convertToTargets_map sampleParseAddrIs6
             [mkIP "10.0.0.1/24" StatusIPActive; mkIP "2001:db8::1/64" StatusIPActive]
             (Some 9100%Z)).
  - vm_compute. reflexivity.
  - right. intros a [<-|[<-|[]]]; eexists; reflexivity.
Defined.

Lemma generateCustomFieldLabels_labels_witness :
  (forall key cf, sampleFields !! key = Some cf ->
     sampleFieldLabels !! ("netbox_" +:+ key) = spec_cfLabel cf) /\
  (forall l v, sampleFieldLabels !! l = Some v ->
     exists key cf, l = "netbox_" +:+ key /\ sampleFields !! key = Some cf /\
                    spec_cfLabel cf = Some v).
Proof.
  apply (generateCustomFieldLabels_labels sampleFields sampleFieldLabels None).
  vm_compute. reflexivity.
Defined.



Lemma validateGroup_accepts_witness : validGroup sampleCompile validatedGroupConfig.
Proof.
  apply (validateGroup_accepts sampleParseDuration sampleCompile sampleGroupConfig
           validatedGroupConfig 10000000000).
  vm_compute. reflexivity.
Defined.

Lemma validateGroup_defaults_witness :
  cfg_Flags validatedGroupConfig =
    {| cfg_IncludeVMs := Some true; cfg_InetFamily := Some InetFamilyAny;
       cfg_AllAddresses := Some false |} /\
  cfg_GroupScanInterval validatedGroupConfig = 10000000000%Z.
Proof.
  destruct (validateGroup_defaults sampleParseDuration sampleCompile sampleGroupConfig
              validatedGroupConfig 10000000000) as (H1 & H2 & H3 & H4 & _).
  - vm_compute. reflexivity.
  - split; [|exact H4].
    destruct (cfg_Flags validatedGroupConfig) as [vms family all].
    cbn in H1, H2, H3. rewrite H1, H2, H3. reflexivity.
Defined.

Lemma validateGroup_idempotent_witness :
  validateGroup sampleParseDuration sampleCompile validatedGroupConfig 10000000000 =
  (validatedGroupConfig, None).
Proof.
  apply (validateGroup_idempotent sampleParseDuration sampleCompile sampleGroupConfig).
  vm_compute. reflexivity.
Defined.

Lemma readConfigFile_accepts_witness :
  NoDup (map cfg_File (Groups loadedConfig)) /\
  Forall (validGroup sampleCompile) (Groups loadedConfig).
Proof.
  destruct (readConfigFile_accepts sampleParseDuration sampleCompile sampleReadFile sampleYaml
              "config.yml" loadedConfig) as (_ & _ & _ & _ & Hnd & Hall).
  - vm_compute. reflexivity.
  - split; [exact Hnd|]. eapply Forall_impl; [exact Hall|]. intros g [H _]. exact H.
Defined.

Lemma validateGroup_error_sound_witness :
  exists p, cfg_Port badPortGroupConfig = Some p /\ (p < 0 \/ 65535 < p)%Z.
Proof.
  destruct (validateGroup_error_sound sampleParseDuration sampleCompile badPortGroupConfig
              (withScanInterval badPortGroupConfig 300000000000) 10000000000
              (Sentinel ErrorBadPort))
    as [[H _]|[[H _]|[[H _]|[[_ H]|[[H _]|[[H _]|[H _]]]]]]]; try discriminate H.
  - vm_compute. reflexivity.
  - exact H.
Defined.

Lemma getTargetsByDeviceTag_observations_witness :
  exists samples,
    promTargetState (snd deviceScan) = samples /\
    map ts_netbox_name samples = ["dev1"; "dev2"; "vm1"] /\
    length (fst deviceScan) = length (List.filter isActive samples).
Proof.
  destruct (getTargetsByDeviceTag_observations sampleParseAddrIs6 mixedApi deviceGroup noMetrics
              (snd deviceScan)
              [mkDevice "dev1" StatusDeviceActive ∅ false; mkDevice "dev2" "offline" ∅ false]
              [mkDevice "vm1" StatusDeviceActive ∅ true] (inl (fst deviceScan)))
    as (tg & samples & Htg & Hp & HF & Hl).
  - reflexivity.
  - reflexivity.
  - vm_compute. reflexivity.
  - exists samples. inversion Htg; subst tg. split; [exact Hp|]. split; [|exact Hl].
    clear Hp Hl Htg.
    inversion HF as [|d1 s1 l1 r1 (st1 & ->) HF1]; subst.
    inversion HF1 as [|d2 s2 l2 r2 (st2 & ->) HF2]; subst.
    inversion HF2 as [|d3 s3 l3 r3 (st3 & ->) HF3]; subst.
    inversion HF3; subst. reflexivity.
Defined.

Lemma getTargetsByDeviceTag_endpoints_witness :
  Forall (fun t => (1 <= length (Targets t) <= 2)%nat) (fst deviceScan).
Proof.
  eapply Forall_impl;
    [apply (getTargetsByDeviceTag_endpoints sampleParseAddrIs6 mixedApi deviceGroup noMetrics
              (snd deviceScan) (fst deviceScan)); vm_compute; reflexivity|].
  intros t [H _]. exact H.
Defined.

Lemma getTargetsByInterfaceTag_endpoints_witness :
  Forall (fun t => length (Targets t) = 1%nat) (fst interfaceScan).
Proof.
  eapply Forall_impl;
    [apply (getTargetsByInterfaceTag_endpoints sampleParseAddrIs6 sampleApi interfaceGroup
              noMetrics (snd interfaceScan) (fst interfaceScan)); vm_compute; reflexivity|].
  intros t [_ H]. apply H. reflexivity.
Defined.

Lemma getTargetsByInterfaceTag_no_addresses_witness :
  exists m',
    getTargetsByInterfaceTag sampleParseAddrIs6 mixedApi interfaceGroup noMetrics =
      Done (inl [], m') /\
    map ts_state (promTargetState m') = [TargetSkippedNoValidIP].
Proof.
  exists (snd interfaceScanNoAddresses).
  assert (Hrun : getTargetsByInterfaceTag sampleParseAddrIs6 mixedApi interfaceGroup noMetrics =
                 Done (inl (fst interfaceScanNoAddresses), snd interfaceScanNoAddresses))
    by (vm_compute; reflexivity).
  pose proof (getTargetsByInterfaceTag_no_addresses sampleParseAddrIs6 mixedApi interfaceGroup
                noMetrics (snd interfaceScanNoAddresses) [sampleInterface true] []
                (inl (fst interfaceScanNoAddresses))
                (fun id => ex_intro _ _ eq_refl) (fun id => ex_intro _ _ eq_refl)
                eq_refl eq_refl Hrun) as Hr.
  split; [rewrite Hrun, Hr; reflexivity | vm_compute; reflexivity].
Defined.

Lemma assemble_targets_labelled_witness :
  length (fst labelledScan) = 2%nat /\
  Forall (fun t => Source t = "netbox_sd" /\
                   Labels t !! "netbox_site" = Some "dc1" /\
                   Labels t !! "team" = Some "ops") (fst labelledScan).
Proof.
  split; [vm_compute; reflexivity|].
  eapply Forall_impl;
    [apply (assemble_targets_labelled sampleParseAddrIs6 mixedApi labelledGroup noMetrics
              (snd labelledScan) (fst labelledScan)); vm_compute; reflexivity|].
  intros t [Hs Hl]. split; [exact Hs|]. split; apply Hl; vm_compute; reflexivity.
Defined.

Lemma assemble_metrics_accounting_witness :
  groupVectors (snd deviceScan) = groupVectors noMetrics /\
  exists samples,
    promTargetState (snd deviceScan) = samples /\
    Forall (fun s => ts_group s = "targets.yml") samples /\
    length (fst deviceScan) = length (List.filter isActive samples).
Proof.
  exact (assemble_metrics_accounting sampleParseAddrIs6 mixedApi deviceGroup noMetrics
           (snd deviceScan) (fst deviceScan) eq_refl).
Defined.

Lemma getTargetsByService_skips_vms_witness :
  getTargetsByService sampleParseAddrIs6 mixedApi (serviceGroup false) noMetrics =
  getTargetsByService sampleParseAddrIs6 sampleApi (serviceGroup false) noMetrics.
Proof.
  apply (getTargetsByService_skips_vms sampleParseAddrIs6 mixedApi sampleApi (serviceGroup false)
           noMetrics [vmService; sampleService]); reflexivity.
Defined.

Lemma getTargetsByService_is_vm_persists_witness :
  exists a b,
    fst serviceScan = a ++ b /\
    Forall (fun t => Labels t !! "is_vm" = None) a /\
    Forall (fun t => Labels t !! "is_vm" = Some "true") b.
Proof.
  apply (getTargetsByService_is_vm_persists sampleParseAddrIs6 mixedApi (serviceGroup true)
           noMetrics (snd serviceScan)).
  - reflexivity.
  - vm_compute. reflexivity.
Defined.

Example getTargetsByService_is_vm_after_vm :
  map (fun t => (Labels t !! "netbox_name", Labels t !! "is_vm")) (fst serviceScan) =
  [(Some "vm1", Some "true"); (Some "dev1", Some "true")].
Proof. vm_compute. reflexivity. Qed.

Lemma worker_commits_scan_witness :
  exists v' w',
    workerCycle sampleParseAddrIs6 (gmap string string) sampleWriteFile sampleMarshal
      mixedApi deviceGroup sampleTicks sampleVars sampleWorld = Done (v', w') /\
    fs w' !! "targets.yml" = Some "2" /\
    promTargetCount (world_metrics w') !! "targets.yml" = Some 2%Z /\
    promUpdateError (world_metrics w') !! "targets.yml" = None.
Proof.
  destruct (worker_commits_scan sampleParseAddrIs6 (gmap string string) sampleWriteFile
              sampleMarshal mixedApi deviceGroup sampleTicks sampleVars sampleWorld
              (fst deviceScan) (snd deviceScan) "2" (<["targets.yml" := "2"]> (fs sampleWorld)))
    as (v' & w' & Hrun & Hfs & _ & _ & _ & _ & Herr & Hcount & _).
  - vm_compute. reflexivity.
  - vm_compute. reflexivity.
  - reflexivity.
  - exists v', w'. split; [exact Hrun|]. split; [rewrite Hfs; reflexivity|].
    split; [exact Hcount|]. rewrite Herr. reflexivity.
Defined.

Lemma worker_cycle_stamps_witness :
  promUpdateDuration (world_metrics (snd sampleCycle)) !! "targets.yml" = Some 5%Z /\
  promUpdateTime (world_metrics (snd sampleCycle)) !! "targets.yml" = Some 100%Z /\
  lastRun (fst sampleCycle) = 100000000005%Z.
Proof.
  destruct (worker_cycle_stamps sampleParseAddrIs6 (gmap string string) sampleWriteFile
              sampleMarshal mixedApi deviceGroup sampleTicks sampleVars (fst sampleCycle)
              sampleWorld (snd sampleCycle)) as (Hd & Ht & Hl & _).
  - vm_compute. reflexivity.
  - split; [exact Hd|]. split; [exact Ht | exact Hl].
Defined.

Lemma worker_first_scan_witness :
  workerIteration sampleParseAddrIs6 (gmap string string) sampleWriteFile sampleMarshal
    mixedApi deviceGroup sampleTicks (workerInit 99999999999 deviceGroup) sampleWorld =
  workerCycle sampleParseAddrIs6 (gmap string string) sampleWriteFile sampleMarshal
    mixedApi deviceGroup sampleTicks (workerInit 99999999999 deviceGroup) sampleWorld.
Proof.
  apply (worker_first_scan sampleParseAddrIs6 (gmap string string) sampleWriteFile sampleMarshal
           mixedApi deviceGroup sampleTicks 99999999999 sampleWorld).
  cbn. lia.
Defined.



(** C10 at an input: a disabled interface of an active device between two
    enabled ones. *)
Lemma interface_disabled_skipped_witness :
  exists tg m',
    getTargetsByInterfaceTag sampleParseAddrIs6 disabledApi interfaceGroup noMetrics =
      Done (inl tg, m') /\
    length tg = 2%nat /\
    map (fun s => (ts_netbox_name s, ts_state s)) (promTargetState m') =
      [("dev1", TargetActive); ("dev2", TargetSkippedBadStatus); ("dev1", TargetActive)].
Proof.
  destruct (interface_disabled_skipped sampleParseAddrIs6 disabledApi interfaceGroup noMetrics
              [sampleInterface true; disabledInterface; sampleInterface true] []
              [sampleInterface true] [sampleInterface true] disabledInterface
              (mkDevice "dev2" StatusDeviceActive ∅ false)
              eq_refl eq_refl eq_refl eq_refl eq_refl) as [Heq _].
  rewrite Heq. vm_compute. eexists _, _. split; [reflexivity|]. split; reflexivity.
Defined.
